(** * fsarchiver: the archive read path (src/archreader.c)

    A shallow embedding of [archreader.c] and proofs about its volume,
    header, resync and block logic.

    Conventions of the embedding.
    - Unsigned C integers ([u8], [u16], [u32], [u64]) are [Z] values in their
      range; [int] results are [Z].  The model is LP64: [long] holds every
      [u32].
    - The volume open on [archfd] is a regular file: a list of bytes and a
      file offset ([world]).  [read], [lseek64], [malloc], [free] and the
      message printers act on the [world] and leave an [event] in its log,
      most recent first.
    - A [memcpy] whose source range leaves the allocated buffer has no
      defined behaviour in C; the model stops there with the fault
      [OutOfBounds].
    - Code of the program that is not in [archreader.c] (the dictionary
      module, [fletcher32], [is_magic_valid], constants and structure
      layouts of the headers) is collected in the class [Externals]; the
      functions are written and the theorems are proved for every
      instance.  [Reference] holds one instance, used to run the model. *)

From Stdlib Require Import String Ascii ZArith List Bool Lia.
From Stdlib Require Import Strings.Byte.
Import ListNotations.
Local Open Scope Z_scope.

(** ** Bytes and little-endian integers *)

Definition byte_val (b : byte) : Z := Z.of_N (Byte.to_N b).

Definition byte_of_Z (z : Z) : byte :=
  match Byte.of_N (Z.to_N (z mod 256)) with
  | Some b => b
  | None => x00
  end.

(** [le16_to_cpu] / [le32_to_cpu] applied to the bytes that [read] or
    [memcpy] stored in a [u16] / [u32] variable: the value does not depend on
    the byte order of the host. *)
Fixpoint le_to_cpu (bs : list byte) : Z :=
  match bs with
  | [] => 0
  | b :: bs' => byte_val b + 256 * le_to_cpu bs'
  end.

Fixpoint cpu_to_le (n : nat) (v : Z) : list byte :=
  match n with
  | O => []
  | S n' => byte_of_Z v :: cpu_to_le n' (v / 256)
  end.

(** ** Return codes (error.h) *)

(** Modelled from the spec: the three severities of error.h, which is not
    among the sources: none, minor (recoverable) and fatal.  ERR_SUCCESS is
    the value 0: archreader.c compares the result of archreader_read_data,
    which is 0 or -1, with 0 in one place and with ERR_SUCCESS in another. *)
Inductive errcode : Type := ERR_SUCCESS | ERR_MINOR | ERR_FATAL.

(** ** The world: the open volume, the allocator, the log *)

Inductive event : Type :=
| EvRead (n got : Z)          (* read(fd, buf, n) returned got *)
| EvSeekSet (off : Z)         (* lseek64(fd, off, SEEK_SET) succeeded *)
| EvSeekCur (off : Z)         (* lseek64(fd, off, SEEK_CUR) succeeded *)
| EvSeekFail                  (* lseek64 returned -1 *)
| EvMalloc (n : Z)            (* malloc(n) returned a buffer *)
| EvMallocNull (n : Z)        (* malloc(n) returned NULL *)
| EvFree (n : Z)              (* free of a buffer of n bytes *)
| EvErr (msg : string)        (* errprintf / sysprintf, by format string *)
| EvMsg (msg : string).       (* msgprintf, by format string *)

Record world : Type := mkWorld {
  file : list byte;   (* contents of the volume open on archfd *)
  fpos : Z;           (* its file offset *)
  heap : Z;           (* bytes malloc can still hand out to archreader.c;
                         the storage of the dictionary module (dico.c) is
                         not counted *)
  log  : list event   (* most recent first *)
}.

Definition emit (e : event) (w : world) : world :=
  mkWorld (file w) (fpos w) (heap w) (e :: log w).

Definition errprintf (msg : string) (w : world) : world := emit (EvErr msg) w.
Definition sysprintf (msg : string) (w : world) : world := emit (EvErr msg) w.
Definition msgprintf (msg : string) (w : world) : world := emit (EvMsg msg) w.

(** [read(fd, buf, n)] on a regular file: the bytes from the offset to the
    end of the file, at most [n] of them; -1 on a closed descriptor. *)
Definition sys_read (fd n : Z) (w : world) : Z * list byte * world :=
  if fd <? 0 then (-1, [], w)
  else
    let got := firstn (Z.to_nat n) (skipn (Z.to_nat (fpos w)) (file w)) in
    let k := Z.of_nat (length got) in
    (k, got, mkWorld (file w) (fpos w + k) (heap w) (EvRead n k :: log w)).

Inductive whence : Type := SEEK_SET | SEEK_CUR.

(** [lseek64] on a regular file: any offset that is not negative can be set,
    also past the end of the file. *)
Definition sys_lseek (fd off : Z) (wh : whence) (w : world) : Z * world :=
  if fd <? 0 then (-1, emit EvSeekFail w)
  else
    let target := match wh with SEEK_SET => off | SEEK_CUR => fpos w + off end in
    if target <? 0 then (-1, emit EvSeekFail w)
    else (target,
          mkWorld (file w) target (heap w)
                  (match wh with SEEK_SET => EvSeekSet off | SEEK_CUR => EvSeekCur off end
                   :: log w)).

(** [malloc(n)]: a buffer as long as [n] bytes remain, NULL otherwise. *)
Definition sys_malloc (n : Z) (w : world) : bool * world :=
  if n <=? heap w
  then (true, mkWorld (file w) (fpos w) (heap w - n) (EvMalloc n :: log w))
  else (false, emit (EvMallocNull n) w).

Definition sys_free (n : Z) (w : world) : world :=
  mkWorld (file w) (fpos w) (heap w + n) (EvFree n :: log w).

(** Points at which the model stops following a run.  [OutOfBounds] and
    [AssertFailed] are reached by the code as well: from there on C gives
    the run no defined behaviour, and what the compiled code does or
    returns afterwards is not modelled. *)
Inductive fault : Type :=
| OutOfBounds     (* memcpy from outside the allocated buffer *)
| AssertFailed    (* assert() of a callee on a NULL argument *)
| LoopBound.      (* the iteration bound of the model was reached *)

(** What the model of a function yields: its results and the world
    afterwards, or a fault. *)
Inductive outcome (A : Type) : Type :=
| Returned (a : A) (w : world)
| Fault (f : fault) (w : world).
Arguments Returned {A} a w.
Arguments Fault {A} f w.

(** ** The dictionary (dico.h) *)

(** Modelled from the spec: [struct s_dicoitem] of dico.h, which is not
    among the sources: a record has a type (u8), a section (u8), a key
    (u16), a size (u16) and [size] bytes of data; a dictionary is the
    ordered collection of its records. *)
Record dicoitem : Type := mkItem {
  item_type : Z;
  item_section : Z;
  item_key : Z;
  item_size : Z;
  item_data : list byte
}.

Definition cdico : Type := list dicoitem.

(** ** The reader and the block descriptor (archreader.h, queue.h) *)

(** Modelled from the spec: [struct s_archreader] of archreader.h, which is
    not among the sources, with the members archreader.c uses.  [filefmt]
    and [creatver] are the character arrays as they are in memory. *)
Record carchreader : Type := mkReader {
  archfd : Z;
  archid : Z;
  curvol : Z;
  compalgo : Z;
  cryptalgo : Z;
  complevel : Z;
  fsacomp : Z;
  basepath : string;
  volpath : string;
  filefmt : list byte;
  creatver : list byte
}.

(** Modelled from the spec: [struct s_blockinfo] of queue.h, which is not
    among the sources.  [blkdata] is the payload pointer: [None] is NULL,
    [Some bs] a heap buffer holding [bs]. *)
Record blockinfo : Type := mkBlock {
  blkdata : option (list byte);
  blkrealsize : Z;
  blkoffset : Z;
  blkarcsum : Z;
  blkcompalgo : Z;
  blkcryptalgo : Z;
  blkarsize : Z;
  blkcompsize : Z
}.

(** ** What archreader.c takes from the rest of the program *)

Class Externals : Type := {
  (* fsarchiver.h *)
  FSA_SIZEOF_MAGIC : nat;
  FSA_SIZEOF_MAGIC_pos : (0 < FSA_SIZEOF_MAGIC)%nat;
  FSA_MAGIC_VOLH : list byte;
  FSA_FILESYSID_NULL : Z;
  FSA_MAX_BLKSIZE : Z;
  FSA_MAX_FILEFMTLEN : nat;
  FSA_MAX_PROGVERLEN : nat;
  ENCRYPT_NULL : Z;
  COMPRESS_NULL : Z;
  (* limits.h *)
  PATH_MAX : nat;
  (* dico.h: keys of the volume header and of the block header *)
  VOLUMEHEADKEY_ARCHID : Z;
  VOLUMEHEADKEY_VOLNUM : Z;
  VOLUMEHEADKEY_FILEFORMATVER : Z;
  VOLUMEHEADKEY_PROGVERCREAT : Z;
  BLOCKHEADITEMKEY_BLOCKOFFSET : Z;
  BLOCKHEADITEMKEY_REALSIZE : Z;
  BLOCKHEADITEMKEY_COMPRESSALGO : Z;
  BLOCKHEADITEMKEY_ENCRYPTALGO : Z;
  BLOCKHEADITEMKEY_ARSIZE : Z;
  BLOCKHEADITEMKEY_COMPSIZE : Z;
  BLOCKHEADITEMKEY_ARCSUM : Z;
  (* common.c *)
  is_magic_valid : list byte -> bool;
  fletcher32 : list byte -> Z;
  (* dico.c; [None] stands for NULL (dico_alloc) or a result that is not 0.
     The storage the dictionary module allocates and frees is its own: it
     is not part of the [world].
     dico_add_generic d section key data size type receives in [data] the
     [size] bytes it copies.  dico_get_data d section key maxsize yields
     the contents of the caller's array of [maxsize] bytes after the call. *)
  dico_alloc : option cdico;
  dico_add_generic : cdico -> Z -> Z -> list byte -> Z -> Z -> option cdico;
  dico_get_u16 : cdico -> Z -> Z -> option Z;
  dico_get_u32 : cdico -> Z -> Z -> option Z;
  dico_get_u64 : cdico -> Z -> Z -> option Z;
  dico_get_data : cdico -> Z -> Z -> nat -> option (list byte);
  (* libc: realpath(path, resolved); [None] when it does not return
     [resolved] *)
  realpath : string -> option string;
  (* memset(blkinfo, 0, sizeof(blkinfo)): [blkinfo] is a pointer, so the
     bytes cleared are the first sizeof(pointer) bytes of the structure;
     which members they are depends on the layout in queue.h. *)
  memset_blkinfo_head : blockinfo -> blockinfo
}.

(** ** libc on strings and arrays *)

(** [memcpy(dst, src, n)] and [read] into an array: the bytes written
    replace the front of the array. *)
Definition overwrite (src dst : list byte) : list byte :=
  src ++ skipn (length src) dst.

(** The character at [p[0]]; past the end of a literal there is its NUL. *)
Definition cchar (p : list byte) : byte := hd x00 p.

(** [strncmp(a, b, n)]: 0 when the two strings agree up to their NUL or up
    to [n] characters, else the sign of the first difference. *)
Fixpoint strncmp (a b : list byte) (n : nat) : Z :=
  match n with
  | O => 0
  | S n' =>
      let x := cchar a in
      let y := cchar b in
      if byte_val x =? byte_val y
      then if byte_val x =? 0 then 0 else strncmp (tl a) (tl b) n'
      else Z.sgn (byte_val x - byte_val y)
  end.

Definition digit_char (d : Z) : ascii := ascii_of_nat (48 + Z.to_nat d).

(** The decimal digits of [v >= 0], most significant first; [fuel] bounds
    their number. *)
Fixpoint dec_digits (fuel : nat) (v : Z) (acc : string) : string :=
  match fuel with
  | O => acc
  | S fuel' =>
      let acc' := String (digit_char (v mod 10)) acc in
      if v / 10 =? 0 then acc' else dec_digits fuel' (v / 10) acc'
  end.

Fixpoint zeros (n : nat) : string :=
  match n with
  | O => EmptyString
  | S n' => String "0"%char (zeros n')
  end.

(** printf's conversion of a [long] with precision [prec]: at least [prec]
    digits, zeros in front; "%ld" is precision 1.  A [long] has at most 19
    digits. *)
Definition fmt_ld (prec : nat) (v : Z) : string :=
  let ds := dec_digits 19 (Z.abs v) EmptyString in
  let padded := (zeros (prec - String.length ds) ++ ds)%string in
  if v <? 0 then String "-"%char padded else padded.

(** [snprintf(dst, size, fmt, ...)] where the conversion yields [s]: at most
    [size - 1] characters are stored. *)
Definition snprintf (size : nat) (s : string) : string :=
  substring 0 (size - 1) s.

(** [strlcat(dst, src, size)]: [src] is appended as far as [size - 1]
    characters allow. *)
Definition strlcat (dst src : string) (size : nat) : string :=
  if (size <=? String.length dst)%nat then dst
  else substring 0 (size - 1) (dst ++ src)%string.

(** ** archreader.c *)

Section Archreader.
Context {E : Externals}.

(** memset(ai, 0, sizeof(struct s_archreader)) and the assignments after
    it. *)
Definition archreader_init (ai : carchreader) : Z * carchreader :=
  (0, mkReader (-1) 0 0 COMPRESS_NULL ENCRYPT_NULL (-1) (-1)
               EmptyString EmptyString
               (repeat x00 FSA_MAX_FILEFMTLEN) (repeat x00 FSA_MAX_PROGVERLEN)).

Definition archreader_destroy (ai : carchreader) : Z := 0.

Definition set_archfd (fd : Z) (ai : carchreader) : carchreader :=
  mkReader fd (archid ai) (curvol ai) (compalgo ai) (cryptalgo ai)
           (complevel ai) (fsacomp ai) (basepath ai) (volpath ai)
           (filefmt ai) (creatver ai).

Definition set_archid (id : Z) (ai : carchreader) : carchreader :=
  mkReader (archfd ai) id (curvol ai) (compalgo ai) (cryptalgo ai)
           (complevel ai) (fsacomp ai) (basepath ai) (volpath ai)
           (filefmt ai) (creatver ai).

Definition set_curvol (v : Z) (ai : carchreader) : carchreader :=
  mkReader (archfd ai) (archid ai) v (compalgo ai) (cryptalgo ai)
           (complevel ai) (fsacomp ai) (basepath ai) (volpath ai)
           (filefmt ai) (creatver ai).

Definition set_volpath (p : string) (ai : carchreader) : carchreader :=
  mkReader (archfd ai) (archid ai) (curvol ai) (compalgo ai) (cryptalgo ai)
           (complevel ai) (fsacomp ai) (basepath ai) p
           (filefmt ai) (creatver ai).

Definition set_filefmt (f : list byte) (ai : carchreader) : carchreader :=
  mkReader (archfd ai) (archid ai) (curvol ai) (compalgo ai) (cryptalgo ai)
           (complevel ai) (fsacomp ai) (basepath ai) (volpath ai)
           f (creatver ai).

Definition set_creatver (c : list byte) (ai : carchreader) : carchreader :=
  mkReader (archfd ai) (archid ai) (curvol ai) (compalgo ai) (cryptalgo ai)
           (complevel ai) (fsacomp ai) (basepath ai) (volpath ai)
           (filefmt ai) c.

(** lockf(F_ULOCK) and close only touch the descriptor. *)
Definition archreader_close (ai : carchreader) : Z * carchreader :=
  if archfd ai <? 0 then (-1, ai) else (0, set_archfd (-1) ai).

(** Yields the result, the bytes stored in [data] and the world.  [size]
    is a size on which the cast (long)size of the source is the identity
    (below 2^63), as it is at every call in archreader.c: 2, 4,
    sizeof(magic) and a u16. *)
Definition archreader_read_data (ai : carchreader) (size : Z) (w : world)
  : Z * list byte * world :=
  let '(lres, got, w1) := sys_read (archfd ai) size w in
  if negb (lres =? size)
  then (-1, got, sysprintf "read failed: read(size=%ld)=%ld" w1)
  else (0, got, w1).

(** memcpy(&var, bufpos, n) from the header buffer: [None] when the range
    [bufpos, bufpos+n) is not inside the buffer. *)
Definition buf_get (buffer : list byte) (bufpos n : nat) : option (list byte) :=
  if (bufpos + n <=? length buffer)%nat
  then Some (firstn n (skipn bufpos buffer))
  else None.

Inductive items_result : Type :=
| ItemsDone (d : cdico)      (* the loop ran to its end *)
| ItemsFailed (d : cdico)    (* dico_add_generic failed: return ERR_FATAL *)
| ItemsFault (d : cdico).    (* a memcpy left the buffer *)

(** The loop [for (i=0; i < count; i++)] of archreader_read_dico, with
    [n] iterations to go.  After the type the source advances by
    sizeof(section), which is the one byte of the type as well. *)
Fixpoint read_items (n : nat) (buffer : list byte) (bufpos : nat) (d : cdico)
  : items_result :=
  match n with
  | O => ItemsDone d
  | S n' =>
      match buf_get buffer bufpos 1 with
      | None => ItemsFault d
      | Some type =>
      match buf_get buffer (bufpos + 1) 1 with
      | None => ItemsFault d
      | Some section =>
      match buf_get buffer (bufpos + 2) 2 with
      | None => ItemsFault d
      | Some temp16 =>
      let key := le_to_cpu temp16 in
      match buf_get buffer (bufpos + 4) 2 with
      | None => ItemsFault d
      | Some temp16 =>
      let size := le_to_cpu temp16 in
      match buf_get buffer (bufpos + 6) (Z.to_nat size) with
      | None => ItemsFault d
      | Some data =>
      match dico_add_generic d (le_to_cpu section) key data size (le_to_cpu type) with
      | None => ItemsFailed d
      | Some d' => read_items n' buffer (bufpos + 6 + Z.to_nat size) d'
      end end end end end end
  end.

Definition archreader_read_dico (ai : carchreader) (d : cdico) (w : world)
  : outcome (errcode * cdico) :=
  let '(r, temp16, w) := archreader_read_data ai 2 w in
  if negb (r =? 0)
  then Returned (ERR_FATAL, d) (errprintf "imgdisk_read_data() failed" w)
  else
  let headerlen := le_to_cpu temp16 in
  let '(ok, w) := sys_malloc headerlen w in
  if negb ok
  then Returned (ERR_FATAL, d) (errprintf "cannot allocate memory for header" w)
  else
  let '(r, buffer, w) := archreader_read_data ai headerlen w in
  if negb (r =? 0)
  then Returned (ERR_FATAL, d)
                (sys_free headerlen (errprintf "cannot read header data" w))
  else
  let '(r, temp32, w) := archreader_read_data ai 4 w in
  if negb (r =? 0)
  then Returned (ERR_FATAL, d)
                (sys_free headerlen (errprintf "cannot read header checksum" w))
  else
  let origsum := le_to_cpu temp32 in
  let newsum := fletcher32 buffer in
  if negb (newsum =? origsum)
  then Returned (ERR_MINOR, d)
                (sys_free headerlen (errprintf "bad checksum for header" w))
  else
  match buf_get buffer 0 2 with
  | None => Fault OutOfBounds w
  | Some temp16 =>
      let count := le_to_cpu temp16 in
      match read_items (Z.to_nat count) buffer 2 d with
      | ItemsFault _ => Fault OutOfBounds w
      | ItemsFailed d' => Returned (ERR_FATAL, d') w
      | ItemsDone d' => Returned (ERR_SUCCESS, d') (sys_free headerlen w)
      end
  end.

(** The out-parameters of archreader_read_header: the magic, the dictionary
    pointer ([None] is NULL) and the filesystem id. *)
Record header_out : Type := mkHeaderOut {
  h_magic : list byte;
  h_dico : option cdico;
  h_fsid : Z
}.

(** The result of the resync loop: whether it was left by its condition
    (a valid magic) or by [return ERR_FATAL], then [curpos], the magic and
    the world. *)
Record scan_result : Type := mkScan {
  scan_found : bool;
  scan_curpos : Z;
  scan_magic : list byte;
  scan_world : world
}.

(** The loop [while (is_magic_valid(magic)!=true)] of
    archreader_read_header; [None] when [fuel] iterations did not end it. *)
Fixpoint resync_scan (fuel : nat) (ai : carchreader) (curpos : Z)
         (magic : list byte) (w : world) : option scan_result :=
  if is_magic_valid magic
  then Some (mkScan true curpos magic w)
  else
    match fuel with
    | O => None
    | S fuel' =>
        let '(r, w) := sys_lseek (archfd ai) curpos SEEK_SET w in
        let curpos := curpos + 1 in
        if r <? 0
        then Some (mkScan false curpos magic
                          (sysprintf "lseek64(pos=%lld, SEEK_SET) failed" w))
        else
          let '(res, got, w) := archreader_read_data ai (Z.of_nat FSA_SIZEOF_MAGIC) w in
          let magic := overwrite got magic in
          if negb (res =? 0)
          then Some (mkScan false curpos magic
                            (msgprintf "cannot read header magic: res=%d" w))
          else resync_scan fuel' ai curpos magic w
    end.

(** Iterations that end the loop on any volume: each one moves the
    candidate offset one byte on, and the read fails past the end. *)
Definition scan_bound (w : world) : nat := S (length (file w)).

(** The first part of archreader_read_header, to the end of the resync
    loop: "search for next read header marker and magic (it may be further
    if corruption in archive)". *)
Inductive locate_result : Type :=
| Located (magic : list byte) (d : cdico) (w : world)
| LocateFailed (out : header_out) (w : world)   (* return ERR_FATAL *)
| LocateUnbounded (w : world).                  (* [scan_bound] reached *)

Definition read_header_magic (ai : carchreader) (allowseek : bool) (w : world)
  : locate_result :=
  (* init *)
  let magic := repeat x00 FSA_SIZEOF_MAGIC in
  let fsid := FSA_FILESYSID_NULL in
  match dico_alloc with
  | None =>
      LocateFailed (mkHeaderOut magic None fsid)
                   (errprintf "dico_alloc() failed" w)
  | Some d =>
  let '(curpos, w) := sys_lseek (archfd ai) 0 SEEK_CUR w in
  if curpos <? 0
  then LocateFailed (mkHeaderOut magic (Some d) fsid)
         (sysprintf "lseek64() failed to get the current position in archive" w)
  else
  let '(res, got, w) := archreader_read_data ai (Z.of_nat FSA_SIZEOF_MAGIC) w in
  let magic := overwrite got magic in
  if negb (res =? 0)
  then LocateFailed (mkHeaderOut magic (Some d) fsid)
                    (msgprintf "cannot read header magic: res=%d" w)
  else
  (* we don't want to search for the magic if it's a volume header *)
  if negb (is_magic_valid magic) && negb allowseek
  then LocateFailed (mkHeaderOut magic (Some d) fsid)
         (errprintf "cannot read header magic: this is not a valid fsarchiver file, or it has been created with a different version." w)
  else
  match resync_scan (scan_bound w) ai curpos magic w with
  | None => LocateUnbounded w
  | Some sc =>
      if scan_found sc
      then Located (scan_magic sc) d (scan_world sc)
      else LocateFailed (mkHeaderOut (scan_magic sc) (Some d) fsid) (scan_world sc)
  end
  end.

(** The second part of archreader_read_header: the archive id, the
    filesystem id and the dictionary that follow the magic. *)
Definition read_header_fields (ai : carchreader) (magic : list byte) (d : cdico)
           (w : world) : outcome (errcode * header_out) :=
  let fsid := FSA_FILESYSID_NULL in
  (* read the archive id *)
  let '(res, temp32, w) := archreader_read_data ai 4 w in
  if negb (res =? 0)
  then Returned (ERR_FATAL, mkHeaderOut magic (Some d) fsid)
                (msgprintf "cannot read archive-id in header: res=%d" w)
  else
  let id := le_to_cpu temp32 in
  (* only check archive-id if it's known (when main header has been read) *)
  if negb (archid ai =? 0) && negb (id =? archid ai)
  then Returned (ERR_MINOR, mkHeaderOut magic (Some d) fsid)
         (errprintf "archive-id in header does not match: archid=[%.8x], expected=[%.8x]" w)
  else
  (* read the filesystem id *)
  let '(res, temp16, w) := archreader_read_data ai 2 w in
  if negb (res =? 0)
  then Returned (ERR_FATAL, mkHeaderOut magic (Some d) fsid)
                (msgprintf "cannot read filesystem-id in header: res=%d" w)
  else
  let fsid := le_to_cpu temp16 in
  (* read the dico of the header *)
  match archreader_read_dico ai d w with
  | Fault f w => Fault f w
  | Returned (res, d) w =>
      match res with
      | ERR_SUCCESS => Returned (ERR_SUCCESS, mkHeaderOut magic (Some d) fsid) w
      | _ => Returned (res, mkHeaderOut magic (Some d) fsid)
                      (msgprintf "imgdisk_read_dico() failed" w)
      end
  end.

Definition archreader_read_header (ai : carchreader) (allowseek : bool) (w : world)
  : outcome (errcode * header_out) :=
  match read_header_magic ai allowseek w with
  | LocateFailed out w => Returned (ERR_FATAL, out) w
  | LocateUnbounded w => Fault LoopBound w
  | Located magic d w => read_header_fields ai magic d w
  end.

(** calculates the volpath using basepath and curvol *)
Definition archreader_volpath (ai : carchreader) (w : world)
  : Z * carchreader * world :=
  let pathlen := String.length (basepath ai) in
  if (pathlen <? 4)%nat
  then (-1, ai, errprintf "archive has an invalid basepath: [%s]" w)
  else
    (* memset(volpath, 0, PATH_MAX); memcpy(volpath, basepath, pathlen-2) *)
    let vp := substring 0 (pathlen - 2) (basepath ai) in
    if curvol ai =? 0
    then
      match realpath (basepath ai) with
      | Some resolved => (0, set_volpath resolved ai, w)
      | None => (0, set_volpath (snprintf PATH_MAX (basepath ai)) ai, w)
      end
    else
      let temp :=
        if curvol ai <? 100
        then snprintf PATH_MAX (fmt_ld 2 (curvol ai))
        else snprintf PATH_MAX (fmt_ld 1 (curvol ai)) in
      (0, set_volpath (strlcat vp temp PATH_MAX) ai, w).

(** [curvol] is a [u32]: the increment wraps at 2^32. *)
Definition archreader_incvolume (ai : carchreader) (waitkeypress : bool) (w : world)
  : Z * carchreader * world :=
  archreader_volpath (set_curvol ((curvol ai + 1) mod 2 ^ 32) ai) w.

(** The checks of archreader_read_volheader on the header it has read:
    steps b., c. and d.  The error exits go through the label
    archio_read_volheader_error: dico_destroy(d), then [return ret].  The
    storage of the dictionary is not part of the [world]. *)
Definition volheader_checks (ai : carchreader) (magic : list byte)
           (od : option cdico) (w : world) : outcome (Z * carchreader) :=
  (* ---- b. check the magic is what we expected *)
  if negb (strncmp magic FSA_MAGIC_VOLH FSA_SIZEOF_MAGIC =? 0)
  then Returned (-1, ai)
                (errprintf "magic is not what we expected: found=[%s] and expected=[%s]" w)
  else
  match od with
  | None => Fault AssertFailed w
  | Some d =>
  match dico_get_u32 d 0 VOLUMEHEADKEY_ARCHID with
  | None =>
      Returned (-1, ai)
               (errprintf "cannot get VOLUMEHEADKEY_ARCHID from the volume header" w)
  | Some readid =>
  (* ---- c. check the archive id *)
  match (if archid ai =? 0
         then Some (set_archid readid ai)   (* archid not know: first volume *)
         else if negb (readid =? archid ai)
              then None                     (* archid known: not the first *)
              else Some ai) with
  | None =>
      Returned (-1, ai)
               (errprintf "wrong header id: found=%.8x and expected=%.8x" w)
  | Some ai =>
  (* ---- d. check the volnum *)
  match dico_get_u32 d 0 VOLUMEHEADKEY_VOLNUM with
  | None =>
      Returned (-1, ai)
               (errprintf "cannot get VOLUMEHEADKEY_VOLNUM from the volume header" w)
  | Some volnum =>
  if negb (volnum =? curvol ai)
  then Returned (-1, ai)
                (errprintf "wrong volume number in [%s]: volnum is %d and we need volnum %d" w)
  else
  (* ---- d. check the the file format *)
  match dico_get_data d 0 VOLUMEHEADKEY_FILEFORMATVER FSA_MAX_FILEFMTLEN with
  | None =>
      Returned (-1, ai)
               (errprintf "cannot find VOLUMEHEADKEY_FILEFORMATVER in main-header" w)
  | Some fmt =>
  match (if byte_val (cchar (filefmt ai)) =? 0
         then Some (set_filefmt (overwrite (firstn FSA_MAX_FILEFMTLEN fmt)
                                           (filefmt ai)) ai)
         else if negb (strncmp fmt (filefmt ai) FSA_MAX_FILEFMTLEN =? 0)
              then None
              else Some ai) with
  | None =>
      Returned (-1, ai)
         (errprintf "The current version of the program is [%s], and it's based on format [%s]"
         (errprintf "It has been created with fsarchiver [%s], you should extrat the archive using that version."
         (errprintf "This archive is based on a different file format: [%s]. Cannot continue." w)))
  | Some ai =>
  match dico_get_data d 0 VOLUMEHEADKEY_PROGVERCREAT FSA_MAX_PROGVERLEN with
  | None =>
      Returned (-1, ai)
               (errprintf "cannot find VOLUMEHEADKEY_PROGVERCREAT in main-header" w)
  | Some ver =>
  let ai :=
    if byte_val (cchar (creatver ai)) =? 0
    then set_creatver (overwrite (firstn FSA_MAX_PROGVERLEN ver) (creatver ai)) ai
    else ai in
  Returned (0, ai) w
  end end end end end end end.

Definition archreader_read_volheader (ai : carchreader) (w : world)
  : outcome (Z * carchreader) :=
  (* ---- a. read header from archive file *)
  match archreader_read_header ai false w with
  | Fault f w => Fault f w
  | Returned (res, out) w =>
      match res with
      | ERR_MINOR | ERR_FATAL =>
          Returned (-1, ai)
            (errprintf "archreader_read_header() failed to read the archive header" w)
      | ERR_SUCCESS => volheader_checks ai (h_magic out) (h_dico out) w
      end
  end.

Definition set_blkdata (p : option (list byte)) (b : blockinfo) : blockinfo :=
  mkBlock p (blkrealsize b) (blkoffset b) (blkarcsum b) (blkcompalgo b)
          (blkcryptalgo b) (blkarsize b) (blkcompsize b).

(** The out-parameters of archreader_read_block: [*sumok] (-1 unknown,
    1 true, 0 false) and [*blkinfo]. *)
Record block_out : Type := mkBlockOut {
  b_sumok : Z;
  b_info : blockinfo
}.

Definition archreader_read_block (ai : carchreader) (blkdico : cdico)
           (blkinfo : blockinfo) (skip : bool) (w : world)
  : Z * block_out * world :=
  let blkinfo := memset_blkinfo_head blkinfo in
  let sumok := -1 in
  match dico_get_u64 blkdico 0 BLOCKHEADITEMKEY_BLOCKOFFSET with
  | None => (-1, mkBlockOut sumok blkinfo,
             msgprintf "cannot get blockoffset from block-header" w)
  | Some blockoffset =>
  match dico_get_u32 blkdico 0 BLOCKHEADITEMKEY_REALSIZE with
  | None => (-1, mkBlockOut sumok blkinfo,
             msgprintf "cannot get blocksize from block-header" w)
  | Some curblocksize =>
  if FSA_MAX_BLKSIZE <? curblocksize
  then (-1, mkBlockOut sumok blkinfo,
        msgprintf "cannot get blocksize from block-header" w)
  else
  match dico_get_u16 blkdico 0 BLOCKHEADITEMKEY_COMPRESSALGO with
  | None => (-1, mkBlockOut sumok blkinfo,
             msgprintf "cannot get BLOCKHEADITEMKEY_COMPRESSALGO from block-header" w)
  | Some compalgo =>
  match dico_get_u16 blkdico 0 BLOCKHEADITEMKEY_ENCRYPTALGO with
  | None => (-1, mkBlockOut sumok blkinfo,
             msgprintf "cannot get BLOCKHEADITEMKEY_ENCRYPTALGO from block-header" w)
  | Some cryptalgo =>
  match dico_get_u32 blkdico 0 BLOCKHEADITEMKEY_ARSIZE with
  | None => (-1, mkBlockOut sumok blkinfo,
             msgprintf "cannot get BLOCKHEADITEMKEY_ARSIZE from block-header" w)
  | Some finalsize =>
  match dico_get_u32 blkdico 0 BLOCKHEADITEMKEY_COMPSIZE with
  | None => (-1, mkBlockOut sumok blkinfo,
             msgprintf "cannot get BLOCKHEADITEMKEY_COMPSIZE from block-header" w)
  | Some compsize =>
  match dico_get_u32 blkdico 0 BLOCKHEADITEMKEY_ARCSUM with
  | None => (-1, mkBlockOut sumok blkinfo,
             msgprintf "cannot get BLOCKHEADITEMKEY_ARCSUM from block-header" w)
  | Some arblockcsumorig =>
  if skip
  then
    (* the main thread does not need that block *)
    let '(r, w) := sys_lseek (archfd ai) finalsize SEEK_CUR w in
    if r <? 0
    then (-1, mkBlockOut sumok blkinfo,
          sysprintf "cannot skip block (finalsize=%ld) failed" w)
    else (0, mkBlockOut sumok blkinfo, w)
  else
  (* ---- allocate memory *)
  let '(ok, w) := sys_malloc finalsize w in
  if negb ok
  then (-1, mkBlockOut sumok blkinfo,
        errprintf "cannot allocate block: malloc(%d) failed" w)
  else
  let '(got, buffer, w) := sys_read (archfd ai) finalsize w in
  if negb (got =? finalsize)
  then (-1, mkBlockOut sumok blkinfo,
        sys_free finalsize
                 (sysprintf "cannot read block (finalsize=%ld) failed" w))
  else
  (* prepare blkinfo for the queue *)
  let blkinfo :=
    mkBlock (Some buffer) curblocksize blockoffset arblockcsumorig
            compalgo cryptalgo finalsize compsize in
  (* ---- checksum *)
  let arblockcsumcalc := fletcher32 buffer in
  if negb (arblockcsumcalc =? arblockcsumorig)
  then
    let w := errprintf "block is corrupt at offset=%ld, blksize=%ld" w in
    let w := sys_free finalsize w in
    let '(ok, w) := sys_malloc curblocksize w in
    if negb ok
    then (-1, mkBlockOut sumok (set_blkdata None blkinfo),
          errprintf "cannot allocate block: malloc(%d) failed" w)
    else
      let blkinfo :=
        set_blkdata (Some (repeat x00 (Z.to_nat curblocksize))) blkinfo in
      let sumok := 0 in
      (* go to the beginning of the corrupted contents so that the next
         header is searched here *)
      let '(r, w) := sys_lseek (archfd ai) (- finalsize) SEEK_CUR w in
      let w := if r <? 0 then errprintf "lseek64() failed" w else w in
      (0, mkBlockOut sumok blkinfo, w)
  else
    (* no corruption detected *)
    (0, mkBlockOut 1 blkinfo, w)
  end end end end end end end.

End Archreader.

(** ** Notions used to state the properties *)

(** The bytes [bs] come next in the volume. *)
Definition pending (w : world) (bs : list byte) : Prop :=
  0 <= fpos w /\
  exists rest, skipn (Z.to_nat (fpos w)) (file w) = bs ++ rest.



(** The offsets given to lseek64(SEEK_SET), in the order of the calls,
    among the events [evs] (most recent first). *)
Fixpoint seek_targets (evs : list event) : list Z :=
  match evs with
  | [] => []
  | EvSeekSet off :: evs' => seek_targets evs' ++ [off]
  | _ :: evs' => seek_targets evs'
  end.

(** The offsets [p], [p+1], ..., [p+n-1]. *)
Fixpoint offsets_from (p : Z) (n : nat) : list Z :=
  match n with
  | O => []
  | S n' => p :: offsets_from (p + 1) n'
  end.

(** The number a string of decimal digits denotes. *)
Fixpoint dec_value (s : string) : Z :=
  match s with
  | EmptyString => 0
  | String c s' =>
      (Z.of_nat (nat_of_ascii c) - 48) * 10 ^ Z.of_nat (String.length s')
      + dec_value s'
  end.

Fixpoint all_digits (s : string) : bool :=
  match s with
  | EmptyString => true
  | String c s' =>
      (48 <=? nat_of_ascii c)%nat && (nat_of_ascii c <=? 57)%nat && all_digits s'
  end.

(** The base path without its last two characters. *)
Definition drop_last2 (s : string) : string :=
  substring 0 (String.length s - 2) s.

(** The messages of the two checks of the archive id. *)
Definition id_mismatch_event (e : event) : bool :=
  match e with
  | EvErr msg =>
      String.eqb msg "archive-id in header does not match: archid=[%.8x], expected=[%.8x]"
      || String.eqb msg "wrong header id: found=%.8x and expected=%.8x"
  | _ => false
  end.

Definition id_mismatch_reported (w : world) : bool :=
  existsb id_mismatch_event (log w).

Definition outcome_world {A : Type} (o : outcome A) : world :=
  match o with
  | Returned _ w => w
  | Fault _ w => w
  end.

Definition locate_world (r : locate_result) : world :=
  match r with
  | Located _ _ w => w
  | LocateFailed _ w => w
  | LocateUnbounded w => w
  end.

Section Notions.
Context {E : Externals}.

(** The bytes [g] in front of [marker] are garbage: no window of the
    length of a magic that starts inside [g] is a recognised magic. *)
Definition garbage (g marker : list byte) : Prop :=
  forall i : nat,
    (i < length g)%nat ->
    is_magic_valid (firstn FSA_SIZEOF_MAGIC (skipn i (g ++ marker))) = false.


(** The block header holds the seven fields archreader_read_block gets
    from it, the real size within FSA_MAX_BLKSIZE. *)
Definition block_fields (d : cdico)
           (blockoffset curblocksize compalgo cryptalgo finalsize compsize arcsum : Z)
  : Prop :=
  dico_get_u64 d 0 BLOCKHEADITEMKEY_BLOCKOFFSET = Some blockoffset
  /\ dico_get_u32 d 0 BLOCKHEADITEMKEY_REALSIZE = Some curblocksize
  /\ curblocksize <= FSA_MAX_BLKSIZE
  /\ dico_get_u16 d 0 BLOCKHEADITEMKEY_COMPRESSALGO = Some compalgo
  /\ dico_get_u16 d 0 BLOCKHEADITEMKEY_ENCRYPTALGO = Some cryptalgo
  /\ dico_get_u32 d 0 BLOCKHEADITEMKEY_ARSIZE = Some finalsize
  /\ dico_get_u32 d 0 BLOCKHEADITEMKEY_COMPSIZE = Some compsize
  /\ dico_get_u32 d 0 BLOCKHEADITEMKEY_ARCSUM = Some arcsum.

End Notions.

(** ** An instance of [Externals]

    Values for the parts of the program that are not in archreader.c, to
    run the model on concrete volumes.  The length of the magic and the
    shape of the dictionary follow the description of the wire format; the
    markers, keys and limits are sample values.  No theorem about
    archreader.c depends on them. *)
Module Reference.

Definition bytes_of (s : string) : list byte := list_byte_of_string s.

Definition magic_volh : list byte := bytes_of "FsA0VoLh".
Definition magic_blkh : list byte := bytes_of "FsA0BlKh".

Definition list_byte_eqb (a b : list byte) : bool :=
  if list_eq_dec Byte.byte_eq_dec a b then true else false.

Definition magic_valid (m : list byte) : bool :=
  list_byte_eqb m magic_volh || list_byte_eqb m magic_blkh.

Fixpoint fletcher_sums (bs : list byte) (sum1 sum2 : Z) : Z * Z :=
  match bs with
  | [] => (sum1, sum2)
  | b :: bs' =>
      let sum1 := (sum1 + byte_val b) mod 65535 in
      fletcher_sums bs' sum1 ((sum2 + sum1) mod 65535)
  end.

(** Modelled from the spec: fletcher32 of common.c, which is not among the
    sources: a 32-bit Fletcher checksum over the bytes, two running sums
    kept in 16 bits each. *)
Definition fletcher32_ref (bs : list byte) : Z :=
  let '(sum1, sum2) := fletcher_sums bs 0 0 in
  Z.lor (Z.shiftl sum2 16) sum1.

Fixpoint dico_find (d : cdico) (section key : Z) : option dicoitem :=
  match d with
  | [] => None
  | it :: d' =>
      if (item_section it =? section) && (item_key it =? key)
      then Some it
      else dico_find d' section key
  end.

(** Modelled from the spec: the typed accessors of dico.c, which is not
    among the sources: get the value of the record with this (section, key),
    decoded as a little-endian integer of the width asked for. *)
Definition dico_get_uint (width : Z) (d : cdico) (section key : Z) : option Z :=
  match dico_find d section key with
  | Some it => if item_size it =? width then Some (le_to_cpu (item_data it)) else None
  | None => None
  end.

(** Modelled from the spec: dico_get_data of dico.c: the bytes of the record
    are copied to the front of the caller's array, here one that held zeros
    before. *)
Definition dico_get_data_ref (d : cdico) (section key : Z) (maxsize : nat)
  : option (list byte) :=
  match dico_find d section key with
  | Some it =>
      if (length (item_data it) <=? maxsize)%nat
      then Some (overwrite (item_data it) (repeat x00 maxsize))
      else None
  | None => None
  end.

(** Modelled from the spec: dico_add_generic of dico.c: the record is
    appended; the dictionary is ordered. *)
Definition dico_add_generic_ref (d : cdico) (section key : Z) (data : list byte)
           (size type : Z) : option cdico :=
  Some (d ++ [mkItem type section key size data]).

Definition externals : Externals := {|
  FSA_SIZEOF_MAGIC := 8;
  FSA_SIZEOF_MAGIC_pos := Nat.lt_0_succ 7;
  FSA_MAGIC_VOLH := magic_volh;
  FSA_FILESYSID_NULL := 65535;
  FSA_MAX_BLKSIZE := 921600;
  FSA_MAX_FILEFMTLEN := 32;
  FSA_MAX_PROGVERLEN := 32;
  ENCRYPT_NULL := 0;
  COMPRESS_NULL := 0;
  PATH_MAX := 4096;
  VOLUMEHEADKEY_ARCHID := 1;
  VOLUMEHEADKEY_VOLNUM := 0;
  VOLUMEHEADKEY_FILEFORMATVER := 2;
  VOLUMEHEADKEY_PROGVERCREAT := 3;
  BLOCKHEADITEMKEY_BLOCKOFFSET := 1;
  BLOCKHEADITEMKEY_REALSIZE := 0;
  BLOCKHEADITEMKEY_COMPRESSALGO := 4;
  BLOCKHEADITEMKEY_ENCRYPTALGO := 5;
  BLOCKHEADITEMKEY_ARSIZE := 6;
  BLOCKHEADITEMKEY_COMPSIZE := 7;
  BLOCKHEADITEMKEY_ARCSUM := 3;
  is_magic_valid := magic_valid;
  fletcher32 := fletcher32_ref;
  dico_alloc := Some [];
  dico_add_generic := dico_add_generic_ref;
  dico_get_u16 := dico_get_uint 2;
  dico_get_u32 := dico_get_uint 4;
  dico_get_u64 := dico_get_uint 8;
  dico_get_data := dico_get_data_ref;
  realpath := fun path => Some (String "/"%char path);
  memset_blkinfo_head := fun b =>
    mkBlock None (blkrealsize b) (blkoffset b) (blkarcsum b) (blkcompalgo b)
            (blkcryptalgo b) (blkarsize b) (blkcompsize b)
|}.

(** Writers of the wire format, to build volumes for the model. *)
Definition enc_item (it : dicoitem) : list byte :=
  cpu_to_le 1 (item_type it) ++ cpu_to_le 1 (item_section it)
  ++ cpu_to_le 2 (item_key it) ++ cpu_to_le 2 (item_size it) ++ item_data it.

Definition enc_region (d : cdico) : list byte :=
  cpu_to_le 2 (Z.of_nat (length d)) ++ concat (map enc_item d).

(** A region with its length in front and its checksum behind. *)
Definition frame_len (region : list byte) : list byte :=
  cpu_to_le 2 (Z.of_nat (length region)).
Definition frame_sum (region : list byte) : list byte :=
  cpu_to_le 4 (fletcher32_ref region).
Definition frame (region : list byte) : list byte :=
  frame_len region ++ region ++ frame_sum region.

Definition enc_dico (d : cdico) : list byte := frame (enc_region d).

Definition enc_header (magic : list byte) (id fsid : Z) (d : cdico) : list byte :=
  magic ++ cpu_to_le 4 id ++ cpu_to_le 2 fsid ++ enc_dico d.

Definition item_u32 (key v : Z) : dicoitem := mkItem 3 0 key 4 (cpu_to_le 4 v).
Definition item_u16 (key v : Z) : dicoitem := mkItem 2 0 key 2 (cpu_to_le 2 v).
Definition item_u64 (key v : Z) : dicoitem := mkItem 4 0 key 8 (cpu_to_le 8 v).
Definition item_str (key : Z) (s : string) : dicoitem :=
  let bs := bytes_of s ++ [x00] in
  mkItem 5 0 key (Z.of_nat (length bs)) bs.

Definition volhead_dico (id volnum : Z) (fmt ver : string) : cdico :=
  [ item_u32 1 id; item_u32 0 volnum; item_str 2 fmt; item_str 3 ver ].

Definition block_dico (offset realsize arsize arcsum : Z) : cdico :=
  [ item_u64 1 offset; item_u32 0 realsize; item_u16 4 0; item_u16 5 0;
    item_u32 6 arsize; item_u32 7 arsize; item_u32 3 arcsum ].

(** A reader as archreader_init leaves it, with the volume open. *)
Definition reader (id vol : Z) (base : string) : carchreader :=
  mkReader 3 id vol 0 0 (-1) (-1) base EmptyString
           (repeat x00 32) (repeat x00 32).

Definition volume (bs : list byte) (pos : Z) : world := mkWorld bs pos 1048576 [].

(** The header of volume 0 of the archive with identity 7, and the header
    of a block of that archive behind three bytes of garbage. *)
Definition volume_header : list byte :=
  enc_header magic_volh 7 65535 (volhead_dico 7 0 "FsArCh_002" "0.6.8").
Definition block_header : list byte :=
  enc_header magic_blkh 7 0 (block_dico 0 4 4 0).
Definition three_bytes : list byte := [x01; x02; x03].
Definition damaged : list byte := three_bytes ++ block_header.

(** A block of four bytes; the block header stores a checksum the
    payload does not have. *)
Definition payload : list byte := [x0a; x0b; x0c; x0d].
Definition corrupt_block_dico : cdico :=
  block_dico 4096 6 4 (fletcher32_ref payload + 1).
Definition some_blockinfo : blockinfo := mkBlock (Some [xff]) 1 2 3 4 5 6 7.

(** The session after volume 0 of the archive with identity 7 has been read
    and the reader has moved on to volume 1. *)
Definition filefmt_002 : list byte :=
  overwrite (bytes_of "FsArCh_002") (repeat x00 32).
Definition reader_vol1 : carchreader :=
  mkReader 3 7 1 0 0 (-1) (-1) "backup.fsa" "backup.f01"
           filefmt_002 (overwrite (bytes_of "0.6.8") (repeat x00 32)).

(** Headers offered as volume 1: of another archive (identity 8 in the
    dictionary), of volume 5 of the archive, and of another file format. *)
Definition header_other_id : list byte :=
  enc_header magic_volh 7 65535 (volhead_dico 8 1 "FsArCh_002" "0.6.8").
Definition header_vol5 : list byte :=
  enc_header magic_volh 7 65535 (volhead_dico 7 5 "FsArCh_002" "0.6.8").
(** A header that reports the identity 0, and one that reports 8. *)
Definition header_id0 : list byte :=
  enc_header magic_volh 0 65535 (volhead_dico 0 0 "FsArCh_002" "0.6.8").
Definition header_id8_vol1 : list byte :=
  enc_header magic_volh 8 65535 (volhead_dico 8 1 "FsArCh_002" "0.6.8").

(** The session after volume 0 of an archive whose header reports the
    identity 0, the reader on volume 1. *)
Definition reader_id0_vol1 : carchreader :=
  mkReader 3 0 1 0 0 (-1) (-1) "backup.fsa" "backup.f01"
           filefmt_002 (overwrite (bytes_of "0.6.8") (repeat x00 32)).

(** The world after archreader_read_header has run on a volume that holds
    the bytes [bs]. *)
Definition after_header (ai : carchreader) (bs : list byte) : world :=
  outcome_world (@archreader_read_header externals ai false (volume bs 0)).

(** The byte at index [i] with all its bits inverted. *)
Fixpoint flip_at (i : nat) (bs : list byte) : list byte :=
  match bs, i with
  | [], _ => []
  | b :: bs', O => byte_of_Z (255 - byte_val b) :: bs'
  | b :: bs', S i' => b :: flip_at i' bs'
  end.

(** The region of a volume header, sound and with one byte flipped; the
    checksum in the frame is the one of the sound region. *)
Definition sound_region : list byte :=
  enc_region (volhead_dico 7 0 "FsArCh_002" "0.6.8").
Definition flipped_region : list byte := flip_at 9 sound_region.
Definition flipped_frame : list byte :=
  frame_len sound_region ++ flipped_region ++ frame_sum sound_region.


End Reference.

(** ** Notions for the properties of the whole file *)

(** The bytes [bs] are all that is left of the volume. *)
Definition remaining (w : world) (bs : list byte) : Prop :=
  0 <= fpos w /\ skipn (Z.to_nat (fpos w)) (file w) = bs.

(** A record whose fields have the width the wire format gives them and
    whose data has the size it declares. *)
Definition item_wellformed (it : dicoitem) : Prop :=
  0 <= item_type it < 256
  /\ 0 <= item_section it < 256
  /\ 0 <= item_key it < 65536
  /\ 0 <= item_size it < 65536
  /\ Z.of_nat (length (item_data it)) = item_size it.

(** A record as archreader_read_dico reads it: type, section, key and
    size in little-endian order, then the data. *)
Definition item_bytes (it : dicoitem) : list byte :=
  cpu_to_le 1 (item_type it) ++ cpu_to_le 1 (item_section it)
  ++ cpu_to_le 2 (item_key it) ++ cpu_to_le 2 (item_size it) ++ item_data it.

(** A region as archreader_read_dico reads it: the number of records,
    the records, and bytes behind them that no record claims. *)
Definition region_of (items : list dicoitem) (slack : list byte) : list byte :=
  cpu_to_le 2 (Z.of_nat (length items)) ++ concat (map item_bytes items) ++ slack.

Section Layout.
Context {E : Externals}.

(** The calls of dico_add_generic for the records [items], in order, up to
    the first that fails: whether all succeeded, and the dictionary
    reached. *)
Fixpoint add_items (d : cdico) (items : list dicoitem) : bool * cdico :=
  match items with
  | [] => (true, d)
  | it :: rest =>
      match dico_add_generic d (item_section it) (item_key it) (item_data it)
                             (item_size it) (item_type it) with
      | None => (false, d)
      | Some d' => add_items d' rest
      end
  end.

(** No recognised magic starts at or behind the offset of the volume. *)
Definition no_marker_ahead (w : world) : Prop :=
  forall off : nat,
    (Z.to_nat (fpos w) <= off)%nat ->
    (off + FSA_SIZEOF_MAGIC <= length (file w))%nat ->
    is_magic_valid (firstn FSA_SIZEOF_MAGIC (skipn off (file w))) = false.

(** [n] calls of archreader_incvolume in a row, up to the first that does
    not return 0. *)
Fixpoint incvolume_times (n : nat) (ai : carchreader) (w : world)
  : Z * carchreader * world :=
  match n with
  | O => (0, ai, w)
  | S n' =>
      let '(r, ai1, w1) := archreader_incvolume ai false w in
      if r =? 0 then incvolume_times n' ai1 w1 else (r, ai1, w1)
  end.

(** The conversion archreader_volpath uses for the volume number [k]:
    "%.2ld" below 100, "%ld" from 100 on. *)
Definition volnum_digits (k : Z) : string :=
  fmt_ld (if k <? 100 then 2%nat else 1%nat) k.

End Layout.

(** ** Volumes for the properties of the whole file *)
Module Samples.

(** A region of two records with two bytes behind them. *)
Definition two_items : list dicoitem :=
  [ Reference.item_u32 1 7; Reference.item_str 2 "FsArCh_002" ].
Definition slack_region : list byte := region_of two_items [xaa; xbb].

(** A frame cut off inside its region, and one cut off inside its
    checksum. *)
Definition cut_in_region : list byte :=
  firstn 10 (Reference.frame Reference.sound_region).
Definition cut_in_checksum : list byte :=
  firstn 55 (Reference.frame Reference.sound_region).

(** A dictionary module that refuses a second record with the same key. *)
Definition add_unique (d : cdico) (section key : Z) (data : list byte)
           (size type : Z) : option cdico :=
  match Reference.dico_find d section key with
  | Some _ => None
  | None => Some (d ++ [mkItem type section key size data])
  end.

Definition externals_unique : Externals := {|
  FSA_SIZEOF_MAGIC := 8;
  FSA_SIZEOF_MAGIC_pos := Nat.lt_0_succ 7;
  FSA_MAGIC_VOLH := Reference.magic_volh;
  FSA_FILESYSID_NULL := 65535;
  FSA_MAX_BLKSIZE := 921600;
  FSA_MAX_FILEFMTLEN := 32;
  FSA_MAX_PROGVERLEN := 32;
  ENCRYPT_NULL := 0;
  COMPRESS_NULL := 0;
  PATH_MAX := 4096;
  VOLUMEHEADKEY_ARCHID := 1;
  VOLUMEHEADKEY_VOLNUM := 0;
  VOLUMEHEADKEY_FILEFORMATVER := 2;
  VOLUMEHEADKEY_PROGVERCREAT := 3;
  BLOCKHEADITEMKEY_BLOCKOFFSET := 1;
  BLOCKHEADITEMKEY_REALSIZE := 0;
  BLOCKHEADITEMKEY_COMPRESSALGO := 4;
  BLOCKHEADITEMKEY_ENCRYPTALGO := 5;
  BLOCKHEADITEMKEY_ARSIZE := 6;
  BLOCKHEADITEMKEY_COMPSIZE := 7;
  BLOCKHEADITEMKEY_ARCSUM := 3;
  is_magic_valid := Reference.magic_valid;
  fletcher32 := Reference.fletcher32_ref;
  dico_alloc := Some [];
  dico_add_generic := add_unique;
  dico_get_u16 := Reference.dico_get_uint 2;
  dico_get_u32 := Reference.dico_get_uint 4;
  dico_get_u64 := Reference.dico_get_uint 8;
  dico_get_data := Reference.dico_get_data_ref;
  realpath := fun path => None;
  memset_blkinfo_head := fun b => b
|}.

(** Two records with the same key. *)
Definition twice : list dicoitem :=
  [ Reference.item_u32 1 7; Reference.item_u32 1 8 ].

(** A volume that holds one recognised marker nowhere. *)
Definition no_marker : list byte :=
  [x01; x02; x03; x04; x05; x06; x07; x08; x09; x0a; x0b].

(** A block of four bytes with the checksum it has. *)
Definition sound_block_dico : cdico :=
  Reference.block_dico 4096 6 4 (Reference.fletcher32_ref Reference.payload).
(** A block header that announces more than FSA_MAX_BLKSIZE. *)
Definition huge_block_dico : cdico :=
  Reference.block_dico 0 921601 4 0.
(** A block header without its checksum entry. *)
Definition partial_block_dico : cdico :=
  [ Reference.item_u64 1 0; Reference.item_u32 0 6 ].

(** A corrupt block of four bytes, and behind it the header of the next
    block. *)
Definition corrupt_then_header : list byte :=
  Reference.payload ++ Reference.block_header.

(** The header of volume 1 of the archive with identity 7. *)
Definition header_vol1 : list byte :=
  Reference.enc_header Reference.magic_volh 7 65535
    (Reference.volhead_dico 7 1 "FsArCh_002" "0.6.8").

(** The header of volume 2 of an archive with identity 9. *)
Definition header_id9_vol2 : list byte :=
  Reference.enc_header Reference.magic_volh 9 65535
    (Reference.volhead_dico 9 2 "FsArCh_002" "0.6.8").


(** A build whose paths hold 11 characters. *)
Definition externals_short : Externals := {|
  FSA_SIZEOF_MAGIC := 8;
  FSA_SIZEOF_MAGIC_pos := Nat.lt_0_succ 7;
  FSA_MAGIC_VOLH := Reference.magic_volh;
  FSA_FILESYSID_NULL := 65535;
  FSA_MAX_BLKSIZE := 921600;
  FSA_MAX_FILEFMTLEN := 32;
  FSA_MAX_PROGVERLEN := 32;
  ENCRYPT_NULL := 0;
  COMPRESS_NULL := 0;
  PATH_MAX := 12;
  VOLUMEHEADKEY_ARCHID := 1;
  VOLUMEHEADKEY_VOLNUM := 0;
  VOLUMEHEADKEY_FILEFORMATVER := 2;
  VOLUMEHEADKEY_PROGVERCREAT := 3;
  BLOCKHEADITEMKEY_BLOCKOFFSET := 1;
  BLOCKHEADITEMKEY_REALSIZE := 0;
  BLOCKHEADITEMKEY_COMPRESSALGO := 4;
  BLOCKHEADITEMKEY_ENCRYPTALGO := 5;
  BLOCKHEADITEMKEY_ARSIZE := 6;
  BLOCKHEADITEMKEY_COMPSIZE := 7;
  BLOCKHEADITEMKEY_ARCSUM := 3;
  is_magic_valid := Reference.magic_valid;
  fletcher32 := Reference.fletcher32_ref;
  dico_alloc := Some [];
  dico_add_generic := Reference.dico_add_generic_ref;
  dico_get_u16 := Reference.dico_get_uint 2;
  dico_get_u32 := Reference.dico_get_uint 4;
  dico_get_u64 := Reference.dico_get_uint 8;
  dico_get_data := Reference.dico_get_data_ref;
  realpath := fun path => None;
  memset_blkinfo_head := fun b => b
|}.

End Samples.

(** * Properties *)

(** ** The system calls of the model *)

Lemma skipn_skipn_add {A : Type} (n m : nat) (l : list A) :
  skipn n (skipn m l) = skipn (m + n) l.
Proof.
  revert l; induction m as [|m IH]; intros l; simpl.
  - reflexivity.
  - destruct l as [|x l]; simpl.
    + now rewrite skipn_nil.
    + apply IH.
Qed.

Lemma pending_nonneg (w : world) (bs : list byte) : pending w bs -> 0 <= fpos w.
Proof. now intros [H _]. Qed.

Lemma pending_app_l (w : world) (a b : list byte) :
  pending w (a ++ b) -> pending w a.
Proof.
  intros [H [rest Hr]]; split; [assumption|].
  exists (b ++ rest). now rewrite Hr, app_assoc.
Qed.

(** A read of bytes that are there returns all of them and moves the
    offset behind them. *)
Lemma sys_read_pending (fd : Z) (w : world) (a b : list byte) :
  0 <= fd ->
  pending w (a ++ b) ->
  let n := Z.of_nat (length a) in
  let w' := mkWorld (file w) (fpos w + n) (heap w) (EvRead n n :: log w) in
  sys_read fd n w = (n, a, w') /\ pending w' b.
Proof.
  intros Hfd [Hpos [rest Hr]] n w'.
  unfold sys_read.
  destruct (fd <? 0) eqn:F; [apply Z.ltb_lt in F; lia|].
  subst n. rewrite Nat2Z.id, Hr, <- app_assoc.
  rewrite firstn_app, firstn_all, Nat.sub_diag, firstn_O, app_nil_r.
  split; [reflexivity|].
  split; [simpl; lia|].
  exists rest. subst w'. cbn [fpos file].
  rewrite Z2Nat.inj_add, Nat2Z.id by lia.
  rewrite <- skipn_skipn_add, Hr, <- app_assoc.
  rewrite skipn_app, skipn_all, Nat.sub_diag. reflexivity.
Qed.

Lemma read_data_pending {E : Externals} (ai : carchreader) (w : world)
      (a b : list byte) :
  0 <= archfd ai ->
  pending w (a ++ b) ->
  let n := Z.of_nat (length a) in
  let w' := mkWorld (file w) (fpos w + n) (heap w) (EvRead n n :: log w) in
  archreader_read_data ai n w = (0, a, w') /\ pending w' b.
Proof.
  intros Hfd Hp n w'.
  destruct (sys_read_pending (archfd ai) w a b Hfd Hp) as [Hrd Hp'].
  unfold archreader_read_data. fold n in Hrd. rewrite Hrd.
  rewrite Z.eqb_refl. cbn. split; [reflexivity | exact Hp'].
Qed.

Lemma pending_same_stream (w w' : world) (bs : list byte) :
  file w' = file w -> fpos w' = fpos w -> pending w bs -> pending w' bs.
Proof. unfold pending. intros -> ->. trivial. Qed.

(** ** archreader_read_dico *)

Section ReadDico.
Context {E : Externals}.

(** The header of a dictionary as it lies in the volume: the two bytes of
    the length, the region of that length, the four bytes of the checksum.
    Reading it up to the comparison of the checksums leaves the region in
    the buffer. *)
Lemma read_dico_prologue (ai : carchreader) (d : cdico) (w : world)
      (len region sum : list byte) :
  0 <= archfd ai ->
  pending w (len ++ region ++ sum) ->
  length len = 2%nat -> length sum = 4%nat ->
  Z.of_nat (length region) = le_to_cpu len ->
  le_to_cpu len <= heap w ->
  let L := le_to_cpu len in
  let w4 := mkWorld (file w) (fpos w + 2 + L + 4) (heap w - L)
              (EvRead 4 4 :: EvRead L L :: EvMalloc L :: EvRead 2 2 :: log w) in
  archreader_read_dico ai d w =
    if negb (fletcher32 region =? le_to_cpu sum)
    then Returned (ERR_MINOR, d)
                  (sys_free L (errprintf "bad checksum for header" w4))
    else
      match buf_get region 0 2 with
      | None => Fault OutOfBounds w4
      | Some temp16 =>
          match read_items (Z.to_nat (le_to_cpu temp16)) region 2 d with
          | ItemsFault _ => Fault OutOfBounds w4
          | ItemsFailed d' => Returned (ERR_FATAL, d') w4
          | ItemsDone d' => Returned (ERR_SUCCESS, d') (sys_free L w4)
          end
      end.
Proof.
  intros Hfd Hp Hlen Hsum HL Hheap L w4.
  unfold archreader_read_dico.
  destruct (read_data_pending ai w len (region ++ sum) Hfd Hp) as [R1 P1].
  rewrite Hlen in R1, P1. change (Z.of_nat 2) with 2 in R1, P1.
  rewrite R1. cbn [negb Z.eqb]. fold L.
  unfold sys_malloc. cbn [heap file fpos log].
  destruct (L <=? heap w) eqn:Hm; [|apply Z.leb_gt in Hm; subst L; lia].
  cbn [negb].
  match type of P1 with pending ?w1 _ =>
    assert (P1' : pending (mkWorld (file w) (fpos w + 2) (heap w - L)
                                   (EvMalloc L :: EvRead 2 2 :: log w))
                          (region ++ sum))
      by (apply (pending_same_stream w1); [reflexivity | reflexivity | exact P1])
  end.
  destruct (read_data_pending ai _ region sum Hfd P1') as [R2 P2].
  rewrite HL in R2, P2. fold L in R2, P2. rewrite R2. cbn [negb Z.eqb].
  cbn [file fpos heap log] in *.
  rewrite <- (app_nil_r sum) in P2.
  destruct (read_data_pending ai _ sum [] Hfd P2) as [R3 _].
  rewrite Hsum in R3. change (Z.of_nat 4) with 4 in R3.
  rewrite R3. cbn [negb Z.eqb file fpos heap log].
  reflexivity.
Qed.

(** The only fault of archreader_read_dico is a read outside the buffer. *)
Lemma read_dico_fault_kind (ai : carchreader) (d : cdico) (w w' : world) (f : fault) :
  archreader_read_dico ai d w = Fault f w' -> f = OutOfBounds.
Proof.
  unfold archreader_read_dico.
  destruct (archreader_read_data ai 2 w) as [[r1 b1] w1].
  destruct (negb (r1 =? 0)); [discriminate|].
  destruct (sys_malloc (le_to_cpu b1) w1) as [ok w2].
  destruct (negb ok); [discriminate|].
  destruct (archreader_read_data ai (le_to_cpu b1) w2) as [[r2 b2] w3].
  destruct (negb (r2 =? 0)); [discriminate|].
  destruct (archreader_read_data ai 4 w3) as [[r3 b3] w4].
  destruct (negb (r3 =? 0)); [discriminate|].
  destruct (negb (fletcher32 b2 =? le_to_cpu b3)); [discriminate|].
  destruct (buf_get b2 0 2) as [c|]; [|congruence].
  destruct (read_items _ b2 2 d); congruence.
Qed.

(** *** C5 *)

(** C5.  A dictionary header whose region of [L] bytes does not match the
    checksum stored after it: archreader_read_dico frees the buffer and
    returns ERR_MINOR.  The dictionary is handed back as it was given (no
    record is parsed or added), the volume is read to the end of the
    checksum, the allocator holds what it held before, and the run has no
    fault. *)
Theorem read_dico_bad_checksum_minor :
  forall (ai : carchreader) (d : cdico) (w : world) (len region sum : list byte),
    0 <= archfd ai ->
    pending w (len ++ region ++ sum) ->
    length len = 2%nat -> length sum = 4%nat ->
    Z.of_nat (length region) = le_to_cpu len ->
    le_to_cpu len <= heap w ->
    fletcher32 region <> le_to_cpu sum ->
    let L := le_to_cpu len in
    archreader_read_dico ai d w =
      Returned (ERR_MINOR, d)
        (mkWorld (file w) (fpos w + 2 + L + 4) (heap w)
           (EvFree L :: EvErr "bad checksum for header" :: EvRead 4 4
            :: EvRead L L :: EvMalloc L :: EvRead 2 2 :: log w)).
Proof.
  intros ai d w len region sum Hfd Hp Hlen Hsum HL Hheap Hbad L.
  rewrite (read_dico_prologue ai d w len region sum) by assumption.
  destruct (fletcher32 region =? le_to_cpu sum) eqn:Hs.
  - apply Z.eqb_eq in Hs. contradiction.
  - cbn [negb]. unfold sys_free, errprintf, emit. cbn [file fpos heap log].
    fold L. do 2 f_equal. lia.
Qed.

(** *** C2 *)

Lemma buf_get_inside (buffer : list byte) (pos n : nat) :
  (pos + n <= length buffer)%nat ->
  buf_get buffer pos n = Some (firstn n (skipn pos buffer)).
Proof.
  intros H. unfold buf_get.
  destruct (pos + n <=? length buffer)%nat eqn:T; [reflexivity|].
  apply Nat.leb_gt in T. lia.
Qed.


(** One turn of the loop on a record that lies inside the buffer. *)
Lemma read_items_step_fit (n : nat) (buffer : list byte) (pos : nat) (d : cdico) :
  (pos + 6 <= length buffer)%nat ->
  let size := le_to_cpu (firstn 2 (skipn (pos + 4) buffer)) in
  (pos + 6 + Z.to_nat size <= length buffer)%nat ->
  read_items (S n) buffer pos d =
    match dico_add_generic d
            (le_to_cpu (firstn 1 (skipn (pos + 1) buffer)))
            (le_to_cpu (firstn 2 (skipn (pos + 2) buffer)))
            (firstn (Z.to_nat size) (skipn (pos + 6) buffer))
            size
            (le_to_cpu (firstn 1 (skipn pos buffer))) with
    | None => ItemsFailed d
    | Some d' => read_items n buffer (pos + 6 + Z.to_nat size) d'
    end.
Proof.
  intros H6 size Hsz. cbn [read_items].
  rewrite (buf_get_inside buffer pos 1) by lia.
  rewrite (buf_get_inside buffer (pos + 1) 1) by lia.
  rewrite (buf_get_inside buffer (pos + 2) 2) by lia.
  rewrite (buf_get_inside buffer (pos + 4) 2) by lia.
  fold size.
  rewrite (buf_get_inside buffer (pos + 6) (Z.to_nat size)) by lia.
  reflexivity.
Qed.






End ReadDico.

(** C5 on the frame of a volume header in which one byte of the region was
    flipped after the checksum was computed. *)
Lemma read_dico_bad_checksum_minor_witness :
  @archreader_read_dico Reference.externals
    (Reference.reader 0 0 "backup.fsa") []
    (Reference.volume Reference.flipped_frame 0)
  = Returned (ERR_MINOR, [])
      (mkWorld Reference.flipped_frame 57 1048576
         [EvFree 51; EvErr "bad checksum for header"; EvRead 4 4;
          EvRead 51 51; EvMalloc 51; EvRead 2 2]).
Proof.
  apply (@read_dico_bad_checksum_minor Reference.externals
           (Reference.reader 0 0 "backup.fsa") []
           (Reference.volume Reference.flipped_frame 0)
           (Reference.frame_len Reference.sound_region)
           Reference.flipped_region
           (Reference.frame_sum Reference.sound_region)).
  - cbn. lia.
  - split; [cbn; lia | exists []; reflexivity].
  - reflexivity.
  - reflexivity.
  - reflexivity.
  - vm_compute. discriminate.
  - vm_compute. discriminate.
Defined.



(** ** The checksum of the instance

    [Reference.fletcher32_ref] stands for fletcher32 of common.c.  For it,
    the example of C5 holds in general: a region in which any one byte has
    been replaced no longer has the checksum stored in its frame, and
    archreader_read_dico returns ERR_MINOR. *)

Lemma byte_val_range (b : byte) : 0 <= byte_val b < 256.
Proof.
  unfold byte_val. pose proof (Byte.to_N_bounded b) as H.
  lia.
Qed.

Lemma byte_val_inj (a b : byte) : byte_val a = byte_val b -> a = b.
Proof.
  unfold byte_val. intros H. apply N2Z.inj in H.
  pose proof (Byte.of_to_N a) as Ha. pose proof (Byte.of_to_N b) as Hb.
  rewrite H in Ha. congruence.
Qed.

Lemma byte_val_of_Z (z : Z) : byte_val (byte_of_Z z) = z mod 256.
Proof.
  unfold byte_of_Z, byte_val.
  assert (R : 0 <= z mod 256 < 256) by (apply Z.mod_pos_bound; lia).
  destruct (Byte.of_N (Z.to_N (z mod 256))) as [b|] eqn:B.
  - apply Byte.to_of_N in B. rewrite B. lia.
  - exfalso. apply Byte.of_N_None_iff in B. lia.
Qed.

Lemma le_to_cpu_to_le (n : nat) :
  forall v : Z, 0 <= v < 256 ^ Z.of_nat n -> le_to_cpu (cpu_to_le n v) = v.
Proof.
  induction n as [|n IH]; intros v Hv.
  - cbn in Hv. cbn. lia.
  - cbn [cpu_to_le le_to_cpu]. rewrite byte_val_of_Z.
    rewrite Nat2Z.inj_succ, Z.pow_succ_r in Hv by lia.
    rewrite IH.
    + pose proof (Z.div_mod v 256). lia.
    + split; [apply Z.div_pos; lia | apply Z.div_lt_upper_bound; lia].
Qed.

Lemma cpu_to_le_length (n : nat) (v : Z) : length (cpu_to_le n v) = n.
Proof. revert v; induction n as [|n IH]; intros v; cbn; [reflexivity | now rewrite IH]. Qed.

Lemma fletcher_sums_range (bs : list byte) :
  forall s1 s2, 0 <= s1 < 65535 -> 0 <= s2 < 65535 ->
    0 <= fst (Reference.fletcher_sums bs s1 s2) < 65535
    /\ 0 <= snd (Reference.fletcher_sums bs s1 s2) < 65535.
Proof.
  induction bs as [|b bs IH]; intros s1 s2 H1 H2; cbn [Reference.fletcher_sums].
  - cbn. lia.
  - apply IH; apply Z.mod_pos_bound; lia.
Qed.

Lemma fletcher_sums_app (pre bs : list byte) :
  forall s1 s2,
    Reference.fletcher_sums (pre ++ bs) s1 s2
    = Reference.fletcher_sums bs
        (fst (Reference.fletcher_sums pre s1 s2))
        (snd (Reference.fletcher_sums pre s1 s2)).
Proof.
  induction pre as [|b pre IH]; intros s1 s2; cbn [app Reference.fletcher_sums].
  - reflexivity.
  - apply IH.
Qed.

Lemma fletcher_sums_sum1_inj (bs : list byte) :
  forall s1 s2 t1 t2,
    0 <= s1 < 65535 -> 0 <= t1 < 65535 -> s1 <> t1 ->
    fst (Reference.fletcher_sums bs s1 s2) <> fst (Reference.fletcher_sums bs t1 t2).
Proof.
  induction bs as [|b bs IH]; intros s1 s2 t1 t2 Hs Ht Hne; cbn [Reference.fletcher_sums].
  - exact Hne.
  - pose proof (byte_val_range b) as Hb.
    apply IH; try (apply Z.mod_pos_bound; lia).
    intros Heq.
    destruct (Z_lt_ge_dec (s1 + byte_val b) 65535) as [A|A];
      destruct (Z_lt_ge_dec (t1 + byte_val b) 65535) as [B|B].
    + rewrite !Z.mod_small in Heq by lia. lia.
    + rewrite (Z.mod_small (s1 + byte_val b)) in Heq by lia.
      replace (t1 + byte_val b) with ((t1 + byte_val b - 65535) + 1 * 65535) in Heq by lia.
      rewrite Z.mod_add, Z.mod_small in Heq by lia. lia.
    + rewrite (Z.mod_small (t1 + byte_val b)) in Heq by lia.
      replace (s1 + byte_val b) with ((s1 + byte_val b - 65535) + 1 * 65535) in Heq by lia.
      rewrite Z.mod_add, Z.mod_small in Heq by lia. lia.
    + replace (t1 + byte_val b) with ((t1 + byte_val b - 65535) + 1 * 65535) in Heq by lia.
      replace (s1 + byte_val b) with ((s1 + byte_val b - 65535) + 1 * 65535) in Heq by lia.
      rewrite !Z.mod_add, !Z.mod_small in Heq by lia. lia.
Qed.

Lemma fletcher_step_byte (s : Z) (b b' : byte) :
  0 <= s < 65535 -> b <> b' ->
  (s + byte_val b) mod 65535 <> (s + byte_val b') mod 65535.
Proof.
  intros Hs Hne Heq.
  assert (Hv : byte_val b <> byte_val b') by (intros H; apply Hne, byte_val_inj, H).
  pose proof (byte_val_range b) as Hb. pose proof (byte_val_range b') as Hb'.
  destruct (Z_lt_ge_dec (s + byte_val b) 65535) as [A|A];
    destruct (Z_lt_ge_dec (s + byte_val b') 65535) as [B|B].
  - rewrite !Z.mod_small in Heq by lia. lia.
  - rewrite (Z.mod_small (s + byte_val b)) in Heq by lia.
    replace (s + byte_val b') with ((s + byte_val b' - 65535) + 1 * 65535) in Heq by lia.
    rewrite Z.mod_add, Z.mod_small in Heq by lia. lia.
  - rewrite (Z.mod_small (s + byte_val b')) in Heq by lia.
    replace (s + byte_val b) with ((s + byte_val b - 65535) + 1 * 65535) in Heq by lia.
    rewrite Z.mod_add, Z.mod_small in Heq by lia. lia.
  - replace (s + byte_val b') with ((s + byte_val b' - 65535) + 1 * 65535) in Heq by lia.
    replace (s + byte_val b) with ((s + byte_val b - 65535) + 1 * 65535) in Heq by lia.
    rewrite !Z.mod_add, !Z.mod_small in Heq by lia. lia.
Qed.

Lemma fletcher32_ref_low (bs : list byte) :
  Z.land (Reference.fletcher32_ref bs) (Z.ones 16) = fst (Reference.fletcher_sums bs 0 0).
Proof.
  unfold Reference.fletcher32_ref.
  destruct (fletcher_sums_range bs 0 0) as [H1 H2]; try lia.
  destruct (Reference.fletcher_sums bs 0 0) as [s1 s2]. cbn [fst snd] in *.
  rewrite Z.land_lor_distr_l.
  rewrite !Z.land_ones by lia.
  rewrite Z.shiftl_mul_pow2 by lia.
  rewrite Z.mod_mul by lia.
  rewrite Z.mod_small by (change (2 ^ 16) with 65536; lia).
  reflexivity.
Qed.

Lemma fletcher32_ref_range (bs : list byte) : 0 <= Reference.fletcher32_ref bs < 2 ^ 32.
Proof.
  unfold Reference.fletcher32_ref.
  destruct (fletcher_sums_range bs 0 0) as [H1 H2]; try lia.
  destruct (Reference.fletcher_sums bs 0 0) as [s1 s2]. cbn [fst snd] in *.
  split.
  - apply Z.lor_nonneg. split; [apply Z.shiftl_nonneg|]; lia.
  - assert (L : Z.log2 (Z.lor (Z.shiftl s2 16) s1) < 32).
    { rewrite Z.log2_lor by (try apply Z.shiftl_nonneg; lia).
      apply Z.max_lub_lt.
      - destruct (Z.eq_dec s2 0) as [->|N]; [cbn; lia|].
        rewrite Z.log2_shiftl by lia.
        assert (Z.log2 s2 < 16) by (apply Z.log2_lt_pow2; change (2^16) with 65536; lia).
        lia.
      - destruct (Z.eq_dec s1 0) as [->|N]; [cbn; lia|].
        assert (Z.log2 s1 < 16) by (apply Z.log2_lt_pow2; change (2^16) with 65536; lia).
        lia. }
    destruct (Z.eq_dec (Z.lor (Z.shiftl s2 16) s1) 0) as [->|N]; [cbn; lia|].
    apply Z.log2_lt_pow2; [|exact L].
    assert (0 <= Z.lor (Z.shiftl s2 16) s1)
      by (apply Z.lor_nonneg; split; [apply Z.shiftl_nonneg|]; lia).
    lia.
Qed.

(** The modelled checksum changes with any one byte of the region. *)
Lemma fletcher32_ref_one_byte (pre post : list byte) (b b' : byte) :
  b <> b' ->
  Reference.fletcher32_ref (pre ++ b :: post) <> Reference.fletcher32_ref (pre ++ b' :: post).
Proof.
  intros Hne Heq.
  apply (f_equal (fun z => Z.land z (Z.ones 16))) in Heq.
  rewrite !fletcher32_ref_low, !fletcher_sums_app in Heq.
  cbn [Reference.fletcher_sums] in Heq.
  destruct (fletcher_sums_range pre 0 0) as [H1 H2]; try lia.
  revert Heq. apply fletcher_sums_sum1_inj; try (apply Z.mod_pos_bound; lia).
  now apply fletcher_step_byte.
Qed.

Lemma read_dico_one_byte_changed (ai : carchreader) (d : cdico) (w : world)
      (pre post : list byte) (b b' : byte) :
  let region := pre ++ b :: post in
  let changed := pre ++ b' :: post in
  b <> b' ->
  0 <= archfd ai ->
  Z.of_nat (length region) < 65536 ->
  Z.of_nat (length region) <= heap w ->
  pending w (Reference.frame_len region ++ changed ++ Reference.frame_sum region) ->
  exists w',
    @archreader_read_dico Reference.externals ai d w = Returned (ERR_MINOR, d) w'.
Proof.
  intros region changed Hne Hfd Hlen Hheap Hp.
  assert (HL : le_to_cpu (Reference.frame_len region) = Z.of_nat (length region)).
  { unfold Reference.frame_len. apply le_to_cpu_to_le.
    change (256 ^ Z.of_nat 2) with 65536. lia. }
  assert (Hc : length changed = length region).
  { subst region changed. rewrite !length_app. reflexivity. }
  rewrite (@read_dico_prologue Reference.externals ai d w
             (Reference.frame_len region) changed (Reference.frame_sum region)).
  - change (@fletcher32 Reference.externals) with Reference.fletcher32_ref.
    unfold Reference.frame_sum at 1.
    rewrite le_to_cpu_to_le
      by (change (256 ^ Z.of_nat 4) with (2 ^ 32); apply fletcher32_ref_range).
    destruct (Reference.fletcher32_ref changed =? Reference.fletcher32_ref region) eqn:Q.
    + apply Z.eqb_eq in Q. exfalso.
      revert Q. subst region changed. apply fletcher32_ref_one_byte.
      congruence.
    + cbn [negb]. eauto.
  - exact Hfd.
  - exact Hp.
  - apply cpu_to_le_length.
  - apply cpu_to_le_length.
  - rewrite HL, Hc. reflexivity.
  - rewrite HL. exact Hheap.
Qed.

(** ** archreader_read_header *)

Section ReadHeader.
Context {E : Externals}.

Lemma overwrite_full (src dst : list byte) :
  length src = length dst -> overwrite src dst = src.
Proof.
  intros H. unfold overwrite.
  rewrite H, skipn_all. apply app_nil_r.
Qed.

Lemma lseek_cur_0 (fd : Z) (w : world) :
  0 <= fd -> 0 <= fpos w ->
  sys_lseek fd 0 SEEK_CUR w =
    (fpos w, mkWorld (file w) (fpos w) (heap w) (EvSeekCur 0 :: log w)).
Proof.
  intros Hfd Hpos. unfold sys_lseek.
  destruct (fd <? 0) eqn:F; [apply Z.ltb_lt in F; lia|].
  rewrite Z.add_0_r.
  destruct (fpos w <? 0) eqn:P; [apply Z.ltb_lt in P; lia|].
  reflexivity.
Qed.

Lemma lseek_set (fd off : Z) (w : world) :
  0 <= fd -> 0 <= off ->
  sys_lseek fd off SEEK_SET w =
    (off, mkWorld (file w) off (heap w) (EvSeekSet off :: log w)).
Proof.
  intros Hfd Hoff. unfold sys_lseek.
  destruct (fd <? 0) eqn:F; [apply Z.ltb_lt in F; lia|].
  destruct (off <? 0) eqn:P; [apply Z.ltb_lt in P; lia|].
  reflexivity.
Qed.

(** The first part of archreader_read_header up to the test of the magic
    it has read at the current offset. *)
Lemma read_header_magic_first (ai : carchreader) (allowseek : bool) (w : world)
      (m : list byte) (d : cdico) :
  0 <= archfd ai ->
  pending w m ->
  length m = FSA_SIZEOF_MAGIC ->
  dico_alloc = Some d ->
  let M := Z.of_nat FSA_SIZEOF_MAGIC in
  let w1 := mkWorld (file w) (fpos w + M) (heap w)
                    (EvRead M M :: EvSeekCur 0 :: log w) in
  read_header_magic ai allowseek w =
    if negb (is_magic_valid m) && negb allowseek
    then LocateFailed (mkHeaderOut m (Some d) FSA_FILESYSID_NULL)
           (errprintf "cannot read header magic: this is not a valid fsarchiver file, or it has been created with a different version." w1)
    else
      match resync_scan (scan_bound w1) ai (fpos w) m w1 with
      | None => LocateUnbounded w1
      | Some sc =>
          if scan_found sc
          then Located (scan_magic sc) d (scan_world sc)
          else LocateFailed (mkHeaderOut (scan_magic sc) (Some d) FSA_FILESYSID_NULL)
                            (scan_world sc)
      end.
Proof.
  intros Hfd Hp Hlen Hd M w1.
  unfold read_header_magic. rewrite Hd.
  rewrite lseek_cur_0 by (try assumption; eapply pending_nonneg; eassumption).
  cbv beta iota zeta.
  destruct (fpos w <? 0) eqn:P;
    [apply Z.ltb_lt in P; apply pending_nonneg in Hp; lia|].
  rewrite <- (app_nil_r m) in Hp.
  assert (Hp' : pending (mkWorld (file w) (fpos w) (heap w) (EvSeekCur 0 :: log w))
                        (m ++ []))
    by (apply (pending_same_stream w); [reflexivity | reflexivity | exact Hp]).
  destruct (read_data_pending ai _ m [] Hfd Hp') as [R _].
  rewrite Hlen in R. cbn [file fpos heap log] in R. rewrite R.
  cbn [negb Z.eqb].
  rewrite overwrite_full by (rewrite repeat_length; exact Hlen).
  reflexivity.
Qed.

(** A recognised magic at the current offset is taken as it is. *)
Lemma read_header_magic_valid (ai : carchreader) (allowseek : bool) (w : world)
      (m : list byte) (d : cdico) :
  0 <= archfd ai ->
  pending w m ->
  length m = FSA_SIZEOF_MAGIC ->
  dico_alloc = Some d ->
  is_magic_valid m = true ->
  let M := Z.of_nat FSA_SIZEOF_MAGIC in
  read_header_magic ai allowseek w =
    Located m d (mkWorld (file w) (fpos w + M) (heap w)
                         (EvRead M M :: EvSeekCur 0 :: log w)).
Proof.
  intros Hfd Hp Hlen Hd Hv M.
  rewrite (read_header_magic_first ai allowseek w m d) by assumption.
  rewrite Hv. cbn [negb andb]. unfold scan_bound. cbn [resync_scan].
  rewrite Hv. reflexivity.
Qed.

(** The archive id that follows the located magic differs from the one of
    the session. *)
Lemma read_header_fields_id_mismatch (ai : carchreader) (magic : list byte)
      (d : cdico) (w : world) (idb : list byte) :
  0 <= archfd ai ->
  pending w idb ->
  length idb = 4%nat ->
  archid ai <> 0 ->
  le_to_cpu idb <> archid ai ->
  read_header_fields ai magic d w =
    Returned (ERR_MINOR, mkHeaderOut magic (Some d) FSA_FILESYSID_NULL)
      (mkWorld (file w) (fpos w + 4) (heap w)
         (EvErr "archive-id in header does not match: archid=[%.8x], expected=[%.8x]"
          :: EvRead 4 4 :: log w)).
Proof.
  intros Hfd Hp Hlen Hid Hne.
  unfold read_header_fields.
  rewrite <- (app_nil_r idb) in Hp.
  destruct (read_data_pending ai w idb [] Hfd Hp) as [R _].
  rewrite Hlen in R. change (Z.of_nat 4) with 4 in R. rewrite R.
  cbn [negb Z.eqb].
  apply Z.eqb_neq in Hid. apply Z.eqb_neq in Hne. rewrite Hid, Hne.
  reflexivity.
Qed.

(** *** C1 *)

(** C1, as amended.  In a session whose archive identity is established
    ([archid] is not 0), a header whose magic has been located and whose
    archive id field differs from the identity of the session makes
    archreader_read_header fail with ERR_MINOR, the recoverable code, not
    with ERR_FATAL; the volume is read up to the end of the id field. *)
Theorem read_header_id_mismatch_minor :
  forall (ai : carchreader) (allowseek : bool) (w w1 : world)
         (magic idb : list byte) (d : cdico),
    0 <= archfd ai ->
    read_header_magic ai allowseek w = Located magic d w1 ->
    pending w1 idb ->
    length idb = 4%nat ->
    archid ai <> 0 ->
    le_to_cpu idb <> archid ai ->
    archreader_read_header ai allowseek w =
      Returned (ERR_MINOR, mkHeaderOut magic (Some d) FSA_FILESYSID_NULL)
        (mkWorld (file w1) (fpos w1 + 4) (heap w1)
           (EvErr "archive-id in header does not match: archid=[%.8x], expected=[%.8x]"
            :: EvRead 4 4 :: log w1)).
Proof.
  intros ai allowseek w w1 magic idb d Hfd Hloc Hp Hlen Hid Hne.
  unfold archreader_read_header. rewrite Hloc.
  now apply (read_header_fields_id_mismatch ai magic d w1 idb).
Qed.

(** *** The resync loop *)

Lemma seek_targets_app (a b : list event) :
  seek_targets (a ++ b) = seek_targets b ++ seek_targets a.
Proof.
  induction a as [|e a IH]; cbn [app seek_targets].
  - now rewrite app_nil_r.
  - destruct e; rewrite ?IH, ?app_assoc; reflexivity.
Qed.

Lemma skipn_succ_of_cons {A : Type} (n : nat) (l : list A) (x : A) (t : list A) :
  skipn n l = x :: t -> skipn (n + 1) l = t.
Proof.
  intros H. rewrite <- skipn_skipn_add, H. reflexivity.
Qed.

(** The loop finds a marker that lies behind garbage: it seeks to the
    candidate offset and one byte further for every byte of garbage. *)
Lemma resync_scan_finds (ai : carchreader) (marker rest : list byte) :
  0 <= archfd ai ->
  length marker = FSA_SIZEOF_MAGIC ->
  is_magic_valid marker = true ->
  forall (g : list byte) (fuel : nat) (curpos : Z) (magic : list byte) (w : world),
    0 <= curpos ->
    skipn (Z.to_nat curpos) (file w) = g ++ marker ++ rest ->
    garbage g marker ->
    is_magic_valid magic = false ->
    length magic = FSA_SIZEOF_MAGIC ->
    (length g < fuel)%nat ->
    exists w' evs,
      resync_scan fuel ai curpos magic w
        = Some (mkScan true (curpos + Z.of_nat (length g) + 1) marker w')
      /\ file w' = file w /\ heap w' = heap w
      /\ fpos w' = curpos + Z.of_nat (length g) + Z.of_nat FSA_SIZEOF_MAGIC
      /\ log w' = evs ++ log w
      /\ seek_targets evs = offsets_from curpos (S (length g)).
Proof.
  intros Hfd Hml Hmv.
  induction g as [|x g IH]; intros fuel curpos magic w Hpos Hs Hg Hinv Hlen Hfuel.
  - destruct fuel as [|fuel]; [cbn in Hfuel; lia|].
    cbn [resync_scan]. rewrite Hinv.
    rewrite lseek_set by assumption. cbv beta iota zeta.
    destruct (curpos <? 0) eqn:P; [apply Z.ltb_lt in P; lia|].
    assert (Hp : pending (mkWorld (file w) curpos (heap w) (EvSeekSet curpos :: log w))
                         (marker ++ rest))
      by (split; [exact Hpos | exists []; cbn [fpos file];
                                rewrite Hs, app_nil_r; reflexivity]).
    destruct (read_data_pending ai _ marker rest Hfd Hp) as [R _].
    rewrite Hml in R. cbn [file fpos heap log] in R. rewrite R.
    cbn [negb Z.eqb].
    rewrite overwrite_full by congruence.
    eexists. exists [EvRead (Z.of_nat FSA_SIZEOF_MAGIC) (Z.of_nat FSA_SIZEOF_MAGIC);
                     EvSeekSet curpos].
    split.
    + destruct fuel; cbn [resync_scan]; rewrite Hmv;
        cbn [length Z.of_nat]; rewrite Z.add_0_r; reflexivity.
    + cbn [file heap fpos log length Z.of_nat seek_targets offsets_from app].
      repeat split; try reflexivity. lia.
  - destruct fuel as [|fuel]; [cbn in Hfuel; lia|].
    cbn [length] in Hfuel.
    cbn [resync_scan]. rewrite Hinv.
    rewrite lseek_set by assumption. cbv beta iota zeta.
    destruct (curpos <? 0) eqn:P; [apply Z.ltb_lt in P; lia|].
    set (l := (x :: g) ++ marker) in *.
    set (win := firstn FSA_SIZEOF_MAGIC l).
    assert (Hwl : length win = FSA_SIZEOF_MAGIC).
    { subst win. apply firstn_length_le. subst l.
      rewrite length_app. lia. }
    assert (Hp : pending (mkWorld (file w) curpos (heap w) (EvSeekSet curpos :: log w))
                         (win ++ (skipn FSA_SIZEOF_MAGIC l ++ rest))).
    { split; [exact Hpos|]. exists []. cbn [fpos file].
      rewrite Hs, app_nil_r. subst win.
      rewrite (app_assoc (firstn FSA_SIZEOF_MAGIC l)), firstn_skipn.
      subst l. now rewrite <- app_assoc. }
    destruct (read_data_pending ai _ win _ Hfd Hp) as [R _].
    rewrite Hwl in R. cbn [file fpos heap log] in R. rewrite R.
    cbn [negb Z.eqb].
    rewrite overwrite_full by congruence.
    assert (Hwin : is_magic_valid win = false)
      by (apply (Hg 0%nat); cbn [length]; lia).
    match goal with
    | |- context [resync_scan fuel ai (curpos + 1) win ?w2] =>
        destruct (IH fuel (curpos + 1) win w2) as (w' & evs & Hr & Hf & Hh & Hfp & Hl & Ht)
    end.
    + lia.
    + cbn [file]. rewrite Z2Nat.inj_add by lia.
      apply (skipn_succ_of_cons _ _ x). rewrite Hs. reflexivity.
    + intros i Hi. apply (Hg (S i)). cbn [length]. lia.
    + exact Hwin.
    + exact Hwl.
    + lia.
    + exists w'.
      exists (evs ++ [EvRead (Z.of_nat FSA_SIZEOF_MAGIC) (Z.of_nat FSA_SIZEOF_MAGIC);
                      EvSeekSet curpos]).
      rewrite Hr. cbn [file heap log] in Hf, Hh, Hl.
      replace (curpos + 1 + Z.of_nat (length g) + 1)
        with (curpos + Z.of_nat (length (x :: g)) + 1)
        by (cbn [length]; lia).
      repeat split; try assumption.
      * rewrite Hfp. cbn [length]. lia.
      * rewrite Hl, <- app_assoc. reflexivity.
      * rewrite seek_targets_app, Ht. reflexivity.
Qed.

(** One turn of the loop. *)
Lemma resync_scan_turn (ai : carchreader) (fuel : nat) (curpos : Z)
      (magic : list byte) (w : world) :
  0 <= curpos ->
  is_magic_valid magic = false ->
  resync_scan (S fuel) ai curpos magic w =
    if archfd ai <? 0
    then Some (mkScan false (curpos + 1) magic
                 (sysprintf "lseek64(pos=%lld, SEEK_SET) failed" (emit EvSeekFail w)))
    else
      let M := Z.of_nat FSA_SIZEOF_MAGIC in
      let got := firstn FSA_SIZEOF_MAGIC (skipn (Z.to_nat curpos) (file w)) in
      let k := Z.of_nat (length got) in
      let w2 := mkWorld (file w) (curpos + k) (heap w)
                        (EvRead M k :: EvSeekSet curpos :: log w) in
      if negb (k =? M)
      then Some (mkScan false (curpos + 1) (overwrite got magic)
                   (msgprintf "cannot read header magic: res=%d"
                      (sysprintf "read failed: read(size=%ld)=%ld" w2)))
      else resync_scan fuel ai (curpos + 1) (overwrite got magic) w2.
Proof.
  intros Hpos Hinv. cbn [resync_scan]. rewrite Hinv.
  unfold sys_lseek.
  destruct (archfd ai <? 0) eqn:F; [reflexivity|].
  destruct (curpos <? 0) eqn:P; [apply Z.ltb_lt in P; lia|].
  cbv beta iota zeta. rewrite P.
  unfold archreader_read_data, sys_read. rewrite F.
  cbn [fpos file heap log]. rewrite Nat2Z.id.
  destruct (Z.of_nat (length (firstn FSA_SIZEOF_MAGIC
                                     (skipn (Z.to_nat curpos) (file w))))
            =? Z.of_nat FSA_SIZEOF_MAGIC); reflexivity.
Qed.

(** The loop ends on every volume within [scan_bound] iterations: past
    the end of the volume the read of the magic fails. *)
Lemma resync_scan_bounded (ai : carchreader) :
  forall (fuel : nat) (curpos : Z) (magic : list byte) (w : world),
    0 <= curpos ->
    Z.of_nat (length (file w)) < curpos + Z.of_nat FSA_SIZEOF_MAGIC + Z.of_nat fuel ->
    resync_scan (S fuel) ai curpos magic w <> None.
Proof.
  induction fuel as [|fuel IH]; intros curpos magic w Hpos Hlen.
  - destruct (is_magic_valid magic) eqn:V;
      [cbn [resync_scan]; rewrite V; discriminate|].
    rewrite resync_scan_turn by assumption.
    destruct (archfd ai <? 0); [discriminate|].
    cbv zeta.
    destruct (Z.of_nat (length (firstn FSA_SIZEOF_MAGIC
                                       (skipn (Z.to_nat curpos) (file w))))
              =? Z.of_nat FSA_SIZEOF_MAGIC) eqn:G; cbn [negb]; [|discriminate].
    exfalso. apply Z.eqb_eq in G.
    rewrite length_firstn, length_skipn in G.
    pose proof FSA_SIZEOF_MAGIC_pos. lia.
  - destruct (is_magic_valid magic) eqn:V;
      [cbn [resync_scan]; rewrite V; discriminate|].
    rewrite resync_scan_turn by assumption.
    destruct (archfd ai <? 0); [discriminate|].
    cbv zeta.
    destruct (Z.of_nat (length (firstn FSA_SIZEOF_MAGIC
                                       (skipn (Z.to_nat curpos) (file w))))
              =? Z.of_nat FSA_SIZEOF_MAGIC) eqn:G; cbn [negb]; [|discriminate].
    apply IH; [lia|]. cbn [file]. lia.
Qed.

Lemma read_header_magic_bounded (ai : carchreader) (allowseek : bool) (w : world) :
  forall w', read_header_magic ai allowseek w <> LocateUnbounded w'.
Proof.
  intros w'. unfold read_header_magic.
  destruct dico_alloc as [d|]; [|discriminate].
  destruct (sys_lseek (archfd ai) 0 SEEK_CUR w) as [curpos w1] eqn:L.
  destruct (curpos <? 0) eqn:P; [discriminate|].
  destruct (archreader_read_data ai (Z.of_nat FSA_SIZEOF_MAGIC) w1)
    as [[res got] w2] eqn:R.
  destruct (negb (res =? 0)); [discriminate|].
  destruct (negb (is_magic_valid _) && negb allowseek); [discriminate|].
  destruct (resync_scan (scan_bound w2) ai curpos _ w2) as [sc|] eqn:S.
  - destruct (scan_found sc); discriminate.
  - exfalso. revert S. unfold scan_bound. apply resync_scan_bounded.
    + apply Z.ltb_ge in P. exact P.
    + pose proof FSA_SIZEOF_MAGIC_pos. apply Z.ltb_ge in P. lia.
Qed.

(** archreader_read_header returns on every volume. *)
Lemma read_header_no_loop_bound (ai : carchreader) (allowseek : bool) (w : world) :
  forall w', archreader_read_header ai allowseek w <> Fault LoopBound w'.
Proof.
  intros w'. unfold archreader_read_header.
  destruct (read_header_magic ai allowseek w) as [magic d w1|out w1|w1] eqn:L.
  - unfold read_header_fields.
    destruct (archreader_read_data ai 4 w1) as [[r1 b1] w2].
    destruct (negb (r1 =? 0)); [discriminate|].
    destruct (negb (archid ai =? 0) && negb (le_to_cpu b1 =? archid ai));
      [discriminate|].
    destruct (archreader_read_data ai 2 w2) as [[r2 b2] w3].
    destruct (negb (r2 =? 0)); [discriminate|].
    destruct (archreader_read_dico ai d w3) as [[r d'] w4|f w4] eqn:D.
    + destruct r; discriminate.
    + apply read_dico_fault_kind in D. subst f. discriminate.
  - discriminate.
  - exfalso. eapply read_header_magic_bounded. exact L.
Qed.

(** *** C4 *)

(** C4.  archreader_read_header reads a magic that is not recognised at the
    offset [p].  When [allowseek] is false it returns ERR_FATAL.  When
    [allowseek] is true and [N] bytes of garbage lie in front of a valid
    marker, the resync loop gives lseek64 the offsets p, p+1, ..., p+N in
    this order (the window at [p] is read again, then the candidate offset
    advances by one byte [N] times), takes the marker at p+N, where no
    window before it is recognised, and leaves the volume at the byte
    after the marker, where the fields of the header are read. *)
Theorem read_header_resync :
  forall (ai : carchreader) (w : world),
    0 <= archfd ai ->
    (forall m : list byte,
        pending w m ->
        length m = FSA_SIZEOF_MAGIC ->
        is_magic_valid m = false ->
        exists out w',
          archreader_read_header ai false w = Returned (ERR_FATAL, out) w')
    /\ (forall (g marker : list byte) (d : cdico),
          pending w (g ++ marker) ->
          (0 < length g)%nat ->
          length marker = FSA_SIZEOF_MAGIC ->
          is_magic_valid marker = true ->
          garbage g marker ->
          dico_alloc = Some d ->
          exists w1 evs,
            read_header_magic ai true w = Located marker d w1
            /\ archreader_read_header ai true w = read_header_fields ai marker d w1
            /\ file w1 = file w
            /\ fpos w1 = fpos w + Z.of_nat (length g) + Z.of_nat FSA_SIZEOF_MAGIC
            /\ log w1 = evs ++ log w
            /\ seek_targets evs = offsets_from (fpos w) (S (length g))).
Proof.
  intros ai w Hfd. split.
  - intros m Hp Hlen Hinv.
    unfold archreader_read_header.
    destruct dico_alloc as [d|] eqn:D.
    + rewrite (read_header_magic_first ai false w m d) by assumption.
      rewrite Hinv. cbn [negb andb]. eauto.
    + unfold read_header_magic. rewrite D. eauto.
  - intros g marker d Hp Hg0 Hml Hmv Hg Hd.
    set (m0 := firstn FSA_SIZEOF_MAGIC (g ++ marker)).
    assert (Hm0l : length m0 = FSA_SIZEOF_MAGIC).
    { subst m0. apply firstn_length_le. rewrite length_app. lia. }
    assert (Hp0 : pending w m0).
    { apply (pending_app_l w m0 (skipn FSA_SIZEOF_MAGIC (g ++ marker))).
      subst m0. now rewrite firstn_skipn. }
    assert (Hinv : is_magic_valid m0 = false) by (apply (Hg 0%nat); exact Hg0).
    destruct Hp as [Hpos [rest Hs]].
    assert (Hlg : (length g <= length (file w))%nat).
    { apply (f_equal (@length byte)) in Hs.
      rewrite length_skipn, !length_app in Hs. lia. }
    unfold archreader_read_header.
    rewrite (read_header_magic_first ai true w m0 d) by assumption.
    rewrite Hinv. cbn [negb andb].
    match goal with
    | |- context [resync_scan ?fuel ai (fpos w) m0 ?w1] =>
        destruct (resync_scan_finds ai marker rest Hfd Hml Hmv g fuel (fpos w) m0 w1)
          as (w' & evs & Hr & Hf & Hh & Hfp & Hl & Ht)
    end.
    + exact Hpos.
    + cbn [file]. rewrite Hs, <- app_assoc. reflexivity.
    + exact Hg.
    + exact Hinv.
    + exact Hm0l.
    + unfold scan_bound. cbn [file]. lia.
    + rewrite Hr. cbn [scan_found scan_magic scan_world].
      exists w'.
      exists (evs ++ [EvRead (Z.of_nat FSA_SIZEOF_MAGIC) (Z.of_nat FSA_SIZEOF_MAGIC);
                      EvSeekCur 0]).
      cbn [file log] in Hf, Hl.
      repeat split; try assumption; try reflexivity.
      * rewrite Hl, <- app_assoc. reflexivity.
      * rewrite seek_targets_app, Ht. reflexivity.
Qed.

End ReadHeader.

(** C1 as it is stated fails: the session has identity 9, the header read
    carries identity 7, and archreader_read_header returns ERR_MINOR, not
    ERR_FATAL. *)
Lemma read_header_id_mismatch_not_fatal :
  let ai := Reference.reader 9 0 "backup.fsa" in
  let w := Reference.volume Reference.volume_header 0 in
  archid ai <> 0
  /\ le_to_cpu (firstn 4 (skipn 8 Reference.volume_header)) <> archid ai
  /\ (exists out w',
         @archreader_read_header Reference.externals ai false w
         = Returned (ERR_MINOR, out) w')
  /\ (forall out w',
         @archreader_read_header Reference.externals ai false w
         <> Returned (ERR_FATAL, out) w').
Proof.
  intros ai w.
  split; [vm_compute; discriminate|].
  split; [vm_compute; discriminate|].
  split.
  - do 2 eexists. vm_compute. reflexivity.
  - intros out w'. vm_compute. discriminate.
Qed.

(** [read_header_id_mismatch_minor] on the same volume and session. *)
Lemma read_header_id_mismatch_minor_witness :
  @archreader_read_header Reference.externals
    (Reference.reader 9 0 "backup.fsa") false
    (Reference.volume Reference.volume_header 0)
  = Returned (ERR_MINOR,
              mkHeaderOut Reference.magic_volh (Some []) 65535)
      (mkWorld Reference.volume_header 12 1048576
         [EvErr "archive-id in header does not match: archid=[%.8x], expected=[%.8x]";
          EvRead 4 4; EvRead 8 8; EvSeekCur 0]).
Proof.
  apply (@read_header_id_mismatch_minor Reference.externals
           (Reference.reader 9 0 "backup.fsa") false
           (Reference.volume Reference.volume_header 0)
           (mkWorld Reference.volume_header 8 1048576 [EvRead 8 8; EvSeekCur 0])
           Reference.magic_volh
           (firstn 4 (skipn 8 Reference.volume_header)) []).
  - cbn. lia.
  - vm_compute. reflexivity.
  - split; [cbn; lia | eexists; vm_compute; reflexivity].
  - reflexivity.
  - vm_compute. discriminate.
  - vm_compute. discriminate.
Defined.

(** [read_header_resync] on a volume that starts with three bytes of
    garbage in front of a block header: without [allowseek] the call is
    fatal; with it the loop seeks to 0, 1, 2 and 3 and leaves the volume at
    offset 11, behind the marker. *)
Lemma read_header_resync_witness :
  let ai := Reference.reader 7 0 "backup.fsa" in
  let w := Reference.volume Reference.damaged 0 in
  (exists out w',
      @archreader_read_header Reference.externals ai false w
      = Returned (ERR_FATAL, out) w')
  /\ (exists w1 evs,
         @read_header_magic Reference.externals ai true w
         = Located Reference.magic_blkh [] w1
         /\ @archreader_read_header Reference.externals ai true w
            = @read_header_fields Reference.externals ai Reference.magic_blkh [] w1
         /\ file w1 = file w
         /\ fpos w1 = 0 + 3 + 8
         /\ log w1 = evs ++ log w
         /\ seek_targets evs = [0; 1; 2; 3]).
Proof.
  intros ai w.
  destruct (@read_header_resync Reference.externals ai w) as [A B].
  { cbn. lia. }
  split.
  - apply (A (firstn 8 Reference.damaged)).
    + split; [cbn; lia | eexists; vm_compute; reflexivity].
    + reflexivity.
    + reflexivity.
  - apply (B Reference.three_bytes Reference.magic_blkh []).
    + split; [cbn; lia | eexists; vm_compute; reflexivity].
    + cbn. lia.
    + reflexivity.
    + reflexivity.
    + intros i Hi.
      destruct i as [|[|[|i]]]; [reflexivity | reflexivity | reflexivity |].
      cbn in Hi. lia.
    + reflexivity.
Defined.

(** ** archreader_read_block *)

Section ReadBlock.
Context {E : Externals}.

(** What archreader_read_block does once the seven fields are there. *)
Lemma read_block_fields_ok (ai : carchreader) (blkdico : cdico) (blkinfo : blockinfo)
      (skip : bool) (w : world)
      (blockoffset curblocksize compalgo cryptalgo finalsize compsize arcsum : Z) :
  block_fields blkdico blockoffset curblocksize compalgo cryptalgo finalsize
               compsize arcsum ->
  archreader_read_block ai blkdico blkinfo skip w =
    let blkinfo0 := memset_blkinfo_head blkinfo in
    if skip
    then
      let '(r, w) := sys_lseek (archfd ai) finalsize SEEK_CUR w in
      if r <? 0
      then (-1, mkBlockOut (-1) blkinfo0,
            sysprintf "cannot skip block (finalsize=%ld) failed" w)
      else (0, mkBlockOut (-1) blkinfo0, w)
    else
      let '(ok, w) := sys_malloc finalsize w in
      if negb ok
      then (-1, mkBlockOut (-1) blkinfo0,
            errprintf "cannot allocate block: malloc(%d) failed" w)
      else
      let '(got, buffer, w) := sys_read (archfd ai) finalsize w in
      if negb (got =? finalsize)
      then (-1, mkBlockOut (-1) blkinfo0,
            sys_free finalsize
                     (sysprintf "cannot read block (finalsize=%ld) failed" w))
      else
      let blkinfo1 :=
        mkBlock (Some buffer) curblocksize blockoffset arcsum
                compalgo cryptalgo finalsize compsize in
      if negb (fletcher32 buffer =? arcsum)
      then
        let w := errprintf "block is corrupt at offset=%ld, blksize=%ld" w in
        let w := sys_free finalsize w in
        let '(ok, w) := sys_malloc curblocksize w in
        if negb ok
        then (-1, mkBlockOut (-1) (set_blkdata None blkinfo1),
              errprintf "cannot allocate block: malloc(%d) failed" w)
        else
          let '(r, w) := sys_lseek (archfd ai) (- finalsize) SEEK_CUR w in
          let w := if r <? 0 then errprintf "lseek64() failed" w else w in
          (0, mkBlockOut 0
                (set_blkdata (Some (repeat x00 (Z.to_nat curblocksize))) blkinfo1),
           w)
      else (0, mkBlockOut 1 blkinfo1, w).
Proof.
  intros (H1 & H2 & Hmax & H3 & H4 & H5 & H6 & H7).
  unfold archreader_read_block.
  rewrite H1, H2, H3, H4, H5, H6, H7.
  destruct (FSA_MAX_BLKSIZE <? curblocksize) eqn:B;
    [apply Z.ltb_lt in B; lia|].
  reflexivity.
Qed.

(** *** C8 *)

(** C8.  archreader_read_block with [skip] on a block header that holds
    the required fields: no buffer is allocated and nothing is read (the
    one event is the lseek64), the offset of the volume moves forward by
    the size of the block in the archive, the result is 0, [*sumok] stays
    -1 and [*blkinfo] gets no payload: it is the structure of the caller
    after the memset at the entry of the function. *)
Theorem read_block_skip :
  forall (ai : carchreader) (blkdico : cdico) (blkinfo : blockinfo) (w : world)
         (blockoffset curblocksize compalgo cryptalgo finalsize compsize arcsum : Z),
    0 <= archfd ai ->
    0 <= fpos w ->
    0 <= finalsize ->
    block_fields blkdico blockoffset curblocksize compalgo cryptalgo finalsize
                 compsize arcsum ->
    archreader_read_block ai blkdico blkinfo true w =
      (0,
       mkBlockOut (-1) (memset_blkinfo_head blkinfo),
       mkWorld (file w) (fpos w + finalsize) (heap w)
               (EvSeekCur finalsize :: log w)).
Proof.
  intros ai blkdico blkinfo w blockoffset curblocksize compalgo cryptalgo
         finalsize compsize arcsum Hfd Hpos Hsz Hf.
  rewrite (read_block_fields_ok _ _ _ _ _ _ _ _ _ _ _ _ Hf).
  cbv zeta. unfold sys_lseek.
  destruct (archfd ai <? 0) eqn:F; [apply Z.ltb_lt in F; lia|].
  destruct (fpos w + finalsize <? 0) eqn:P; [apply Z.ltb_lt in P; lia|].
  rewrite P. reflexivity.
Qed.

(** *** C3 *)

(** C3.  archreader_read_block without [skip] on a block whose bytes in
    the archive do not have the checksum stored in the block header: the
    result is 0, [*sumok] is 0 (false), the buffer read is freed and
    [blkdata] is a new buffer of the real size of the block, all zero, and
    the offset of the volume is back where it was before the read: the
    offset after the read less the size of the block in the archive. *)
Theorem read_block_corrupt :
  forall (ai : carchreader) (blkdico : cdico) (blkinfo : blockinfo) (w : world)
         (blockoffset curblocksize compalgo cryptalgo finalsize compsize arcsum : Z)
         (data : list byte),
    0 <= archfd ai ->
    block_fields blkdico blockoffset curblocksize compalgo cryptalgo finalsize
                 compsize arcsum ->
    pending w data ->
    Z.of_nat (length data) = finalsize ->
    finalsize <= heap w ->
    curblocksize <= heap w ->
    fletcher32 data <> arcsum ->
    archreader_read_block ai blkdico blkinfo false w =
      (0,
       mkBlockOut 0
         (mkBlock (Some (repeat x00 (Z.to_nat curblocksize)))
                  curblocksize blockoffset arcsum compalgo cryptalgo
                  finalsize compsize),
       mkWorld (file w) (fpos w + finalsize - finalsize) (heap w - curblocksize)
               (EvSeekCur (- finalsize) :: EvMalloc curblocksize
                :: EvFree finalsize
                :: EvErr "block is corrupt at offset=%ld, blksize=%ld"
                :: EvRead finalsize finalsize :: EvMalloc finalsize :: log w)).
Proof.
  intros ai blkdico blkinfo w blockoffset curblocksize compalgo cryptalgo
         finalsize compsize arcsum data Hfd Hf Hp Hlen Hh1 Hh2 Hbad.
  rewrite (read_block_fields_ok _ _ _ _ _ _ _ _ _ _ _ _ Hf).
  cbv zeta. unfold sys_malloc at 1.
  destruct (finalsize <=? heap w) eqn:M1; [|apply Z.leb_gt in M1; lia].
  cbn [negb].
  rewrite <- (app_nil_r data) in Hp.
  assert (Hp' : pending (mkWorld (file w) (fpos w) (heap w - finalsize)
                                 (EvMalloc finalsize :: log w)) (data ++ []))
    by (apply (pending_same_stream w); [reflexivity | reflexivity | exact Hp]).
  destruct (sys_read_pending (archfd ai) _ data [] Hfd Hp') as [R _].
  rewrite Hlen in R. cbn [file fpos heap log] in R. rewrite R.
  rewrite Z.eqb_refl. cbn [negb].
  apply Z.eqb_neq in Hbad. rewrite Hbad. cbn [negb].
  unfold sys_free, errprintf, emit, sys_malloc. cbn [file fpos heap log].
  destruct (curblocksize <=? heap w - finalsize + finalsize) eqn:M2;
    [|apply Z.leb_gt in M2; lia].
  cbn [negb]. unfold sys_lseek.
  destruct (archfd ai <? 0) eqn:F; [apply Z.ltb_lt in F; lia|].
  cbn [file fpos heap log].
  apply pending_nonneg in Hp.
  destruct (fpos w + finalsize + - finalsize <? 0) eqn:P;
    [apply Z.ltb_lt in P; lia|].
  rewrite P. unfold set_blkdata.
  cbn [blkrealsize blkoffset blkarcsum blkcompalgo blkcryptalgo blkarsize blkcompsize].
  repeat f_equal; lia.
Qed.

End ReadBlock.

(** [read_block_skip] on a block of four bytes at offset 100. *)
Lemma read_block_skip_witness :
  @archreader_read_block Reference.externals
    (Reference.reader 7 0 "backup.fsa") Reference.corrupt_block_dico
    Reference.some_blockinfo true (Reference.volume Reference.payload 100)
  = (0,
     mkBlockOut (-1) (mkBlock None 1 2 3 4 5 6 7),
     mkWorld Reference.payload 104 1048576 [EvSeekCur 4]).
Proof.
  apply (@read_block_skip Reference.externals
           (Reference.reader 7 0 "backup.fsa") Reference.corrupt_block_dico
           Reference.some_blockinfo (Reference.volume Reference.payload 100)
           4096 6 0 0 4 4 (Reference.fletcher32_ref Reference.payload + 1)).
  - cbn. lia.
  - cbn. lia.
  - lia.
  - repeat split; try reflexivity. vm_compute. discriminate.
Defined.

(** [read_block_corrupt] on a block of four bytes whose header stores
    another checksum and a real size of six bytes. *)
Lemma read_block_corrupt_witness :
  @archreader_read_block Reference.externals
    (Reference.reader 7 0 "backup.fsa") Reference.corrupt_block_dico
    Reference.some_blockinfo false (Reference.volume Reference.payload 0)
  = (0,
     mkBlockOut 0
       (mkBlock (Some [x00; x00; x00; x00; x00; x00]) 6 4096
                (Reference.fletcher32_ref Reference.payload + 1) 0 0 4 4),
     mkWorld Reference.payload 0 1048570
       [EvSeekCur (-4); EvMalloc 6; EvFree 4;
        EvErr "block is corrupt at offset=%ld, blksize=%ld";
        EvRead 4 4; EvMalloc 4]).
Proof.
  apply (@read_block_corrupt Reference.externals
           (Reference.reader 7 0 "backup.fsa") Reference.corrupt_block_dico
           Reference.some_blockinfo (Reference.volume Reference.payload 0)
           4096 6 0 0 4 4 (Reference.fletcher32_ref Reference.payload + 1)
           Reference.payload).
  - cbn. lia.
  - repeat split; try reflexivity. vm_compute. discriminate.
  - split; [cbn; lia | exists []; reflexivity].
  - reflexivity.
  - vm_compute. discriminate.
  - vm_compute. discriminate.
  - vm_compute. discriminate.
Defined.

(** ** archreader_volpath and archreader_incvolume *)

(** *** Strings *)

Lemma string_length_app (a b : string) :
  String.length (a ++ b) = (String.length a + String.length b)%nat.
Proof.
  induction a as [|c a IH]; cbn [append String.length]; [reflexivity|].
  now rewrite IH.
Qed.

Lemma substring_0_all (n : nat) (s : string) :
  (String.length s <= n)%nat -> substring 0 n s = s.
Proof.
  revert n; induction s as [|c s IH]; intros n H.
  - destruct n; reflexivity.
  - destruct n as [|n]; cbn [String.length] in H; [lia|].
    cbn [substring]. rewrite IH by lia. reflexivity.
Qed.

Lemma substring_0_length (n : nat) (s : string) :
  (n <= String.length s)%nat -> String.length (substring 0 n s) = n.
Proof.
  revert n; induction s as [|c s IH]; intros n H.
  - cbn [String.length] in H. destruct n; [reflexivity | lia].
  - destruct n as [|n]; [reflexivity|].
    cbn [String.length] in H. cbn [substring String.length].
    rewrite IH by lia. reflexivity.
Qed.

(** *** The decimal conversion of printf *)

Lemma digit_char_code (d : Z) :
  0 <= d <= 9 -> Z.of_nat (nat_of_ascii (digit_char d)) = 48 + d.
Proof.
  intros H. unfold digit_char.
  rewrite nat_ascii_embedding by lia. lia.
Qed.

Lemma dec_digits_value (fuel : nat) :
  forall (v : Z) (acc : string),
    0 <= v < 10 ^ Z.of_nat fuel ->
    dec_value (dec_digits fuel v acc)
    = v * 10 ^ Z.of_nat (String.length acc) + dec_value acc.
Proof.
  induction fuel as [|fuel IH]; intros v acc Hv.
  - cbn in Hv. cbn [dec_digits]. assert (v = 0) by lia. subst v. lia.
  - cbn [dec_digits].
    assert (Hm : 0 <= v mod 10 <= 9) by (pose proof (Z.mod_pos_bound v 10); lia).
    assert (Hd : v = 10 * (v / 10) + v mod 10) by (apply Z.div_mod; lia).
    destruct (v / 10 =? 0) eqn:Q.
    + apply Z.eqb_eq in Q. cbn [dec_value].
      rewrite digit_char_code by assumption. nia.
    + rewrite IH.
      * cbn [dec_value String.length].
        rewrite digit_char_code by assumption.
        rewrite Nat2Z.inj_succ, Z.pow_succ_r by lia. nia.
      * rewrite Nat2Z.inj_succ, Z.pow_succ_r in Hv by lia.
        split; [apply Z.div_pos; lia|].
        apply Z.div_lt_upper_bound; lia.
Qed.

Lemma dec_digits_all_digits (fuel : nat) :
  forall (v : Z) (acc : string),
    0 <= v ->
    all_digits acc = true ->
    all_digits (dec_digits fuel v acc) = true.
Proof.
  induction fuel as [|fuel IH]; intros v acc Hv Hacc; cbn [dec_digits].
  - exact Hacc.
  - assert (Hm : 0 <= v mod 10 <= 9) by (pose proof (Z.mod_pos_bound v 10); lia).
    assert (Hc : all_digits (String (digit_char (v mod 10)) acc) = true).
    { cbn [all_digits]. rewrite Hacc.
      pose proof (digit_char_code (v mod 10) Hm) as C.
      rewrite !andb_true_iff, !Nat.leb_le. repeat split; lia. }
    destruct (v / 10 =? 0); [exact Hc|].
    apply IH; [apply Z.div_pos; lia | exact Hc].
Qed.

(** The first digit of a positive number is not 0. *)
Lemma dec_digits_head (fuel : nat) :
  forall (v : Z) (acc : string),
    0 < v < 10 ^ Z.of_nat (S fuel) ->
    exists (d : Z) (rest : string),
      1 <= d <= 9 /\ dec_digits (S fuel) v acc = String (digit_char d) rest.
Proof.
  induction fuel as [|fuel IH]; intros v acc Hv.
  - cbn in Hv. cbn [dec_digits].
    assert (Q : v / 10 = 0) by (apply Z.div_small; lia).
    rewrite Q. cbn [Z.eqb].
    exists (v mod 10), acc. rewrite Z.mod_small by lia. split; [lia | reflexivity].
  - remember (S fuel) as f eqn:Ef.
    cbn [dec_digits].
    destruct (v / 10 =? 0) eqn:Q.
    + apply Z.eqb_eq in Q.
      assert (v < 10).
      { destruct (Z_lt_ge_dec v 10) as [L|G]; [exact L|].
        assert (1 <= v / 10) by (apply Z.div_le_lower_bound; lia). lia. }
      exists (v mod 10), acc. rewrite Z.mod_small by lia. split; [lia | reflexivity].
    + apply Z.eqb_neq in Q. subst f. apply IH.
      rewrite Nat2Z.inj_succ, Z.pow_succ_r in Hv by lia.
      split.
      * assert (0 <= v / 10) by (apply Z.div_pos; lia). lia.
      * apply Z.div_lt_upper_bound; lia.
Qed.

(** "%.2ld" of a volume number from 1 to 99. *)
Lemma fmt_ld_two_digits (k : Z) :
  1 <= k <= 99 ->
  fmt_ld 2 k = String (digit_char (k / 10)) (String (digit_char (k mod 10)) EmptyString).
Proof.
  intros H. unfold fmt_ld.
  rewrite Z.abs_eq by lia.
  destruct (k <? 0) eqn:N; [apply Z.ltb_lt in N; lia|].
  change 19%nat with (S (S 17)). cbn [dec_digits].
  destruct (k / 10 =? 0) eqn:Q.
  - apply Z.eqb_eq in Q. rewrite Q. reflexivity.
  - assert (Hq : 0 <= k / 10 < 10).
    { split; [apply Z.div_pos; lia | apply Z.div_lt_upper_bound; lia]. }
    rewrite (Z.mod_small (k / 10)) by lia.
    rewrite (Z.div_small (k / 10)) by lia.
    reflexivity.
Qed.

(** "%ld" of a volume number of type u32 from 100 on: its decimal digits,
    the first of them not 0. *)
Lemma fmt_ld_plain (k : Z) :
  100 <= k < 2 ^ 32 ->
  dec_value (fmt_ld 1 k) = k
  /\ all_digits (fmt_ld 1 k) = true
  /\ exists (d : Z) (rest : string),
       1 <= d <= 9 /\ fmt_ld 1 k = String (digit_char d) rest.
Proof.
  intros H. unfold fmt_ld.
  rewrite Z.abs_eq by lia.
  destruct (k <? 0) eqn:N; [apply Z.ltb_lt in N; lia|].
  assert (B : 0 < k < 10 ^ Z.of_nat 19)
    by (change (10 ^ Z.of_nat 19) with 10000000000000000000; lia).
  destruct (dec_digits_head 18 k EmptyString B) as (d & rest & Hd & Hs).
  rewrite Hs. cbn [String.length Nat.sub zeros append].
  rewrite <- Hs.
  split; [|split].
  - rewrite dec_digits_value by lia. cbn [String.length dec_value Z.of_nat]. lia.
  - apply dec_digits_all_digits; [lia | reflexivity].
  - exists d, rest. split; assumption.
Qed.

Section VolPath.
Context {E : Externals}.

Lemma drop_last2_length (s : string) :
  String.length (drop_last2 s) = (String.length s - 2)%nat.
Proof. unfold drop_last2. apply substring_0_length. lia. Qed.

(** The path of a volume after the first: nothing is cut when the result
    fits the array of PATH_MAX characters. *)
Lemma volpath_next (ai : carchreader) (w : world) (prec : nat) :
  (4 <= String.length (basepath ai))%nat ->
  curvol ai <> 0 ->
  prec = (if curvol ai <? 100 then 2%nat else 1%nat) ->
  (String.length (basepath ai) - 2 + String.length (fmt_ld prec (curvol ai))
   < PATH_MAX)%nat ->
  archreader_volpath ai w =
    (0, set_volpath (drop_last2 (basepath ai) ++ fmt_ld prec (curvol ai)) ai, w).
Proof.
  intros Hlen Hvol Hprec Hfit.
  unfold archreader_volpath.
  destruct (String.length (basepath ai) <? 4)%nat eqn:L;
    [apply Nat.ltb_lt in L; lia|].
  apply Z.eqb_neq in Hvol. rewrite Hvol.
  fold (drop_last2 (basepath ai)).
  assert (Htemp : (if curvol ai <? 100
                   then snprintf PATH_MAX (fmt_ld 2 (curvol ai))
                   else snprintf PATH_MAX (fmt_ld 1 (curvol ai)))
                  = fmt_ld prec (curvol ai)).
  { subst prec. unfold snprintf.
    destruct (curvol ai <? 100); apply substring_0_all; lia. }
  rewrite Htemp. unfold strlcat.
  rewrite drop_last2_length.
  destruct (PATH_MAX <=? String.length (basepath ai) - 2)%nat eqn:P;
    [apply Nat.leb_le in P; lia|].
  rewrite substring_0_all
    by (rewrite string_length_app, drop_last2_length; lia).
  reflexivity.
Qed.

(** *** C7 *)

(** C7.  archreader_volpath derives the path of the volume from the base
    path and the volume number, for a base path the function accepts (at
    least 4 characters, see C9) that is a string in its array of PATH_MAX
    characters.  Volume 0: the path realpath resolves, or the base path
    when realpath fails.  Volume k from 1 to 99: the base path without its
    last two characters, then the two decimal digits of k.  Volume k from
    100 on: the base path without its last two characters, then the
    decimal digits of k without a zero in front, as long as the result fits
    the array. *)
Theorem volpath_derivation :
  forall (ai : carchreader) (w : world),
    (4 <= String.length (basepath ai) < PATH_MAX)%nat ->
    0 <= curvol ai < 2 ^ 32 ->
    (curvol ai = 0 ->
       archreader_volpath ai w =
         (0,
          set_volpath (match realpath (basepath ai) with
                       | Some resolved => resolved
                       | None => basepath ai
                       end) ai,
          w))
    /\ (1 <= curvol ai <= 99 ->
          archreader_volpath ai w =
            (0,
             set_volpath
               (drop_last2 (basepath ai)
                ++ String (digit_char (curvol ai / 10))
                     (String (digit_char (curvol ai mod 10)) EmptyString)) ai,
             w))
    /\ (100 <= curvol ai ->
          (String.length (basepath ai) - 2 + String.length (fmt_ld 1 (curvol ai))
           < PATH_MAX)%nat ->
          archreader_volpath ai w =
            (0, set_volpath (drop_last2 (basepath ai) ++ fmt_ld 1 (curvol ai)) ai, w)
          /\ dec_value (fmt_ld 1 (curvol ai)) = curvol ai
          /\ all_digits (fmt_ld 1 (curvol ai)) = true
          /\ exists (d : Z) (rest : string),
               1 <= d <= 9 /\ fmt_ld 1 (curvol ai) = String (digit_char d) rest).
Proof.
  intros ai w Hlen Hvol. split; [|split].
  - intros H0. unfold archreader_volpath.
    destruct (String.length (basepath ai) <? 4)%nat eqn:L;
      [apply Nat.ltb_lt in L; lia|].
    rewrite H0. cbn [Z.eqb].
    destruct (realpath (basepath ai)); [reflexivity|].
    unfold snprintf. rewrite substring_0_all by lia. reflexivity.
  - intros Hk.
    rewrite <- fmt_ld_two_digits by assumption.
    apply volpath_next.
    + lia.
    + lia.
    + destruct (curvol ai <? 100) eqn:C; [reflexivity | apply Z.ltb_ge in C; lia].
    + rewrite fmt_ld_two_digits by assumption. cbn [String.length]. lia.
  - intros Hk Hfit. split.
    + apply volpath_next.
      * lia.
      * lia.
      * destruct (curvol ai <? 100) eqn:C; [apply Z.ltb_lt in C; lia | reflexivity].
      * exact Hfit.
    + apply fmt_ld_plain. lia.
Qed.

(** *** C9 *)

(** C9.  With a base path of fewer than 4 characters archreader_volpath
    returns -1 and leaves the reader as it was, the volume path included;
    archreader_incvolume increments the volume number and returns the -1 of
    archreader_volpath, the volume path untouched. *)
Theorem volpath_short_basepath :
  forall (ai : carchreader) (w : world) (waitkeypress : bool),
    (String.length (basepath ai) < 4)%nat ->
    archreader_volpath ai w
      = (-1, ai, errprintf "archive has an invalid basepath: [%s]" w)
    /\ archreader_incvolume ai waitkeypress w
       = (-1, set_curvol ((curvol ai + 1) mod 2 ^ 32) ai,
          errprintf "archive has an invalid basepath: [%s]" w)
    /\ volpath (snd (fst (archreader_incvolume ai waitkeypress w))) = volpath ai.
Proof.
  intros ai w waitkeypress H.
  assert (V : forall a, basepath a = basepath ai ->
                        archreader_volpath a w
                        = (-1, a, errprintf "archive has an invalid basepath: [%s]" w)).
  { intros a Ha. unfold archreader_volpath. rewrite Ha.
    apply Nat.ltb_lt in H. rewrite H. reflexivity. }
  split; [apply V; reflexivity|].
  unfold archreader_incvolume.
  rewrite V by reflexivity.
  split; reflexivity.
Qed.

End VolPath.

(** [volpath_derivation] on the base path "backup.fsa": volume 1 is
    "backup.f01" and volume 100 is "backup.f100"; volume 0 is what realpath
    resolves. *)
Lemma volpath_derivation_witness :
  volpath (snd (fst (@archreader_volpath Reference.externals
                       (Reference.reader 7 0 "backup.fsa") (Reference.volume [] 0))))
  = "/backup.fsa"%string
  /\ volpath (snd (fst (@archreader_volpath Reference.externals
                          (Reference.reader 7 1 "backup.fsa") (Reference.volume [] 0))))
     = "backup.f01"%string
  /\ volpath (snd (fst (@archreader_volpath Reference.externals
                          (Reference.reader 7 100 "backup.fsa") (Reference.volume [] 0))))
     = "backup.f100"%string.
Proof.
  split; [|split].
  - rewrite (proj1 (@volpath_derivation Reference.externals
                      (Reference.reader 7 0 "backup.fsa") (Reference.volume [] 0)
                      ltac:(cbn; lia) ltac:(cbn; lia))) by reflexivity.
    reflexivity.
  - rewrite (proj1 (proj2 (@volpath_derivation Reference.externals
                      (Reference.reader 7 1 "backup.fsa") (Reference.volume [] 0)
                      ltac:(cbn; lia) ltac:(cbn; lia)))) by (cbn; lia).
    reflexivity.
  - rewrite (proj1 (proj2 (proj2 (@volpath_derivation Reference.externals
                      (Reference.reader 7 100 "backup.fsa") (Reference.volume [] 0)
                      ltac:(cbn; lia) ltac:(cbn; lia))) ltac:(cbn; lia) ltac:(cbn; lia))).
    reflexivity.
Defined.

(** [volpath_short_basepath] on the base path "a.b". *)
Lemma volpath_short_basepath_witness :
  fst (fst (@archreader_volpath Reference.externals
              (Reference.reader 7 0 "a.b") (Reference.volume [] 0))) = -1
  /\ fst (fst (@archreader_incvolume Reference.externals
                 (Reference.reader 7 0 "a.b") true (Reference.volume [] 0))) = -1
  /\ volpath (snd (fst (@archreader_incvolume Reference.externals
                          (Reference.reader 7 0 "a.b") true (Reference.volume [] 0))))
     = EmptyString.
Proof.
  destruct (@volpath_short_basepath Reference.externals
              (Reference.reader 7 0 "a.b") (Reference.volume [] 0) true)
    as (A & B & C).
  { cbn. lia. }
  rewrite A, B. repeat split.
Defined.

(** ** archreader_read_volheader *)

Section VolHeader.
Context {E : Externals}.

Ltac vh_step H :=
  match type of H with
  | (if ?c then _ else _) = _ => destruct c eqn:?
  | (match (if ?c then _ else _) with _ => _ end) = _ => destruct c eqn:?
  | (match ?x with _ => _ end) = _ => destruct x eqn:?
  end.

Ltac vh_paths H :=
  unfold volheader_checks in H;
  repeat (vh_step H; cbv zeta in H; try discriminate H);
  inversion H; subst; clear H;
  cbn [archid filefmt curvol set_archid set_filefmt set_creatver
       file fpos errprintf emit] in *;
  repeat match goal with
         | Hq : (_ =? _) = true |- _ => apply Z.eqb_eq in Hq
         | Hq : (_ =? _) = false |- _ => apply Z.eqb_neq in Hq
         | Hq : negb _ = true |- _ => apply negb_true_iff in Hq
         | Hq : negb _ = false |- _ => apply negb_false_iff in Hq
         end.

(** Whatever the checks return, an identity and a file format that were
    established are still the ones of the reader, and the volume is where
    the header ended. *)
Lemma volheader_checks_inv (ai : carchreader) (magic : list byte)
      (od : option cdico) (w : world) (ret : Z) (ai' : carchreader) (w' : world) :
  volheader_checks ai magic od w = Returned (ret, ai') w' ->
  (archid ai <> 0 -> archid ai' = archid ai)
  /\ (byte_val (cchar (filefmt ai)) <> 0 -> filefmt ai' = filefmt ai)
  /\ file w' = file w /\ fpos w' = fpos w
  /\ (ret = 0 \/ ret = -1).
Proof.
  intros H. vh_paths H.
  all: repeat split; try reflexivity; auto.
  all: intros Hne; try congruence.
  all: destruct (byte_val (cchar (creatver ai)) =? 0);
    cbn [archid filefmt set_archid set_filefmt set_creatver];
    congruence.
Qed.

(** The checks return 0 only for a header that agrees with the session. *)
Lemma volheader_checks_success (ai : carchreader) (magic : list byte)
      (d : cdico) (w : world) (ai' : carchreader) (w' : world) :
  volheader_checks ai magic (Some d) w = Returned (0, ai') w' ->
  strncmp magic FSA_MAGIC_VOLH FSA_SIZEOF_MAGIC = 0
  /\ (exists readid,
         dico_get_u32 d 0 VOLUMEHEADKEY_ARCHID = Some readid
         /\ (archid ai = 0 \/ readid = archid ai))
  /\ dico_get_u32 d 0 VOLUMEHEADKEY_VOLNUM = Some (curvol ai)
  /\ (exists fmt,
         dico_get_data d 0 VOLUMEHEADKEY_FILEFORMATVER FSA_MAX_FILEFMTLEN = Some fmt
         /\ (byte_val (cchar (filefmt ai)) = 0
             \/ strncmp fmt (filefmt ai) FSA_MAX_FILEFMTLEN = 0)).
Proof.
  intros H. vh_paths H.
  all: repeat split; eauto; congruence.
Qed.


(** With no identity established the reader takes the identity of the
    dictionary, whatever it is, when the checks get that far. *)
Lemma volheader_checks_unset (ai : carchreader) (magic : list byte)
      (d : cdico) (w : world) (readid ret : Z) (ai' : carchreader) (w' : world) :
  archid ai = 0 ->
  dico_get_u32 d 0 VOLUMEHEADKEY_ARCHID = Some readid ->
  volheader_checks ai magic (Some d) w = Returned (ret, ai') w' ->
  archid ai' = 0 \/ archid ai' = readid.
Proof.
  intros Ha Hid H. vh_paths H.
  all: try (left; assumption).
  all: try (left; congruence).
  all: right;
    try destruct (byte_val (cchar (creatver ai)) =? 0);
    cbn [archid set_archid set_filefmt set_creatver];
    congruence.
Qed.

Lemma volheader_checks_accepts (ai : carchreader) (magic : list byte)
      (d : cdico) (w : world) (readid : Z) (fmt ver : list byte) :
  archid ai = 0 ->
  strncmp magic FSA_MAGIC_VOLH FSA_SIZEOF_MAGIC = 0 ->
  dico_get_u32 d 0 VOLUMEHEADKEY_ARCHID = Some readid ->
  dico_get_u32 d 0 VOLUMEHEADKEY_VOLNUM = Some (curvol ai) ->
  dico_get_data d 0 VOLUMEHEADKEY_FILEFORMATVER FSA_MAX_FILEFMTLEN = Some fmt ->
  byte_val (cchar (filefmt ai)) = 0
  \/ strncmp fmt (filefmt ai) FSA_MAX_FILEFMTLEN = 0 ->
  dico_get_data d 0 VOLUMEHEADKEY_PROGVERCREAT FSA_MAX_PROGVERLEN = Some ver ->
  exists ai',
    volheader_checks ai magic (Some d) w = Returned (0, ai') w
    /\ archid ai' = readid.
Proof.
  intros Ha Hm Hid Hvol Hfmt Hf Hver.
  unfold volheader_checks.
  rewrite Hm. cbn [Z.eqb negb].
  rewrite Hid, Ha. cbn [Z.eqb].
  cbn [curvol filefmt creatver set_archid].
  rewrite Hvol, Z.eqb_refl. cbn [negb].
  rewrite Hfmt.
  destruct (byte_val (cchar (filefmt ai)) =? 0) eqn:Q.
  - rewrite Hver. cbv zeta. eexists. split; [reflexivity|].
    cbn [creatver set_filefmt set_archid].
    destruct (byte_val (cchar (creatver ai)) =? 0); reflexivity.
  - destruct Hf as [Hf|Hf]; [apply Z.eqb_neq in Q; contradiction|].
    rewrite Hf. cbn [Z.eqb negb].
    rewrite Hver. cbv zeta. eexists. split; [reflexivity|].
    cbn [creatver set_filefmt set_archid].
    destruct (byte_val (cchar (creatver ai)) =? 0); reflexivity.
Qed.


(** *** C6 *)


End VolHeader.


(** * Further properties of archreader.c *)

(** ** Reads at the end of the volume *)

Lemma remaining_nonneg (w : world) (bs : list byte) : remaining w bs -> 0 <= fpos w.
Proof. now intros [H _]. Qed.

Lemma remaining_pending (w : world) (a b : list byte) :
  remaining w (a ++ b) -> pending w a.
Proof. intros [H Hs]. split; [exact H | now exists b]. Qed.

Lemma pending_remaining (w : world) (a : list byte) :
  pending w a -> exists rest, remaining w (a ++ rest).
Proof. intros [H [rest Hs]]. exists rest. now split. Qed.

(** A read of bytes that are there, with what is left behind them. *)
Lemma sys_read_remaining (fd : Z) (w : world) (a b : list byte) :
  0 <= fd ->
  remaining w (a ++ b) ->
  let n := Z.of_nat (length a) in
  let w' := mkWorld (file w) (fpos w + n) (heap w) (EvRead n n :: log w) in
  sys_read fd n w = (n, a, w') /\ remaining w' b.
Proof.
  intros Hfd Hr n w'.
  destruct (sys_read_pending fd w a b Hfd) as [R _].
  { destruct Hr as [H Hs]. split; [exact H|]. exists []. now rewrite app_nil_r. }
  split; [exact R|].
  destruct Hr as [Hpos Hs]. split; [cbn; lia|].
  subst w' n. cbn [fpos file].
  rewrite Z2Nat.inj_add, Nat2Z.id by lia.
  rewrite <- skipn_skipn_add, Hs.
  rewrite skipn_app, skipn_all, Nat.sub_diag. reflexivity.
Qed.

Lemma read_data_remaining {E : Externals} (ai : carchreader) (w : world)
      (a b : list byte) :
  0 <= archfd ai ->
  remaining w (a ++ b) ->
  let n := Z.of_nat (length a) in
  let w' := mkWorld (file w) (fpos w + n) (heap w) (EvRead n n :: log w) in
  archreader_read_data ai n w = (0, a, w') /\ remaining w' b.
Proof.
  intros Hfd Hr n w'.
  destruct (sys_read_remaining (archfd ai) w a b Hfd Hr) as [R Hr'].
  unfold archreader_read_data. fold n in R. rewrite R.
  rewrite Z.eqb_refl. cbn. split; [reflexivity | exact Hr'].
Qed.

(** A read of more bytes than are left is short: archreader_read_data
    fails, with the offset at the end of the volume. *)
Lemma read_data_short {E : Externals} (ai : carchreader) (w : world)
      (bs : list byte) (n : Z) :
  0 <= archfd ai ->
  remaining w bs ->
  Z.of_nat (length bs) < n ->
  let k := Z.of_nat (length bs) in
  archreader_read_data ai n w
  = (-1, bs,
     mkWorld (file w) (fpos w + k) (heap w)
             (EvErr "read failed: read(size=%ld)=%ld" :: EvRead n k :: log w)).
Proof.
  intros Hfd [Hpos Hs] Hn k.
  unfold archreader_read_data, sys_read.
  destruct (archfd ai <? 0) eqn:F; [apply Z.ltb_lt in F; lia|].
  rewrite Hs, firstn_all2 by lia. fold k.
  destruct (k =? n) eqn:Q; [apply Z.eqb_eq in Q; lia|].
  reflexivity.
Qed.

(** Whatever archreader_read_data returns, the volume and the allocator
    are as before and the offset has not moved back. *)
Lemma read_data_frame {E : Externals} (ai : carchreader) (n : Z) (w w' : world)
      (r : Z) (got : list byte) :
  archreader_read_data ai n w = (r, got, w') ->
  file w' = file w /\ heap w' = heap w /\ fpos w <= fpos w'.
Proof.
  unfold archreader_read_data, sys_read. intros H.
  destruct (archfd ai <? 0).
  - cbv beta iota in H.
    destruct (negb (-1 =? n)); inversion H; subst;
      unfold sysprintf, emit; cbn [file heap fpos]; repeat split; lia.
  - cbv beta iota zeta in H.
    destruct (negb (_ =? n)); inversion H; subst;
      unfold sysprintf, emit; cbn [file heap fpos]; repeat split; lia.
Qed.

(** ** archreader_read_dico on the records of a region *)

Section Decode.
Context {E : Externals}.

Lemma skipn_app_plus {A : Type} (a l : list A) (j : nat) :
  skipn (length a + j) (a ++ l) = skipn j l.
Proof.
  rewrite skipn_app.
  replace (length a + j - length a)%nat with j by lia.
  rewrite skipn_all2 by lia. reflexivity.
Qed.

Lemma le_to_cpu_1 (v : Z) : 0 <= v < 256 -> le_to_cpu (cpu_to_le 1 v) = v.
Proof. intros H. apply le_to_cpu_to_le. exact H. Qed.

Lemma le_to_cpu_2 (v : Z) : 0 <= v < 65536 -> le_to_cpu (cpu_to_le 2 v) = v.
Proof. intros H. apply le_to_cpu_to_le. exact H. Qed.

Lemma item_bytes_length (it : dicoitem) :
  length (item_bytes it) = (6 + length (item_data it))%nat.
Proof.
  unfold item_bytes. rewrite !length_app, !cpu_to_le_length. lia.
Qed.

(** The loop on records laid out one behind the other hands each of them
    to dico_add_generic, in order, and stops at the first that is
    refused. *)
Lemma read_items_laid_out (items : list dicoitem) :
  Forall item_wellformed items ->
  forall (pre post : list byte) (d : cdico),
    read_items (length items) (pre ++ concat (map item_bytes items) ++ post)
               (length pre) d
    = if fst (add_items d items)
      then ItemsDone (snd (add_items d items))
      else ItemsFailed (snd (add_items d items)).
Proof.
  induction 1 as [|it items Hit Hitems IH]; intros pre post d.
  - reflexivity.
  - destruct Hit as (Ht & Hs & Hk & Hz & Hd).
    cbn [map concat length].
    set (tail := concat (map item_bytes items) ++ post).
    assert (HB : pre ++ (item_bytes it ++ concat (map item_bytes items)) ++ post
                 = pre ++ item_bytes it ++ tail)
      by (subst tail; now rewrite <- app_assoc).
    rewrite HB.
    assert (Hdl : Z.to_nat (item_size it) = length (item_data it)) by lia.
    assert (S0 : forall j, skipn (length pre + j) (pre ++ item_bytes it ++ tail)
                           = skipn j (item_bytes it ++ tail))
      by (intros j; apply skipn_app_plus).
    assert (F4 : le_to_cpu (firstn 2 (skipn (length pre + 4)
                                            (pre ++ item_bytes it ++ tail)))
                 = item_size it).
    { rewrite S0. unfold item_bytes. cbn [cpu_to_le app skipn firstn].
      apply (le_to_cpu_2 _ Hz). }
    rewrite read_items_step_fit.
    + rewrite F4, !S0.
      replace (skipn (length pre) (pre ++ item_bytes it ++ tail))
        with (skipn 0 (item_bytes it ++ tail))
        by (rewrite <- (S0 0%nat), Nat.add_0_r; reflexivity).
      unfold item_bytes at 1 2 3 4. cbn [cpu_to_le app skipn firstn].
      rewrite Hdl, firstn_app, firstn_all, Nat.sub_diag, firstn_O, app_nil_r.
      change [byte_of_Z (item_section it)] with (cpu_to_le 1 (item_section it)).
      change [byte_of_Z (item_type it)] with (cpu_to_le 1 (item_type it)).
      change [byte_of_Z (item_key it); byte_of_Z (item_key it / 256)]
        with (cpu_to_le 2 (item_key it)).
      rewrite (le_to_cpu_1 _ Hs), (le_to_cpu_1 _ Ht), (le_to_cpu_2 _ Hk).
      cbn [add_items].
      destruct (dico_add_generic d (item_section it) (item_key it) (item_data it)
                                 (item_size it) (item_type it)) as [d'|];
        [|reflexivity].
      replace (length pre + 6 + length (item_data it))%nat
        with (length (pre ++ item_bytes it))
        by (rewrite length_app, item_bytes_length; lia).
      replace (pre ++ item_bytes it ++ tail)
        with ((pre ++ item_bytes it) ++ concat (map item_bytes items) ++ post)
        by (subst tail; now rewrite <- app_assoc).
      apply IH.
    + rewrite !length_app, item_bytes_length. lia.
    + rewrite F4, !length_app, item_bytes_length. lia.
Qed.

(** archreader_read_dico on a header whose region is laid out as the
    record count, the records, and bytes no record claims. *)
Lemma read_dico_laid_out (ai : carchreader) (d : cdico) (w : world)
      (len sum : list byte) (items : list dicoitem) (slack : list byte) :
  let region := region_of items slack in
  let L := le_to_cpu len in
  let w4 := mkWorld (file w) (fpos w + 2 + L + 4) (heap w - L)
              (EvRead 4 4 :: EvRead L L :: EvMalloc L :: EvRead 2 2 :: log w) in
  0 <= archfd ai ->
  pending w (len ++ region ++ sum) ->
  length len = 2%nat -> length sum = 4%nat ->
  Z.of_nat (length region) = L ->
  L <= heap w ->
  fletcher32 region = le_to_cpu sum ->
  Z.of_nat (length items) < 65536 ->
  Forall item_wellformed items ->
  archreader_read_dico ai d w =
    if fst (add_items d items)
    then Returned (ERR_SUCCESS, snd (add_items d items)) (sys_free L w4)
    else Returned (ERR_FATAL, snd (add_items d items)) w4.
Proof.
  intros region L w4 Hfd Hp Hlen Hsum HL Hheap Hok Hcount Hwf.
  rewrite (read_dico_prologue ai d w len region sum) by assumption.
  apply Z.eqb_eq in Hok. rewrite Hok. cbn [negb]. fold L. fold w4.
  assert (H2 : (2 <= length region)%nat).
  { subst region. unfold region_of. rewrite length_app, cpu_to_le_length. lia. }
  rewrite (buf_get_inside region 0 2) by lia. cbn [skipn].
  assert (Hc : firstn 2 region = cpu_to_le 2 (Z.of_nat (length items))).
  { subst region. unfold region_of. cbn [cpu_to_le app firstn]. reflexivity. }
  rewrite Hc, le_to_cpu_2, Nat2Z.id by lia.
  change 2%nat with (length (cpu_to_le 2 (Z.of_nat (length items)))) at 1.
  subst region. unfold region_of.
  rewrite (read_items_laid_out items Hwf).
  destruct (fst (add_items d items)); reflexivity.
Qed.

End Decode.

Section DicoProps.
Context {E : Externals}.

(** A header on a region of well-formed records is decoded into the
    dictionary: every record is added, in the order of the region; the
    bytes behind the last record are not looked at; the buffer is freed and
    the volume is read to the end of the checksum. *)
Theorem read_dico_decodes :
  forall (ai : carchreader) (d : cdico) (w : world) (len sum : list byte)
         (items : list dicoitem) (slack : list byte),
    0 <= archfd ai ->
    pending w (len ++ region_of items slack ++ sum) ->
    length len = 2%nat -> length sum = 4%nat ->
    Z.of_nat (length (region_of items slack)) = le_to_cpu len ->
    le_to_cpu len <= heap w ->
    fletcher32 (region_of items slack) = le_to_cpu sum ->
    Z.of_nat (length items) < 65536 ->
    Forall item_wellformed items ->
    fst (add_items d items) = true ->
    let L := le_to_cpu len in
    archreader_read_dico ai d w =
      Returned (ERR_SUCCESS, snd (add_items d items))
        (mkWorld (file w) (fpos w + 2 + L + 4) (heap w)
           (EvFree L :: EvRead 4 4 :: EvRead L L :: EvMalloc L :: EvRead 2 2
            :: log w)).
Proof.
  intros ai d w len sum items slack Hfd Hp Hlen Hsum HL Hheap Hok Hcount Hwf Hadd L.
  rewrite (read_dico_laid_out ai d w len sum items slack) by assumption.
  rewrite Hadd. unfold sys_free. cbn [file fpos heap log]. fold L.
  do 2 f_equal. lia.
Qed.

(** When dico_add_generic refuses a record of the region,
    archreader_read_dico returns ERR_FATAL with the records before it in
    the dictionary, and it does not free the buffer of the header: the
    allocator is short of its [L] bytes and the log has no free. *)
Theorem read_dico_add_failure_leaks :
  forall (ai : carchreader) (d : cdico) (w : world) (len sum : list byte)
         (items : list dicoitem) (slack : list byte),
    0 <= archfd ai ->
    pending w (len ++ region_of items slack ++ sum) ->
    length len = 2%nat -> length sum = 4%nat ->
    Z.of_nat (length (region_of items slack)) = le_to_cpu len ->
    le_to_cpu len <= heap w ->
    fletcher32 (region_of items slack) = le_to_cpu sum ->
    Z.of_nat (length items) < 65536 ->
    Forall item_wellformed items ->
    fst (add_items d items) = false ->
    let L := le_to_cpu len in
    archreader_read_dico ai d w =
      Returned (ERR_FATAL, snd (add_items d items))
        (mkWorld (file w) (fpos w + 2 + L + 4) (heap w - L)
           (EvRead 4 4 :: EvRead L L :: EvMalloc L :: EvRead 2 2 :: log w)).
Proof.
  intros ai d w len sum items slack Hfd Hp Hlen Hsum HL Hheap Hok Hcount Hwf Hadd L.
  rewrite (read_dico_laid_out ai d w len sum items slack) by assumption.
  rewrite Hadd. reflexivity.
Qed.

Lemma le_to_cpu_nonneg (bs : list byte) : 0 <= le_to_cpu bs.
Proof.
  induction bs as [|b bs IH]; cbn [le_to_cpu]; [lia|].
  pose proof (byte_val_range b). lia.
Qed.

Lemma malloc_frame (n : Z) (w w' : world) (ok : bool) :
  sys_malloc n w = (ok, w') ->
  file w' = file w /\ fpos w' = fpos w
  /\ heap w' = (if ok then heap w - n else heap w).
Proof.
  unfold sys_malloc. intros H.
  destruct (n <=? heap w); inversion H; subst; cbn; repeat split.
Qed.

Lemma read_dico_frame :
  forall (ai : carchreader) (d : cdico) (w : world)
         (code : errcode) (d' : cdico) (w' : world),
    archreader_read_dico ai d w = Returned (code, d') w' ->
    file w' = file w
    /\ fpos w <= fpos w'
    /\ (code <> ERR_FATAL -> heap w' = heap w)
    /\ (code = ERR_MINOR -> d' = d).
Proof.
  intros ai d w code d' w'. unfold archreader_read_dico.
  destruct (archreader_read_data ai 2 w) as [[r1 b1] w1] eqn:R1.
  apply read_data_frame in R1. destruct R1 as (F1 & H1 & P1).
  destruct (negb (r1 =? 0)).
  { intros H. inversion H; subst. unfold errprintf, emit. cbn [file fpos heap].
    repeat split; try congruence; try lia. }
  destruct (sys_malloc (le_to_cpu b1) w1) as [ok w2] eqn:M.
  apply malloc_frame in M. destruct M as (F2 & P2 & H2).
  destruct ok; cbn [negb].
  2:{ intros H. inversion H; subst. unfold errprintf, emit. cbn [file fpos heap].
      repeat split; try congruence; try lia. }
  destruct (archreader_read_data ai (le_to_cpu b1) w2) as [[r2 b2] w3] eqn:R2.
  apply read_data_frame in R2. destruct R2 as (F3 & H3 & P3).
  destruct (negb (r2 =? 0)).
  { intros H. inversion H; subst. unfold sys_free, errprintf, emit.
    cbn [file fpos heap]. repeat split; try congruence; try lia. }
  destruct (archreader_read_data ai 4 w3) as [[r3 b3] w4] eqn:R3.
  apply read_data_frame in R3. destruct R3 as (F4 & H4 & P4).
  destruct (negb (r3 =? 0)).
  { intros H. inversion H; subst. unfold sys_free, errprintf, emit.
    cbn [file fpos heap]. repeat split; try congruence; try lia. }
  destruct (negb (fletcher32 b2 =? le_to_cpu b3)).
  { intros H. inversion H; subst. unfold sys_free, errprintf, emit.
    cbn [file fpos heap]. repeat split; try congruence; try lia. }
  destruct (buf_get b2 0 2); [|discriminate].
  destruct (read_items _ b2 2 d); intros H; inversion H; subst;
    unfold sys_free; cbn [file fpos heap];
    repeat split; try congruence; try lia.
Qed.

(** What archreader_read_dico keeps, whatever the volume holds: the bytes
    of the volume and an offset that has not moved back; and when the
    result is ERR_MINOR, where no record has been handed to the dictionary
    module, the allocator (the buffer of the header has been freed) and the
    dictionary. *)
Theorem read_dico_keeps :
  forall (ai : carchreader) (d : cdico) (w : world)
         (code : errcode) (d' : cdico) (w' : world),
    archreader_read_dico ai d w = Returned (code, d') w' ->
    file w' = file w
    /\ fpos w <= fpos w'
    /\ (code = ERR_MINOR -> heap w' = heap w /\ d' = d).
Proof.
  intros ai d w code d' w' H.
  destruct (read_dico_frame ai d w code d' w' H) as (F & P & Hh & Hd).
  split; [exact F|]. split; [exact P|].
  intros Hc. split; [apply Hh; rewrite Hc; discriminate | exact (Hd Hc)].
Qed.

(** A header that the volume ends in, before the end of its checksum:
    archreader_read_dico returns ERR_FATAL, the dictionary as it was given,
    the buffer freed, the offset at the end of the volume. *)
Theorem read_dico_truncated :
  forall (ai : carchreader) (d : cdico) (w : world) (len rest : list byte),
    0 <= archfd ai ->
    remaining w (len ++ rest) ->
    length len = 2%nat ->
    Z.of_nat (length rest) < le_to_cpu len + 4 ->
    le_to_cpu len <= heap w ->
    exists w',
      archreader_read_dico ai d w = Returned (ERR_FATAL, d) w'
      /\ file w' = file w
      /\ heap w' = heap w
      /\ fpos w' = fpos w + 2 + Z.of_nat (length rest).
Proof.
  intros ai d w len rest Hfd Hr Hlen Hshort Hheap.
  unfold archreader_read_dico.
  destruct (read_data_remaining ai w len rest Hfd Hr) as [R1 Hr1].
  rewrite Hlen in R1, Hr1. change (Z.of_nat 2) with 2 in R1, Hr1.
  rewrite R1. cbn [negb Z.eqb].
  set (L := le_to_cpu len) in *.
  unfold sys_malloc. cbn [heap file fpos log].
  destruct (L <=? heap w) eqn:Hm; [|apply Z.leb_gt in Hm; lia].
  cbn [negb].
  set (w2 := mkWorld (file w) (fpos w + 2) (heap w - L)
                     (EvMalloc L :: EvRead 2 2 :: log w)).
  assert (Hr2 : remaining w2 rest) by (destruct Hr1 as [A B]; split; assumption).
  destruct (Z_lt_ge_dec (Z.of_nat (length rest)) L) as [Hlt|Hge].
  - rewrite (read_data_short ai w2 rest L Hfd Hr2 Hlt).
    cbn [negb Z.eqb]. eexists. split; [reflexivity|].
    unfold sys_free, errprintf, emit. subst w2. cbn [file fpos heap log].
    repeat split; lia.
  - assert (HL0 : 0 <= L) by apply le_to_cpu_nonneg.
    assert (Hsplit : rest = firstn (Z.to_nat L) rest ++ skipn (Z.to_nat L) rest)
      by (now rewrite firstn_skipn).
    assert (Hfl : Z.of_nat (length (firstn (Z.to_nat L) rest)) = L)
      by (rewrite firstn_length_le; lia).
    rewrite Hsplit in Hr2.
    destruct (read_data_remaining ai w2 _ _ Hfd Hr2) as [R2 Hr3].
    rewrite Hfl in R2, Hr3. rewrite R2. cbn [negb Z.eqb].
    assert (Hpart : Z.of_nat (length (skipn (Z.to_nat L) rest)) < 4)
      by (rewrite length_skipn; lia).
    rewrite (read_data_short ai _ _ 4 Hfd Hr3 Hpart).
    cbn [negb Z.eqb]. eexists. split; [reflexivity|].
    unfold sys_free, errprintf, emit. subst w2. cbn [file fpos heap log].
    rewrite length_skipn. repeat split; lia.
Qed.

End DicoProps.

Ltac wellformed_items :=
  repeat (constructor; [repeat split; cbn; lia|]); constructor.

(** [read_dico_decodes] on a region of two records and two bytes of
    slack: the dictionary is the two records. *)
Lemma read_dico_decodes_witness :
  @archreader_read_dico Reference.externals
    (Reference.reader 0 0 "backup.fsa") []
    (Reference.volume (Reference.frame Samples.slack_region) 0)
  = Returned (ERR_SUCCESS, Samples.two_items)
      (mkWorld (Reference.frame Samples.slack_region) 37 1048576
         [EvFree 31; EvRead 4 4; EvRead 31 31; EvMalloc 31; EvRead 2 2]).
Proof.
  apply (@read_dico_decodes Reference.externals
           (Reference.reader 0 0 "backup.fsa") []
           (Reference.volume (Reference.frame Samples.slack_region) 0)
           (Reference.frame_len Samples.slack_region)
           (Reference.frame_sum Samples.slack_region)
           Samples.two_items [xaa; xbb]).
  - cbn. lia.
  - split; [cbn; lia | exists []; reflexivity].
  - reflexivity.
  - reflexivity.
  - reflexivity.
  - vm_compute. discriminate.
  - vm_compute. reflexivity.
  - cbn. lia.
  - wellformed_items.
  - reflexivity.
Defined.

(** [read_dico_add_failure_leaks] with a dictionary module that refuses
    a key it holds already, on a region of two records with one key: the 22
    bytes of the buffer stay allocated. *)
Lemma read_dico_add_failure_leaks_witness :
  @archreader_read_dico Samples.externals_unique
    (Reference.reader 0 0 "backup.fsa") []
    (Reference.volume (Reference.frame (region_of Samples.twice [])) 0)
  = Returned (ERR_FATAL, [Reference.item_u32 1 7])
      (mkWorld (Reference.frame (region_of Samples.twice [])) 28 (1048576 - 22)
         [EvRead 4 4; EvRead 22 22; EvMalloc 22; EvRead 2 2]).
Proof.
  apply (@read_dico_add_failure_leaks Samples.externals_unique
           (Reference.reader 0 0 "backup.fsa") []
           (Reference.volume (Reference.frame (region_of Samples.twice [])) 0)
           (Reference.frame_len (region_of Samples.twice []))
           (Reference.frame_sum (region_of Samples.twice []))
           Samples.twice []).
  - cbn. lia.
  - split; [cbn; lia | exists []; reflexivity].
  - reflexivity.
  - reflexivity.
  - reflexivity.
  - vm_compute. discriminate.
  - vm_compute. reflexivity.
  - cbn. lia.
  - wellformed_items.
  - reflexivity.
Defined.

(** [read_dico_keeps] on the frame with a flipped byte, where the result
    is ERR_MINOR. *)
Lemma read_dico_keeps_witness :
  let w := Reference.volume Reference.flipped_frame 0 in
  let w' := mkWorld Reference.flipped_frame 57 1048576
              [EvFree 51; EvErr "bad checksum for header"; EvRead 4 4;
               EvRead 51 51; EvMalloc 51; EvRead 2 2] in
  file w' = file w
  /\ fpos w <= fpos w'
  /\ (ERR_MINOR = ERR_MINOR -> heap w' = heap w /\ @nil dicoitem = []).
Proof.
  intros w w'.
  apply (@read_dico_keeps Reference.externals
           (Reference.reader 0 0 "backup.fsa") [] w ERR_MINOR [] w').
  vm_compute. reflexivity.
Defined.

(** [read_dico_truncated] on a frame of 57 bytes cut after 10 bytes,
    inside the region, and cut after 55 bytes, inside the checksum. *)
Lemma read_dico_truncated_witness :
  (exists w',
      @archreader_read_dico Reference.externals
        (Reference.reader 0 0 "backup.fsa") []
        (Reference.volume Samples.cut_in_region 0)
      = Returned (ERR_FATAL, []) w'
      /\ file w' = Samples.cut_in_region /\ heap w' = 1048576
      /\ fpos w' = 0 + 2 + 8)
  /\ (exists w',
         @archreader_read_dico Reference.externals
           (Reference.reader 0 0 "backup.fsa") []
           (Reference.volume Samples.cut_in_checksum 0)
         = Returned (ERR_FATAL, []) w'
         /\ file w' = Samples.cut_in_checksum /\ heap w' = 1048576
         /\ fpos w' = 0 + 2 + 53).
Proof.
  split.
  - apply (@read_dico_truncated Reference.externals
             (Reference.reader 0 0 "backup.fsa") []
             (Reference.volume Samples.cut_in_region 0)
             (firstn 2 Samples.cut_in_region) (skipn 2 Samples.cut_in_region)).
    + cbn. lia.
    + split; [cbn; lia | reflexivity].
    + reflexivity.
    + vm_compute. reflexivity.
    + vm_compute. discriminate.
  - apply (@read_dico_truncated Reference.externals
             (Reference.reader 0 0 "backup.fsa") []
             (Reference.volume Samples.cut_in_checksum 0)
             (firstn 2 Samples.cut_in_checksum) (skipn 2 Samples.cut_in_checksum)).
    + cbn. lia.
    + split; [cbn; lia | reflexivity].
    + reflexivity.
    + vm_compute. reflexivity.
    + vm_compute. discriminate.
Defined.

(** ** archreader_read_header on whole headers, closed readers and volumes
    without a marker *)

Section HeaderProps.
Context {E : Externals}.

Lemma lseek_frame (fd off : Z) (wh : whence) (w w' : world) (r : Z) :
  sys_lseek fd off wh w = (r, w') ->
  file w' = file w /\ heap w' = heap w.
Proof.
  unfold sys_lseek. intros H.
  destruct (fd <? 0); [inversion H; subst; split; reflexivity|].
  destruct (_ <? 0); inversion H; subst; split; reflexivity.
Qed.

(** What the resync loop keeps, and what it has found when it says so. *)
Lemma resync_scan_frame (ai : carchreader) :
  forall (fuel : nat) (curpos : Z) (magic : list byte) (w : world) (sc : scan_result),
    resync_scan fuel ai curpos magic w = Some sc ->
    file (scan_world sc) = file w
    /\ heap (scan_world sc) = heap w
    /\ (scan_found sc = true -> is_magic_valid (scan_magic sc) = true).
Proof.
  induction fuel as [|fuel IH]; intros curpos magic w sc H; cbn [resync_scan] in H.
  - destruct (is_magic_valid magic) eqn:V; [|discriminate].
    inversion H; subst. cbn. auto.
  - destruct (is_magic_valid magic) eqn:V; [inversion H; subst; cbn; auto|].
    destruct (sys_lseek (archfd ai) curpos SEEK_SET w) as [r w1] eqn:L.
    apply lseek_frame in L. destruct L as [F1 H1].
    destruct (r <? 0).
    { inversion H; subst. cbn. repeat split; try assumption; try discriminate. }
    destruct (archreader_read_data ai (Z.of_nat FSA_SIZEOF_MAGIC) w1)
      as [[res got] w2] eqn:R.
    apply read_data_frame in R. destruct R as (F2 & H2 & _).
    destruct (negb (res =? 0)).
    { inversion H; subst. cbn. repeat split; try congruence; try discriminate. }
    destruct (IH _ _ _ _ H) as (A & B & C).
    repeat split; try congruence; try exact C.
Qed.

Lemma read_header_magic_frame (ai : carchreader) (allowseek : bool) (w : world) :
  file (locate_world (read_header_magic ai allowseek w)) = file w
  /\ heap (locate_world (read_header_magic ai allowseek w)) = heap w
  /\ (forall magic d w1,
         read_header_magic ai allowseek w = Located magic d w1 ->
         is_magic_valid magic = true).
Proof.
  unfold read_header_magic.
  destruct dico_alloc as [d|]; [|cbn; repeat split; try discriminate].
  destruct (sys_lseek (archfd ai) 0 SEEK_CUR w) as [curpos w1] eqn:L.
  apply lseek_frame in L. destruct L as [F1 H1].
  destruct (curpos <? 0); [cbn; repeat split; try assumption; try discriminate|].
  destruct (archreader_read_data ai (Z.of_nat FSA_SIZEOF_MAGIC) w1)
    as [[res got] w2] eqn:R.
  apply read_data_frame in R. destruct R as (F2 & H2 & _).
  destruct (negb (res =? 0)); [cbn; repeat split; try congruence; try discriminate|].
  destruct (negb (is_magic_valid _) && negb allowseek);
    [cbn; repeat split; try congruence; try discriminate|].
  destruct (resync_scan (scan_bound w2) ai curpos _ w2) as [sc|] eqn:S;
    [|cbn; repeat split; try congruence; try discriminate].
  destruct (resync_scan_frame _ _ _ _ _ _ S) as (A & B & C).
  destruct (scan_found sc); cbn [locate_world]; repeat split; try congruence;
    try discriminate;
    try (intros magic d0 w0 Hl; inversion Hl; subst; now apply C).
Qed.

Lemma read_header_fields_frame (ai : carchreader) (magic : list byte) (d : cdico)
      (w : world) (code : errcode) (out : header_out) (w' : world) :
  read_header_fields ai magic d w = Returned (code, out) w' ->
  file w' = file w
  /\ h_magic out = magic
  /\ (exists d', h_dico out = Some d')
  /\ (code = ERR_SUCCESS -> heap w' = heap w).
Proof.
  unfold read_header_fields.
  destruct (archreader_read_data ai 4 w) as [[r1 b1] w1] eqn:R1.
  apply read_data_frame in R1. destruct R1 as (F1 & H1 & _).
  destruct (negb (r1 =? 0)).
  { intros H. inversion H; subst. cbn. repeat split; eauto; try discriminate. }
  destruct (negb (archid ai =? 0) && negb (le_to_cpu b1 =? archid ai)).
  { intros H. inversion H; subst. cbn. repeat split; eauto; try discriminate. }
  destruct (archreader_read_data ai 2 w1) as [[r2 b2] w2] eqn:R2.
  apply read_data_frame in R2. destruct R2 as (F2 & H2 & _).
  destruct (negb (r2 =? 0)).
  { intros H. inversion H; subst. cbn. repeat split; eauto; try congruence; try discriminate. }
  destruct (archreader_read_dico ai d w2) as [[res d'] w3|f w3] eqn:D;
    [|discriminate].
  destruct (read_dico_frame _ _ _ _ _ _ D) as (F3 & _ & H3 & _).
  destruct res; intros H; inversion H; subst; cbn;
    repeat split; eauto; try congruence; try discriminate.
  intros _. rewrite H3 by discriminate. congruence.
Qed.

(** When archreader_read_header returns ERR_SUCCESS the magic it hands
    back is a recognised one, the dictionary pointer is not NULL and the
    bytes of the volume are as before. *)
Theorem read_header_success :
  forall (ai : carchreader) (allowseek : bool) (w : world)
         (out : header_out) (w' : world),
    archreader_read_header ai allowseek w = Returned (ERR_SUCCESS, out) w' ->
    is_magic_valid (h_magic out) = true
    /\ (exists d, h_dico out = Some d)
    /\ file w' = file w.
Proof.
  intros ai allowseek w out w'. unfold archreader_read_header.
  destruct (read_header_magic_frame ai allowseek w) as (F & H & V).
  destruct (read_header_magic ai allowseek w) as [magic d w1|o w1|w1];
    cbn [locate_world] in *; try discriminate.
  intros Hf.
  destruct (read_header_fields_frame _ _ _ _ _ _ _ Hf) as (F2 & Hm & Hd & H2).
  rewrite Hm. repeat split.
  - now apply (V magic d w1).
  - exact Hd.
  - congruence.
Qed.

Lemma pending_after_read (w : world) (a b : list byte) (ev : list event) (h : Z) :
  pending w (a ++ b) ->
  pending (mkWorld (file w) (fpos w + Z.of_nat (length a)) h ev) b.
Proof.
  intros [Hpos [rest Hs]]. split; [cbn; lia|].
  exists rest. cbn [fpos file].
  rewrite Z2Nat.inj_add, Nat2Z.id by lia.
  rewrite <- skipn_skipn_add, Hs, <- app_assoc.
  rewrite skipn_app, skipn_all, Nat.sub_diag. reflexivity.
Qed.

(** archreader_read_header on a whole header that lies at the offset of
    the volume. *)
Lemma read_header_laid_out :
  forall (ai : carchreader) (allowseek : bool) (w : world)
         (magic idb fsidb len sum : list byte) (d0 : cdico)
         (items : list dicoitem) (slack : list byte),
    0 <= archfd ai ->
    dico_alloc = Some d0 ->
    pending w (magic ++ idb ++ fsidb ++ len ++ region_of items slack ++ sum) ->
    length magic = FSA_SIZEOF_MAGIC ->
    is_magic_valid magic = true ->
    length idb = 4%nat ->
    archid ai = 0 \/ le_to_cpu idb = archid ai ->
    length fsidb = 2%nat ->
    length len = 2%nat -> length sum = 4%nat ->
    Z.of_nat (length (region_of items slack)) = le_to_cpu len ->
    le_to_cpu len <= heap w ->
    fletcher32 (region_of items slack) = le_to_cpu sum ->
    Z.of_nat (length items) < 65536 ->
    Forall item_wellformed items ->
    fst (add_items d0 items) = true ->
    let M := Z.of_nat FSA_SIZEOF_MAGIC in
    let L := le_to_cpu len in
    archreader_read_header ai allowseek w =
      Returned (ERR_SUCCESS,
                mkHeaderOut magic (Some (snd (add_items d0 items)))
                            (le_to_cpu fsidb))
        (mkWorld (file w) (fpos w + M + 4 + 2 + 2 + L + 4) (heap w)
           (EvFree L :: EvRead 4 4 :: EvRead L L :: EvMalloc L :: EvRead 2 2
            :: EvRead 2 2 :: EvRead 4 4 :: EvRead M M :: EvSeekCur 0 :: log w)).
Proof.
  intros ai allowseek w magic idb fsidb len sum d0 items slack
         Hfd Hd Hp Hml Hmv Hil Hid Hfl Hlen Hsum HL Hheap Hok Hcount Hwf Hadd M L.
  unfold archreader_read_header.
  rewrite (read_header_magic_valid ai allowseek w magic d0)
    by (try assumption; eapply pending_app_l; eassumption).
  fold M.
  set (w1 := mkWorld (file w) (fpos w + M) (heap w)
                     (EvRead M M :: EvSeekCur 0 :: log w)).
  assert (P1 : pending w1 (idb ++ fsidb ++ len ++ region_of items slack ++ sum)).
  { subst w1 M. rewrite <- Hml. now apply pending_after_read. }
  unfold read_header_fields.
  destruct (read_data_pending ai w1 idb _ Hfd P1) as [R1 P2].
  rewrite Hil in R1, P2. change (Z.of_nat 4) with 4 in R1, P2.
  rewrite R1. cbn [negb Z.eqb].
  assert (Hchk : negb (archid ai =? 0) && negb (le_to_cpu idb =? archid ai) = false).
  { destruct Hid as [Hz|He].
    - rewrite Hz. reflexivity.
    - rewrite He, Z.eqb_refl. cbn. apply andb_false_r. }
  rewrite Hchk.
  destruct (read_data_pending ai _ fsidb _ Hfd P2) as [R2 P3].
  rewrite Hfl in R2, P3. change (Z.of_nat 2) with 2 in R2, P3.
  rewrite R2. cbn [negb Z.eqb].
  rewrite (read_dico_laid_out ai d0 _ len sum items slack);
    try assumption.
  rewrite Hadd. unfold sys_free. subst w1. cbn [file fpos heap log]. fold L.
  do 2 f_equal; lia.
Qed.

(** A whole header at the offset of the volume: the magic, the archive
    id, the filesystem id and a dictionary of well-formed records.  With no
    identity established, or with the identity of the header,
    archreader_read_header returns ERR_SUCCESS with the magic, the decoded
    filesystem id and the dictionary of the records, and leaves the volume
    at the end of the header; [allowseek] makes no difference. *)
Theorem read_header_decodes :
  forall (ai : carchreader) (allowseek : bool) (w : world)
         (magic idb fsidb len sum : list byte) (d0 : cdico)
         (items : list dicoitem) (slack : list byte),
    0 <= archfd ai ->
    dico_alloc = Some d0 ->
    pending w (magic ++ idb ++ fsidb ++ len ++ region_of items slack ++ sum) ->
    length magic = FSA_SIZEOF_MAGIC ->
    is_magic_valid magic = true ->
    length idb = 4%nat ->
    archid ai = 0 \/ le_to_cpu idb = archid ai ->
    length fsidb = 2%nat ->
    length len = 2%nat -> length sum = 4%nat ->
    Z.of_nat (length (region_of items slack)) = le_to_cpu len ->
    le_to_cpu len <= heap w ->
    fletcher32 (region_of items slack) = le_to_cpu sum ->
    Z.of_nat (length items) < 65536 ->
    Forall item_wellformed items ->
    fst (add_items d0 items) = true ->
    let M := Z.of_nat FSA_SIZEOF_MAGIC in
    let L := le_to_cpu len in
    archreader_read_header ai allowseek w =
      Returned (ERR_SUCCESS,
                mkHeaderOut magic (Some (snd (add_items d0 items)))
                            (le_to_cpu fsidb))
        (mkWorld (file w) (fpos w + M + 4 + 2 + 2 + L + 4) (heap w)
           (EvFree L :: EvRead 4 4 :: EvRead L L :: EvMalloc L :: EvRead 2 2
            :: EvRead 2 2 :: EvRead 4 4 :: EvRead M M :: EvSeekCur 0 :: log w)).
Proof. exact read_header_laid_out. Qed.

(** A reader that is not open ([archfd] below 0, as archreader_init and
    archreader_close leave it): archreader_close returns -1,
    archreader_read_header returns ERR_FATAL without a byte read, and
    archreader_read_volheader returns -1 with the reader unchanged. *)
Theorem closed_reader :
  forall (ai : carchreader) (allowseek : bool) (w : world),
    archfd (snd (archreader_init ai)) < 0
    /\ archfd (snd (archreader_close ai)) < 0
    /\ (archfd ai < 0 ->
        archreader_close ai = (-1, ai)
        /\ (exists out w',
               archreader_read_header ai allowseek w = Returned (ERR_FATAL, out) w'
               /\ file w' = file w /\ fpos w' = fpos w /\ heap w' = heap w)
        /\ (exists w', archreader_read_volheader ai w = Returned (-1, ai) w')).
Proof.
  intros ai allowseek w. split; [cbn; lia|]. split.
  { unfold archreader_close. destruct (archfd ai <? 0) eqn:F; cbn; [|lia].
    apply Z.ltb_lt in F. exact F. }
  intros Hfd. apply Z.ltb_lt in Hfd.
  assert (Hh : forall a, exists out w',
               archreader_read_header ai a w = Returned (ERR_FATAL, out) w'
               /\ file w' = file w /\ fpos w' = fpos w /\ heap w' = heap w).
  { intros a. unfold archreader_read_header, read_header_magic.
    destruct dico_alloc as [d|].
    - unfold sys_lseek. rewrite Hfd. cbn.
      do 2 eexists. split; [reflexivity|]. cbn. repeat split.
    - do 2 eexists. split; [reflexivity|]. cbn. repeat split. }
  split; [|split].
  - unfold archreader_close. rewrite Hfd. reflexivity.
  - apply Hh.
  - unfold archreader_read_volheader.
    destruct (Hh false) as (out & w' & Hr & _). rewrite Hr. eauto.
Qed.

(** On a volume without a marker ahead the resync loop finds none. *)
Lemma resync_scan_no_marker (ai : carchreader) (p : nat) :
  forall (fuel : nat) (curpos : Z) (magic : list byte) (w : world) (sc : scan_result),
    Z.of_nat p <= curpos ->
    (forall off : nat,
        (p <= off)%nat ->
        (off + FSA_SIZEOF_MAGIC <= length (file w))%nat ->
        is_magic_valid (firstn FSA_SIZEOF_MAGIC (skipn off (file w))) = false) ->
    is_magic_valid magic = false ->
    length magic = FSA_SIZEOF_MAGIC ->
    resync_scan fuel ai curpos magic w = Some sc ->
    scan_found sc = false.
Proof.
  induction fuel as [|fuel IH]; intros curpos magic w sc Hp Hno Hinv Hlen H.
  - cbn [resync_scan] in H. rewrite Hinv in H. discriminate.
  - rewrite resync_scan_turn in H by (try assumption; lia).
    destruct (archfd ai <? 0); [inversion H; subst; reflexivity|].
    cbv zeta in H.
    set (got := firstn FSA_SIZEOF_MAGIC (skipn (Z.to_nat curpos) (file w))) in *.
    destruct (Z.of_nat (length got) =? Z.of_nat FSA_SIZEOF_MAGIC) eqn:G;
      cbn [negb] in H; [|inversion H; subst; reflexivity].
    apply Z.eqb_eq in G. apply Nat2Z.inj in G.
    rewrite overwrite_full in H by congruence.
    pose proof FSA_SIZEOF_MAGIC_pos as Hm.
    assert (Hin : (Z.to_nat curpos + FSA_SIZEOF_MAGIC <= length (file w))%nat).
    { subst got. rewrite length_firstn, length_skipn in G. lia. }
    eapply IH; [| | | |exact H]; cbn [file]; try assumption; try lia.
    apply Hno; [lia | exact Hin].
Qed.

(** A volume that holds no recognised magic at or behind its offset:
    archreader_read_header with [allowseek] scans to the end of the volume
    and returns ERR_FATAL. *)
Theorem read_header_no_marker :
  forall (ai : carchreader) (w : world),
    no_marker_ahead w ->
    exists out w',
      archreader_read_header ai true w = Returned (ERR_FATAL, out) w'.
Proof.
  intros ai w Hno.
  unfold archreader_read_header, read_header_magic.
  destruct dico_alloc as [d|]; [|do 2 eexists; reflexivity].
  unfold sys_lseek.
  destruct (archfd ai <? 0) eqn:F; [do 2 eexists; reflexivity|].
  rewrite Z.add_0_r.
  destruct (fpos w <? 0) eqn:P; [do 2 eexists; reflexivity|].
  cbv beta iota zeta. rewrite P.
  unfold archreader_read_data, sys_read. rewrite F. cbn [fpos file heap log].
  rewrite Nat2Z.id.
  set (got := firstn FSA_SIZEOF_MAGIC (skipn (Z.to_nat (fpos w)) (file w))).
  destruct (Z.of_nat (length got) =? Z.of_nat FSA_SIZEOF_MAGIC) eqn:G;
    cbn [negb]; [|do 2 eexists; reflexivity].
  apply Z.eqb_eq in G. apply Nat2Z.inj in G.
  rewrite overwrite_full by (rewrite repeat_length; exact G).
  pose proof FSA_SIZEOF_MAGIC_pos as Hm.
  apply Z.ltb_ge in P.
  assert (Hin : (Z.to_nat (fpos w) + FSA_SIZEOF_MAGIC <= length (file w))%nat).
  { subst got. rewrite length_firstn, length_skipn in G. lia. }
  assert (Hinv : is_magic_valid got = false)
    by (apply Hno; [lia | exact Hin]).
  rewrite Hinv. cbn [negb andb].
  match goal with
  | |- context [resync_scan ?fuel ai (fpos w) got ?w2] =>
      destruct (resync_scan fuel ai (fpos w) got w2) as [sc|] eqn:S
  end.
  - assert (Hf : scan_found sc = false).
    { eapply (resync_scan_no_marker ai (Z.to_nat (fpos w)));
        [| | | |exact S]; cbn [file]; try assumption. lia. }
    rewrite Hf. do 2 eexists. reflexivity.
  - exfalso. revert S. unfold scan_bound. cbn [file].
    apply resync_scan_bounded; [exact P | cbn [file]; lia].
Qed.

End HeaderProps.

(** [read_header_success] on the header of volume 0. *)
Lemma read_header_success_witness :
  @is_magic_valid Reference.externals Reference.magic_volh = true
  /\ (exists d,
         Some (Reference.volhead_dico 7 0 "FsArCh_002" "0.6.8") = Some d)
  /\ file (Reference.after_header (Reference.reader 0 0 "backup.fsa")
                                  Reference.volume_header)
     = Reference.volume_header.
Proof.
  apply (@read_header_success Reference.externals
           (Reference.reader 0 0 "backup.fsa") false
           (Reference.volume Reference.volume_header 0)
           (mkHeaderOut Reference.magic_volh
              (Some (Reference.volhead_dico 7 0 "FsArCh_002" "0.6.8")) 65535)
           (Reference.after_header (Reference.reader 0 0 "backup.fsa")
                                   Reference.volume_header)).
  vm_compute. reflexivity.
Defined.

(** [read_header_decodes] on a block marker, the identity 7, the
    filesystem id 3 and the frame of a region of two records, read with
    [allowseek] by a reader of identity 7. *)
Lemma read_header_decodes_witness :
  @archreader_read_header Reference.externals
    (Reference.reader 7 0 "backup.fsa") true
    (Reference.volume
       (Reference.magic_blkh ++ cpu_to_le 4 7 ++ cpu_to_le 2 3
        ++ Reference.frame Samples.slack_region) 0)
  = Returned (ERR_SUCCESS, mkHeaderOut Reference.magic_blkh (Some Samples.two_items) 3)
      (mkWorld (Reference.magic_blkh ++ cpu_to_le 4 7 ++ cpu_to_le 2 3
                ++ Reference.frame Samples.slack_region)
               51 1048576
               [EvFree 31; EvRead 4 4; EvRead 31 31; EvMalloc 31; EvRead 2 2;
                EvRead 2 2; EvRead 4 4; EvRead 8 8; EvSeekCur 0]).
Proof.
  apply (@read_header_decodes Reference.externals
           (Reference.reader 7 0 "backup.fsa") true
           (Reference.volume
              (Reference.magic_blkh ++ cpu_to_le 4 7 ++ cpu_to_le 2 3
               ++ Reference.frame Samples.slack_region) 0)
           Reference.magic_blkh (cpu_to_le 4 7) (cpu_to_le 2 3)
           (Reference.frame_len Samples.slack_region)
           (Reference.frame_sum Samples.slack_region)
           [] Samples.two_items [xaa; xbb]).
  - cbn. lia.
  - reflexivity.
  - split; [cbn; lia | exists []; reflexivity].
  - reflexivity.
  - reflexivity.
  - reflexivity.
  - right. reflexivity.
  - reflexivity.
  - reflexivity.
  - reflexivity.
  - reflexivity.
  - vm_compute. discriminate.
  - vm_compute. reflexivity.
  - cbn. lia.
  - wellformed_items.
  - reflexivity.
Defined.

(** [closed_reader] on the reader archreader_init yields. *)
Lemma closed_reader_witness :
  let ai := snd (@archreader_init Reference.externals (Reference.reader 7 0 "backup.fsa")) in
  let w := Reference.volume Reference.volume_header 0 in
  archreader_close ai = (-1, ai)
  /\ (exists out w',
         @archreader_read_header Reference.externals ai true w
         = Returned (ERR_FATAL, out) w'
         /\ file w' = file w /\ fpos w' = fpos w /\ heap w' = heap w)
  /\ (exists w',
         @archreader_read_volheader Reference.externals ai w = Returned (-1, ai) w').
Proof.
  intros ai w.
  apply (proj2 (proj2 (@closed_reader Reference.externals ai true w))).
  cbn. lia.
Defined.

(** [read_header_no_marker] on a volume of eleven bytes without a
    marker. *)
Lemma read_header_no_marker_witness :
  exists out w',
    @archreader_read_header Reference.externals
      (Reference.reader 7 0 "backup.fsa") true
      (Reference.volume Samples.no_marker 0)
    = Returned (ERR_FATAL, out) w'.
Proof.
  apply (@read_header_no_marker Reference.externals).
  intros off _ Hoff.
  destruct off as [|[|[|[|off]]]];
    [reflexivity | reflexivity | reflexivity | reflexivity |].
  cbn in Hoff. lia.
Defined.

(** ** archreader_read_block: the other exits *)

Section BlockProps.
Context {E : Externals}.

(** archreader_read_block without [skip] once the buffer is allocated and
    the bytes of the block are read. *)
Lemma read_block_read (ai : carchreader) (blkdico : cdico) (blkinfo : blockinfo)
      (w : world)
      (blockoffset curblocksize compalgo cryptalgo finalsize compsize arcsum : Z)
      (data : list byte) :
  0 <= archfd ai ->
  block_fields blkdico blockoffset curblocksize compalgo cryptalgo finalsize
               compsize arcsum ->
  pending w data ->
  Z.of_nat (length data) = finalsize ->
  finalsize <= heap w ->
  let w2 := mkWorld (file w) (fpos w + finalsize) (heap w - finalsize)
                    (EvRead finalsize finalsize :: EvMalloc finalsize :: log w) in
  let blkinfo1 := mkBlock (Some data) curblocksize blockoffset arcsum
                          compalgo cryptalgo finalsize compsize in
  archreader_read_block ai blkdico blkinfo false w =
    if negb (fletcher32 data =? arcsum)
    then
      let w := errprintf "block is corrupt at offset=%ld, blksize=%ld" w2 in
      let w := sys_free finalsize w in
      let '(ok, w) := sys_malloc curblocksize w in
      if negb ok
      then (-1, mkBlockOut (-1) (set_blkdata None blkinfo1),
            errprintf "cannot allocate block: malloc(%d) failed" w)
      else
        let '(r, w) := sys_lseek (archfd ai) (- finalsize) SEEK_CUR w in
        let w := if r <? 0 then errprintf "lseek64() failed" w else w in
        (0, mkBlockOut 0
              (set_blkdata (Some (repeat x00 (Z.to_nat curblocksize))) blkinfo1),
         w)
    else (0, mkBlockOut 1 blkinfo1, w2).
Proof.
  intros Hfd Hf Hp Hlen Hh w2 blkinfo1.
  rewrite (read_block_fields_ok _ _ _ _ _ _ _ _ _ _ _ _ Hf).
  cbv zeta. unfold sys_malloc at 1.
  destruct (finalsize <=? heap w) eqn:M1; [|apply Z.leb_gt in M1; lia].
  cbn [negb].
  rewrite <- (app_nil_r data) in Hp.
  assert (Hp' : pending (mkWorld (file w) (fpos w) (heap w - finalsize)
                                 (EvMalloc finalsize :: log w)) (data ++ []))
    by (apply (pending_same_stream w); [reflexivity | reflexivity | exact Hp]).
  destruct (sys_read_pending (archfd ai) _ data [] Hfd Hp') as [R _].
  rewrite Hlen in R. cbn [file fpos heap log] in R. rewrite R.
  rewrite Z.eqb_refl. cbn [negb]. reflexivity.
Qed.

(** A block whose bytes have the checksum of the block header: the result
    is 0, [*sumok] is 1, [*blkinfo] holds the fields of the header and the
    buffer with the bytes as they are in the archive; the buffer stays
    allocated for the caller and the volume is behind the block. *)
Theorem read_block_verified :
  forall (ai : carchreader) (blkdico : cdico) (blkinfo : blockinfo) (w : world)
         (blockoffset curblocksize compalgo cryptalgo finalsize compsize arcsum : Z)
         (data : list byte),
    0 <= archfd ai ->
    block_fields blkdico blockoffset curblocksize compalgo cryptalgo finalsize
                 compsize arcsum ->
    pending w data ->
    Z.of_nat (length data) = finalsize ->
    finalsize <= heap w ->
    fletcher32 data = arcsum ->
    archreader_read_block ai blkdico blkinfo false w =
      (0,
       mkBlockOut 1
         (mkBlock (Some data) curblocksize blockoffset arcsum compalgo cryptalgo
                  finalsize compsize),
       mkWorld (file w) (fpos w + finalsize) (heap w - finalsize)
               (EvRead finalsize finalsize :: EvMalloc finalsize :: log w)).
Proof.
  intros ai blkdico blkinfo w blockoffset curblocksize compalgo cryptalgo
         finalsize compsize arcsum data Hfd Hf Hp Hlen Hh Hok.
  rewrite (read_block_read ai blkdico blkinfo w _ _ _ _ _ _ _ data Hfd Hf Hp Hlen Hh).
  apply Z.eqb_eq in Hok. rewrite Hok. reflexivity.
Qed.

(** A block header that lacks one of the seven fields, or whose real size
    is above FSA_MAX_BLKSIZE, is refused before anything is allocated, read
    or skipped, with or without [skip]: the result is -1, [*sumok] is -1 and
    the world has one message more. *)
Theorem read_block_refuses_header :
  forall (ai : carchreader) (blkdico : cdico) (blkinfo : blockinfo)
         (skip : bool) (w : world),
    (forall blockoffset curblocksize compalgo cryptalgo finalsize compsize arcsum,
        ~ block_fields blkdico blockoffset curblocksize compalgo cryptalgo
                       finalsize compsize arcsum) ->
    exists msg,
      archreader_read_block ai blkdico blkinfo skip w =
        (-1, mkBlockOut (-1) (memset_blkinfo_head blkinfo), msgprintf msg w).
Proof.
  intros ai blkdico blkinfo skip w Hno.
  unfold archreader_read_block.
  destruct (dico_get_u64 blkdico 0 BLOCKHEADITEMKEY_BLOCKOFFSET) as [a|] eqn:H1;
    [|eexists; reflexivity].
  destruct (dico_get_u32 blkdico 0 BLOCKHEADITEMKEY_REALSIZE) as [b|] eqn:H2;
    [|eexists; reflexivity].
  destruct (FSA_MAX_BLKSIZE <? b) eqn:B; [eexists; reflexivity|].
  destruct (dico_get_u16 blkdico 0 BLOCKHEADITEMKEY_COMPRESSALGO) as [c|] eqn:H3;
    [|eexists; reflexivity].
  destruct (dico_get_u16 blkdico 0 BLOCKHEADITEMKEY_ENCRYPTALGO) as [e|] eqn:H4;
    [|eexists; reflexivity].
  destruct (dico_get_u32 blkdico 0 BLOCKHEADITEMKEY_ARSIZE) as [f|] eqn:H5;
    [|eexists; reflexivity].
  destruct (dico_get_u32 blkdico 0 BLOCKHEADITEMKEY_COMPSIZE) as [g|] eqn:H6;
    [|eexists; reflexivity].
  destruct (dico_get_u32 blkdico 0 BLOCKHEADITEMKEY_ARCSUM) as [h|] eqn:H7;
    [|eexists; reflexivity].
  exfalso. apply (Hno a b c e f g h).
  apply Z.ltb_ge in B. repeat split; assumption.
Qed.

(** [read] returns -1 with an empty buffer, or the number of the bytes it
    read. *)
Lemma sys_read_count (fd n : Z) (w w' : world) (got : Z) (buffer : list byte) :
  sys_read fd n w = (got, buffer, w') ->
  file w' = file w
  /\ (got = -1 /\ buffer = [] \/ got = Z.of_nat (length buffer)).
Proof.
  unfold sys_read. intros H.
  destruct (fd <? 0); inversion H; subst; cbn; auto.
Qed.

(** What archreader_read_block guarantees on every call.  The volume is
    not written.  The result is 0 or -1.  With -1, [*sumok] is -1.  With 0
    and [skip], [*sumok] is -1 and [*blkinfo] has no more than the memset of
    the entry.  With 0 and no [skip], [*sumok] is 1 or 0 and [blkdata] is a
    buffer: of the size in the archive when [*sumok] is 1, of the real size
    when it is 0. *)
Theorem read_block_outcome :
  forall (ai : carchreader) (blkdico : cdico) (blkinfo : blockinfo)
         (skip : bool) (w : world),
    let ret := fst (fst (archreader_read_block ai blkdico blkinfo skip w)) in
    let out := snd (fst (archreader_read_block ai blkdico blkinfo skip w)) in
    let w' := snd (archreader_read_block ai blkdico blkinfo skip w) in
    file w' = file w
    /\ (ret = 0 \/ ret = -1)
    /\ (ret = -1 -> b_sumok out = -1)
    /\ (ret = 0 -> skip = true ->
        b_sumok out = -1 /\ b_info out = memset_blkinfo_head blkinfo)
    /\ (ret = 0 -> skip = false ->
        (b_sumok out = 1 \/ b_sumok out = 0)
        /\ exists buf,
             blkdata (b_info out) = Some buf
             /\ length buf
                = Z.to_nat (if b_sumok out =? 1
                            then blkarsize (b_info out)
                            else blkrealsize (b_info out))).
Proof.
  intros ai blkdico blkinfo skip w.
  unfold archreader_read_block.
  destruct (dico_get_u64 blkdico 0 BLOCKHEADITEMKEY_BLOCKOFFSET) as [a|];
    [|cbn; repeat split; auto; discriminate].
  destruct (dico_get_u32 blkdico 0 BLOCKHEADITEMKEY_REALSIZE) as [b|];
    [|cbn; repeat split; auto; discriminate].
  destruct (FSA_MAX_BLKSIZE <? b); [cbn; repeat split; auto; discriminate|].
  destruct (dico_get_u16 blkdico 0 BLOCKHEADITEMKEY_COMPRESSALGO) as [c|];
    [|cbn; repeat split; auto; discriminate].
  destruct (dico_get_u16 blkdico 0 BLOCKHEADITEMKEY_ENCRYPTALGO) as [e|];
    [|cbn; repeat split; auto; discriminate].
  destruct (dico_get_u32 blkdico 0 BLOCKHEADITEMKEY_ARSIZE) as [f|];
    [|cbn; repeat split; auto; discriminate].
  destruct (dico_get_u32 blkdico 0 BLOCKHEADITEMKEY_COMPSIZE) as [g|];
    [|cbn; repeat split; auto; discriminate].
  destruct (dico_get_u32 blkdico 0 BLOCKHEADITEMKEY_ARCSUM) as [h|];
    [|cbn; repeat split; auto; discriminate].
  destruct skip.
  - destruct (sys_lseek (archfd ai) f SEEK_CUR w) as [r w1] eqn:L.
    apply lseek_frame in L. destruct L as [F1 _].
    destruct (r <? 0); cbn; repeat split; auto; discriminate.
  - destruct (sys_malloc f w) as [ok w1] eqn:M.
    apply malloc_frame in M. destruct M as (F1 & _ & _).
    destruct ok; cbn [negb]; [|cbn; repeat split; auto; discriminate].
    destruct (sys_read (archfd ai) f w1) as [[got buffer] w2] eqn:R.
    apply sys_read_count in R. destruct R as [F2 Hc].
    destruct (got =? f) eqn:G; cbn [negb];
      [|cbn; repeat split; auto; try congruence; discriminate].
    apply Z.eqb_eq in G.
    destruct (negb (fletcher32 buffer =? h)).
    + cbv zeta.
      destruct (sys_malloc b _) as [ok2 w3] eqn:M2.
      apply malloc_frame in M2. destruct M2 as (F3 & _ & _).
      cbn [file sys_free errprintf emit] in F3.
      destruct ok2; cbn [negb];
        [|cbn; repeat split; auto; try congruence; discriminate].
      destruct (sys_lseek (archfd ai) (- f) SEEK_CUR w3) as [r w4] eqn:L.
      apply lseek_frame in L. destruct L as [F4 _].
      cbn [fst snd b_sumok b_info set_blkdata blkdata blkarsize blkrealsize].
      repeat split; auto; try discriminate.
      * destruct (r <? 0); cbn [file errprintf emit]; congruence.
      * eexists. split; [reflexivity|]. cbn. apply repeat_length.
    + cbn [fst snd b_sumok b_info blkdata blkarsize blkrealsize].
      repeat split; auto; try congruence; try discriminate.
      eexists. split; [reflexivity|]. cbn.
      destruct Hc as [[Hc Hb]|Hc]; [|lia].
      subst. reflexivity.
Qed.

End BlockProps.

Section BlockTail.
Context {E : Externals}.

(** A volume that ends inside the bytes of the block: the read is short,
    the buffer is freed again, the result is -1 and [*sumok] is -1; the
    offset is at the end of the volume. *)
Theorem read_block_truncated :
  forall (ai : carchreader) (blkdico : cdico) (blkinfo : blockinfo) (w : world)
         (blockoffset curblocksize compalgo cryptalgo finalsize compsize arcsum : Z)
         (bs : list byte),
    0 <= archfd ai ->
    block_fields blkdico blockoffset curblocksize compalgo cryptalgo finalsize
                 compsize arcsum ->
    remaining w bs ->
    Z.of_nat (length bs) < finalsize ->
    finalsize <= heap w ->
    let k := Z.of_nat (length bs) in
    archreader_read_block ai blkdico blkinfo false w =
      (-1,
       mkBlockOut (-1) (memset_blkinfo_head blkinfo),
       mkWorld (file w) (fpos w + k) (heap w - finalsize + finalsize)
               (EvFree finalsize
                :: EvErr "cannot read block (finalsize=%ld) failed"
                :: EvRead finalsize k :: EvMalloc finalsize :: log w)).
Proof.
  intros ai blkdico blkinfo w blockoffset curblocksize compalgo cryptalgo
         finalsize compsize arcsum bs Hfd Hf [Hpos Hs] Hshort Hh k.
  rewrite (read_block_fields_ok _ _ _ _ _ _ _ _ _ _ _ _ Hf).
  cbv zeta. unfold sys_malloc.
  destruct (finalsize <=? heap w) eqn:M1; [|apply Z.leb_gt in M1; lia].
  cbn [negb]. unfold sys_read.
  destruct (archfd ai <? 0) eqn:F; [apply Z.ltb_lt in F; lia|].
  cbn [file fpos heap log].
  rewrite Hs, firstn_all2 by lia. fold k.
  destruct (k =? finalsize) eqn:Q; [apply Z.eqb_eq in Q; lia|].
  reflexivity.
Qed.

(** archreader_read_header with [allowseek] takes the first recognised
    marker at or behind the current offset. *)
Lemma read_header_magic_skips (ai : carchreader) (w : world)
      (g marker : list byte) (d : cdico) :
  0 <= archfd ai ->
  pending w (g ++ marker) ->
  length marker = FSA_SIZEOF_MAGIC ->
  is_magic_valid marker = true ->
  garbage g marker ->
  dico_alloc = Some d ->
  exists w1,
    read_header_magic ai true w = Located marker d w1
    /\ file w1 = file w
    /\ heap w1 = heap w
    /\ fpos w1 = fpos w + Z.of_nat (length g) + Z.of_nat FSA_SIZEOF_MAGIC.
Proof.
  intros Hfd Hp Hml Hmv Hg Hd.
  destruct g as [|x g].
  - cbn [app] in Hp.
    rewrite (read_header_magic_valid ai true w marker d) by assumption.
    eexists. split; [reflexivity|]. cbn [file heap fpos length].
    repeat split. lia.
  - set (g' := x :: g) in *.
    assert (Hg0 : (0 < length g')%nat) by (subst g'; cbn [length]; lia).
    set (m0 := firstn FSA_SIZEOF_MAGIC (g' ++ marker)).
    assert (Hm0l : length m0 = FSA_SIZEOF_MAGIC).
    { subst m0. apply firstn_length_le. rewrite length_app. lia. }
    assert (Hp0 : pending w m0).
    { apply (pending_app_l w m0 (skipn FSA_SIZEOF_MAGIC (g' ++ marker))).
      subst m0. now rewrite firstn_skipn. }
    assert (Hinv : is_magic_valid m0 = false) by (apply (Hg 0%nat); exact Hg0).
    destruct Hp as [Hpos [rest Hs]].
    assert (Hlg : (length g' <= length (file w))%nat).
    { apply (f_equal (@length byte)) in Hs.
      rewrite length_skipn, !length_app in Hs. lia. }
    rewrite (read_header_magic_first ai true w m0 d) by assumption.
    rewrite Hinv. cbn [negb andb].
    match goal with
    | |- context [resync_scan ?fuel ai (fpos w) m0 ?w1] =>
        destruct (resync_scan_finds ai marker rest Hfd Hml Hmv g' fuel (fpos w) m0 w1)
          as (w' & evs & Hr & Hf & Hh & Hfp & Hl & Ht)
    end.
    + exact Hpos.
    + cbn [file]. rewrite Hs, <- app_assoc. reflexivity.
    + exact Hg.
    + exact Hinv.
    + exact Hm0l.
    + unfold scan_bound. cbn [file]. lia.
    + rewrite Hr. cbn [scan_found scan_magic scan_world].
      exists w'. cbn [file heap] in Hf, Hh.
      repeat split; assumption.
Qed.

(** A corrupt block and the header behind it.  archreader_read_block
    reports the block with [*sumok] 0 and puts the offset back in front of
    its bytes; the next archreader_read_header with [allowseek] then walks
    over these bytes, none of which starts a recognised magic, and takes the
    marker of the header that follows the block. *)
Theorem read_block_corrupt_then_header :
  forall (ai : carchreader) (blkdico : cdico) (blkinfo : blockinfo) (w : world)
         (blockoffset curblocksize compalgo cryptalgo finalsize compsize arcsum : Z)
         (data marker : list byte) (d : cdico),
    0 <= archfd ai ->
    block_fields blkdico blockoffset curblocksize compalgo cryptalgo finalsize
                 compsize arcsum ->
    pending w (data ++ marker) ->
    Z.of_nat (length data) = finalsize ->
    finalsize <= heap w ->
    curblocksize <= heap w ->
    fletcher32 data <> arcsum ->
    length marker = FSA_SIZEOF_MAGIC ->
    is_magic_valid marker = true ->
    garbage data marker ->
    dico_alloc = Some d ->
    exists out w1 w2,
      archreader_read_block ai blkdico blkinfo false w = (0, out, w1)
      /\ b_sumok out = 0
      /\ fpos w1 = fpos w
      /\ read_header_magic ai true w1 = Located marker d w2
      /\ archreader_read_header ai true w1 = read_header_fields ai marker d w2
      /\ file w2 = file w
      /\ fpos w2 = fpos w + finalsize + Z.of_nat FSA_SIZEOF_MAGIC.
Proof.
  intros ai blkdico blkinfo w blockoffset curblocksize compalgo cryptalgo
         finalsize compsize arcsum data marker d
         Hfd Hf Hp Hlen Hh1 Hh2 Hbad Hml Hmv Hg Hd.
  pose proof (pending_nonneg _ _ Hp) as Hpos.
  rewrite (read_block_read ai blkdico blkinfo w _ _ _ _ _ _ _ data Hfd Hf
             (pending_app_l _ _ _ Hp) Hlen Hh1).
  apply Z.eqb_neq in Hbad. rewrite Hbad. cbn [negb].
  unfold sys_free, errprintf, emit, sys_malloc. cbn [file fpos heap log].
  destruct (curblocksize <=? heap w - finalsize + finalsize) eqn:M2;
    [|apply Z.leb_gt in M2; lia].
  cbn [negb]. unfold sys_lseek.
  destruct (archfd ai <? 0) eqn:F; [apply Z.ltb_lt in F; lia|].
  cbn [file fpos heap log].
  destruct (fpos w + finalsize + - finalsize <? 0) eqn:P;
    [apply Z.ltb_lt in P; lia|].
  rewrite P.
  match goal with
  | |- exists out w1 w2, (_, _, ?w0) = _ /\ _ =>
      assert (Hp1 : pending w0 (data ++ marker))
        by (apply (pending_same_stream w);
            [reflexivity | cbn [fpos]; lia | exact Hp]);
      destruct (read_header_magic_skips ai w0 data marker d Hfd Hp1 Hml Hmv Hg Hd)
        as (w2 & Hloc & Hfile & _ & Hfp)
  end.
  do 3 eexists.
  split; [reflexivity|].
  split; [reflexivity|].
  split; [cbn [fpos]; lia|].
  split; [exact Hloc|].
  split; [unfold archreader_read_header; rewrite Hloc; reflexivity|].
  split; [exact Hfile|].
  rewrite Hfp. cbn [fpos]. lia.
Qed.

End BlockTail.

(** [read_block_verified] on a block of four bytes at the start of the
    volume. *)
Lemma read_block_verified_witness :
  @archreader_read_block Reference.externals
    (Reference.reader 7 0 "backup.fsa") Samples.sound_block_dico
    Reference.some_blockinfo false (Reference.volume Reference.payload 0)
  = (0,
     mkBlockOut 1
       (mkBlock (Some Reference.payload) 6 4096
                (Reference.fletcher32_ref Reference.payload) 0 0 4 4),
     mkWorld Reference.payload 4 1048572 [EvRead 4 4; EvMalloc 4]).
Proof.
  apply (@read_block_verified Reference.externals
           (Reference.reader 7 0 "backup.fsa") Samples.sound_block_dico
           Reference.some_blockinfo (Reference.volume Reference.payload 0)
           4096 6 0 0 4 4 (Reference.fletcher32_ref Reference.payload)
           Reference.payload).
  - cbn. lia.
  - repeat split; try reflexivity. cbn. lia.
  - split; [cbn; lia | exists []; reflexivity].
  - reflexivity.
  - cbn. lia.
  - reflexivity.
Defined.

(** [read_block_refuses_header] on a block header without its checksum
    entry, and with [skip] on one that announces more than
    FSA_MAX_BLKSIZE. *)
Lemma read_block_refuses_header_witness :
  (exists msg,
      @archreader_read_block Reference.externals
        (Reference.reader 7 0 "backup.fsa") Samples.partial_block_dico
        Reference.some_blockinfo false (Reference.volume Reference.payload 0)
      = (-1, mkBlockOut (-1) (mkBlock None 1 2 3 4 5 6 7),
         msgprintf msg (Reference.volume Reference.payload 0)))
  /\ (exists msg,
         @archreader_read_block Reference.externals
           (Reference.reader 7 0 "backup.fsa") Samples.huge_block_dico
           Reference.some_blockinfo true (Reference.volume Reference.payload 0)
         = (-1, mkBlockOut (-1) (mkBlock None 1 2 3 4 5 6 7),
            msgprintf msg (Reference.volume Reference.payload 0))).
Proof.
  split.
  - apply (@read_block_refuses_header Reference.externals
             (Reference.reader 7 0 "backup.fsa") Samples.partial_block_dico
             Reference.some_blockinfo false (Reference.volume Reference.payload 0)).
    intros a b c e f g h (_ & _ & _ & H & _).
    vm_compute in H. discriminate.
  - apply (@read_block_refuses_header Reference.externals
             (Reference.reader 7 0 "backup.fsa") Samples.huge_block_dico
             Reference.some_blockinfo true (Reference.volume Reference.payload 0)).
    intros a b c e f g h (_ & H & L & _).
    vm_compute in H. inversion H; subst. vm_compute in L. apply L. reflexivity.
Defined.

(** [read_block_truncated] on a block of four bytes of which the volume
    holds three. *)
Lemma read_block_truncated_witness :
  @archreader_read_block Reference.externals
    (Reference.reader 7 0 "backup.fsa") Samples.sound_block_dico
    Reference.some_blockinfo false (Reference.volume Reference.three_bytes 0)
  = (-1,
     mkBlockOut (-1) (mkBlock None 1 2 3 4 5 6 7),
     mkWorld Reference.three_bytes 3 1048576
       [EvFree 4; EvErr "cannot read block (finalsize=%ld) failed";
        EvRead 4 3; EvMalloc 4]).
Proof.
  apply (@read_block_truncated Reference.externals
           (Reference.reader 7 0 "backup.fsa") Samples.sound_block_dico
           Reference.some_blockinfo (Reference.volume Reference.three_bytes 0)
           4096 6 0 0 4 4 (Reference.fletcher32_ref Reference.payload)
           Reference.three_bytes).
  - cbn. lia.
  - repeat split; try reflexivity. cbn. lia.
  - split; [cbn; lia | reflexivity].
  - cbn. lia.
  - cbn. lia.
Defined.

(** [read_block_corrupt_then_header] on a corrupt block of four bytes with
    the header of the next block behind it: the marker is taken at offset 4
    and the volume is left at offset 12. *)
Lemma read_block_corrupt_then_header_witness :
  exists out w1 w2,
    @archreader_read_block Reference.externals
      (Reference.reader 7 0 "backup.fsa") Reference.corrupt_block_dico
      Reference.some_blockinfo false
      (Reference.volume Samples.corrupt_then_header 0)
    = (0, out, w1)
    /\ b_sumok out = 0
    /\ fpos w1 = 0
    /\ @read_header_magic Reference.externals
         (Reference.reader 7 0 "backup.fsa") true w1
       = Located Reference.magic_blkh [] w2
    /\ @archreader_read_header Reference.externals
         (Reference.reader 7 0 "backup.fsa") true w1
       = @read_header_fields Reference.externals
           (Reference.reader 7 0 "backup.fsa") Reference.magic_blkh [] w2
    /\ file w2 = Samples.corrupt_then_header
    /\ fpos w2 = 0 + 4 + 8.
Proof.
  apply (@read_block_corrupt_then_header Reference.externals
           (Reference.reader 7 0 "backup.fsa") Reference.corrupt_block_dico
           Reference.some_blockinfo
           (Reference.volume Samples.corrupt_then_header 0)
           4096 6 0 0 4 4 (Reference.fletcher32_ref Reference.payload + 1)
           Reference.payload Reference.magic_blkh []).
  - cbn. lia.
  - repeat split; try reflexivity. cbn. lia.
  - split; [cbn; lia | eexists; vm_compute; reflexivity].
  - reflexivity.
  - cbn. lia.
  - cbn. lia.
  - vm_compute. discriminate.
  - reflexivity.
  - reflexivity.
  - intros i Hi.
    destruct i as [|[|[|[|i]]]];
      [reflexivity | reflexivity | reflexivity | reflexivity |].
    cbn in Hi. lia.
  - reflexivity.
Defined.

(** ** archreader_read_volheader: what it keeps and what it accepts *)

Section VolHeaderProps.
Context {E : Externals}.

Ltac checks_step H :=
  match type of H with
  | (if ?c then _ else _) = _ => destruct c eqn:?
  | (match (if ?c then _ else _) with _ => _ end) = _ => destruct c eqn:?
  | (match ?x with _ => _ end) = _ => destruct x eqn:?
  end.

Ltac checks_paths H :=
  unfold volheader_checks in H;
  repeat (checks_step H; cbv zeta in H; try discriminate H);
  inversion H; subst; clear H.

(** The checks write to [archid], [filefmt] and [creatver] and to nothing
    else of the reader, and to [creatver] only while it is empty; they
    neither allocate nor move the offset. *)
Lemma volheader_checks_frame (ai : carchreader) (magic : list byte)
      (od : option cdico) (w : world) (ret : Z) (ai' : carchreader) (w' : world) :
  volheader_checks ai magic od w = Returned (ret, ai') w' ->
  archfd ai' = archfd ai
  /\ curvol ai' = curvol ai
  /\ compalgo ai' = compalgo ai
  /\ cryptalgo ai' = cryptalgo ai
  /\ complevel ai' = complevel ai
  /\ fsacomp ai' = fsacomp ai
  /\ basepath ai' = basepath ai
  /\ volpath ai' = volpath ai
  /\ (byte_val (cchar (creatver ai)) <> 0 -> creatver ai' = creatver ai)
  /\ file w' = file w /\ fpos w' = fpos w /\ heap w' = heap w.
Proof.
  intros H. checks_paths H.
  all: cbn [creatver set_archid set_filefmt] in *.
  all: try (destruct (byte_val (cchar (creatver ai)) =? 0) eqn:Q;
            [apply Z.eqb_eq in Q|]).
  all: cbn; repeat split; try reflexivity.
  all: intros; contradiction.
Qed.

(** The checks fail on no dictionary only. *)
Lemma volheader_checks_fault (ai : carchreader) (magic : list byte)
      (od : option cdico) (w : world) (f : fault) (w' : world) :
  volheader_checks ai magic od w = Fault f w' -> od = None.
Proof.
  intros H. unfold volheader_checks in H.
  destruct od as [d|]; [|reflexivity].
  exfalso.
  repeat (checks_step H; cbv zeta in H; try discriminate H).
Qed.

(** What archreader_read_header keeps for its callers. *)
Lemma read_header_frame (ai : carchreader) (allowseek : bool) (w : world)
      (code : errcode) (out : header_out) (w' : world) :
  archreader_read_header ai allowseek w = Returned (code, out) w' ->
  file w' = file w
  /\ (code = ERR_SUCCESS ->
      is_magic_valid (h_magic out) = true
      /\ (exists d, h_dico out = Some d)
      /\ heap w' = heap w).
Proof.
  unfold archreader_read_header.
  destruct (read_header_magic_frame ai allowseek w) as (F & H & V).
  destruct (read_header_magic ai allowseek w) as [magic d w1|o w1|w1];
    cbn [locate_world] in *; try discriminate.
  - intros Hf.
    destruct (read_header_fields_frame _ _ _ _ _ _ _ Hf) as (F2 & Hm & Hd & H2).
    split; [congruence|].
    intros Hc. rewrite Hm. repeat split.
    + now apply (V magic d w1).
    + exact Hd.
    + rewrite H2 by exact Hc. exact H.
  - intros Hf. inversion Hf; subst. split; [exact F | discriminate].
Qed.

Lemma read_header_fault (ai : carchreader) (allowseek : bool) (w : world)
      (f : fault) (w' : world) :
  archreader_read_header ai allowseek w = Fault f w' -> f = OutOfBounds.
Proof.
  intros H.
  destruct f; [reflexivity | | exfalso; eapply read_header_no_loop_bound; exact H].
  exfalso. unfold archreader_read_header in H.
  destruct (read_header_magic ai allowseek w) as [magic d w1|o w1|w1];
    try discriminate.
  unfold read_header_fields in H.
  destruct (archreader_read_data ai 4 w1) as [[r1 b1] w2].
  destruct (negb (r1 =? 0)); [discriminate|].
  destruct (negb (archid ai =? 0) && negb (le_to_cpu b1 =? archid ai));
    [discriminate|].
  destruct (archreader_read_data ai 2 w2) as [[r2 b2] w3].
  destruct (negb (r2 =? 0)); [discriminate|].
  destruct (archreader_read_dico ai d w3) as [[r d'] w4|f w4] eqn:D.
  - destruct r; discriminate.
  - apply read_dico_fault_kind in D. subst f. discriminate.
Qed.

(** What archreader_read_volheader guarantees on every call.  When it
    returns, the result is 0 or -1, the volume is not written, and the
    descriptor, the volume number, the paths and the compression and
    encryption settings of the reader are as before; the version of the
    creator is kept once it is set; with the result 0 the allocator holds
    what it held.  The only way it does not return is the read outside the
    buffer of the dictionary: no assertion of the dictionary module fails
    on a NULL dictionary, and the search for the magic ends. *)
Theorem read_volheader_keeps :
  forall (ai : carchreader) (w : world),
    match archreader_read_volheader ai w with
    | Returned (ret, ai') w' =>
        (ret = 0 \/ ret = -1)
        /\ file w' = file w
        /\ archfd ai' = archfd ai
        /\ curvol ai' = curvol ai
        /\ compalgo ai' = compalgo ai
        /\ cryptalgo ai' = cryptalgo ai
        /\ complevel ai' = complevel ai
        /\ fsacomp ai' = fsacomp ai
        /\ basepath ai' = basepath ai
        /\ volpath ai' = volpath ai
        /\ (byte_val (cchar (creatver ai)) <> 0 -> creatver ai' = creatver ai)
        /\ (ret = 0 -> heap w' = heap w)
    | Fault f _ => f = OutOfBounds
    end.
Proof.
  intros ai w. unfold archreader_read_volheader.
  destruct (archreader_read_header ai false w) as [[res out] w1|f w1] eqn:Hh;
    [|eapply read_header_fault; exact Hh].
  destruct (read_header_frame _ _ _ _ _ _ Hh) as (F & S).
  destruct res.
  - destruct (S eq_refl) as (_ & (d & Hd) & Hp).
    destruct (volheader_checks ai (h_magic out) (h_dico out) w1)
      as [[ret ai'] w'|f w'] eqn:Hc.
    + destruct (volheader_checks_frame _ _ _ _ _ _ _ Hc)
        as (A1 & A2 & A3 & A4 & A5 & A6 & A7 & A8 & A9 & B1 & B2 & B3).
      destruct (volheader_checks_inv _ _ _ _ _ _ _ Hc) as (_ & _ & _ & _ & R).
      repeat split; try assumption; try congruence.
    + apply volheader_checks_fault in Hc. congruence.
  - cbn. repeat split; auto; try discriminate.
  - cbn. repeat split; auto; try discriminate.
Qed.

(** A later volume of an established session.  The reader has an identity,
    a file format and the version of the creator; a header that is read and
    whose dictionary holds this identity, the volume number expected and
    this file format is accepted with the reader exactly as it was, and
    with nothing logged. *)
Theorem read_volheader_established :
  forall (ai : carchreader) (w w1 : world) (magic : list byte) (d : cdico)
         (fsid : Z) (fmt ver : list byte),
    archreader_read_header ai false w
      = Returned (ERR_SUCCESS, mkHeaderOut magic (Some d) fsid) w1 ->
    strncmp magic FSA_MAGIC_VOLH FSA_SIZEOF_MAGIC = 0 ->
    archid ai <> 0 ->
    dico_get_u32 d 0 VOLUMEHEADKEY_ARCHID = Some (archid ai) ->
    dico_get_u32 d 0 VOLUMEHEADKEY_VOLNUM = Some (curvol ai) ->
    byte_val (cchar (filefmt ai)) <> 0 ->
    dico_get_data d 0 VOLUMEHEADKEY_FILEFORMATVER FSA_MAX_FILEFMTLEN = Some fmt ->
    strncmp fmt (filefmt ai) FSA_MAX_FILEFMTLEN = 0 ->
    byte_val (cchar (creatver ai)) <> 0 ->
    dico_get_data d 0 VOLUMEHEADKEY_PROGVERCREAT FSA_MAX_PROGVERLEN = Some ver ->
    archreader_read_volheader ai w = Returned (0, ai) w1.
Proof.
  intros ai w w1 magic d fsid fmt ver Hh Hm Ha Hid Hvol Hf Hfmt Hfc Hc Hver.
  unfold archreader_read_volheader. rewrite Hh.
  cbn [h_magic h_dico]. unfold volheader_checks.
  rewrite Hm. cbn [Z.eqb negb].
  rewrite Hid.
  apply Z.eqb_neq in Ha. rewrite Ha, Z.eqb_refl. cbn [negb].
  rewrite Hvol, Z.eqb_refl. cbn [negb].
  rewrite Hfmt.
  apply Z.eqb_neq in Hf. rewrite Hf, Hfc. cbn [Z.eqb negb].
  rewrite Hver. cbv zeta.
  apply Z.eqb_neq in Hc. rewrite Hc. reflexivity.
Qed.

(** The identity is taken before the volume number is checked.  With no
    identity established, a header that is read and holds an identity but
    not the volume number expected is refused with -1, and the reader
    handed back already has the identity of that header. *)
Theorem read_volheader_refused_sets_archid :
  forall (ai : carchreader) (w w1 : world) (magic : list byte) (d : cdico)
         (fsid readid volnum : Z),
    archreader_read_header ai false w
      = Returned (ERR_SUCCESS, mkHeaderOut magic (Some d) fsid) w1 ->
    strncmp magic FSA_MAGIC_VOLH FSA_SIZEOF_MAGIC = 0 ->
    archid ai = 0 ->
    dico_get_u32 d 0 VOLUMEHEADKEY_ARCHID = Some readid ->
    dico_get_u32 d 0 VOLUMEHEADKEY_VOLNUM = Some volnum ->
    volnum <> curvol ai ->
    archreader_read_volheader ai w
    = Returned (-1, set_archid readid ai)
        (errprintf "wrong volume number in [%s]: volnum is %d and we need volnum %d"
                   w1).
Proof.
  intros ai w w1 magic d fsid readid volnum Hh Hm Ha Hid Hvol Hne.
  unfold archreader_read_volheader. rewrite Hh.
  cbn [h_magic h_dico]. unfold volheader_checks.
  rewrite Hm. cbn [Z.eqb negb].
  rewrite Hid, Ha. cbn [Z.eqb].
  rewrite Hvol. cbn [curvol set_archid].
  apply Z.eqb_neq in Hne. rewrite Hne. reflexivity.
Qed.

(** archreader_read_volheader returns 0 only when archreader_read_header
    has returned ERR_SUCCESS with the magic of a volume header and a
    dictionary that holds an identity and the volume number expected; the
    reader handed back has that identity, and nothing is logged after the
    header is read. *)
Theorem read_volheader_accepts_only :
  forall (ai ai' : carchreader) (w w' : world),
    archreader_read_volheader ai w = Returned (0, ai') w' ->
    exists (magic : list byte) (d : cdico) (fsid readid : Z),
      archreader_read_header ai false w
        = Returned (ERR_SUCCESS, mkHeaderOut magic (Some d) fsid) w'
      /\ is_magic_valid magic = true
      /\ strncmp magic FSA_MAGIC_VOLH FSA_SIZEOF_MAGIC = 0
      /\ dico_get_u32 d 0 VOLUMEHEADKEY_ARCHID = Some readid
      /\ archid ai' = readid
      /\ dico_get_u32 d 0 VOLUMEHEADKEY_VOLNUM = Some (curvol ai).
Proof.
  intros ai ai' w w' H.
  unfold archreader_read_volheader in H.
  destruct (archreader_read_header ai false w) as [[res out] w1|f w1] eqn:Hh;
    [|discriminate].
  destruct res; try discriminate.
  destruct (read_header_frame _ _ _ _ _ _ Hh) as (_ & S).
  destruct (S eq_refl) as (Hv & (d & Hd) & _).
  destruct out as [magic od fsid]. cbn [h_magic h_dico] in *. subst od.
  assert (Hw : w' = w1).
  { clear Hh. checks_paths H; reflexivity. }
  subst w1.
  destruct (volheader_checks_success _ _ _ _ _ _ H)
    as (Hm & (readid & Hid & Hida) & Hvol & _).
  exists magic, d, fsid, readid.
  repeat split; try assumption.
  destruct (archid ai =? 0) eqn:A.
  - clear Hh. unfold volheader_checks in H.
    rewrite Hm, Hid, A in H. cbn [Z.eqb negb] in H.
    repeat (checks_step H; cbv zeta in H; try discriminate H).
    all: inversion H; subst; clear H.
    all: cbn [creatver set_archid set_filefmt].
    all: destruct (byte_val (cchar (creatver ai)) =? 0); reflexivity.
  - apply Z.eqb_neq in A. destruct Hida as [Hida|Hida]; [contradiction|].
    destruct (volheader_checks_inv _ _ _ _ _ _ _ H) as (Hk & _).
    rewrite (Hk A). symmetry. exact Hida.
Qed.

End VolHeaderProps.

(** [read_volheader_established] on volume 1 of the archive with identity
    7, read in the session that has read volume 0. *)
Lemma read_volheader_established_witness :
  @archreader_read_volheader Reference.externals Reference.reader_vol1
    (Reference.volume Samples.header_vol1 0)
  = Returned (0, Reference.reader_vol1)
      (Reference.after_header Reference.reader_vol1 Samples.header_vol1).
Proof.
  apply (@read_volheader_established Reference.externals Reference.reader_vol1
           (Reference.volume Samples.header_vol1 0)
           (Reference.after_header Reference.reader_vol1 Samples.header_vol1)
           Reference.magic_volh
           (Reference.volhead_dico 7 1 "FsArCh_002" "0.6.8") 65535
           Reference.filefmt_002
           (overwrite (Reference.bytes_of "0.6.8") (repeat x00 32))).
  - vm_compute. reflexivity.
  - reflexivity.
  - vm_compute. discriminate.
  - reflexivity.
  - reflexivity.
  - vm_compute. discriminate.
  - vm_compute. reflexivity.
  - vm_compute. reflexivity.
  - vm_compute. discriminate.
  - vm_compute. reflexivity.
Defined.

(** [read_volheader_refused_sets_archid] on the header of volume 5 offered
    to a fresh reader, which expects volume 0: the call returns -1 and the
    reader has the identity 7. *)
Lemma read_volheader_refused_sets_archid_witness :
  @archreader_read_volheader Reference.externals
    (Reference.reader 0 0 "backup.fsa")
    (Reference.volume Reference.header_vol5 0)
  = Returned (-1, Reference.reader 7 0 "backup.fsa")
      (errprintf "wrong volume number in [%s]: volnum is %d and we need volnum %d"
         (Reference.after_header (Reference.reader 0 0 "backup.fsa")
                                 Reference.header_vol5)).
Proof.
  apply (@read_volheader_refused_sets_archid Reference.externals
           (Reference.reader 0 0 "backup.fsa")
           (Reference.volume Reference.header_vol5 0)
           (Reference.after_header (Reference.reader 0 0 "backup.fsa")
                                   Reference.header_vol5)
           Reference.magic_volh
           (Reference.volhead_dico 7 5 "FsArCh_002" "0.6.8") 65535 7 5).
  - vm_compute. reflexivity.
  - reflexivity.
  - reflexivity.
  - reflexivity.
  - reflexivity.
  - vm_compute. discriminate.
Defined.

(** [read_volheader_accepts_only] on volume 0 of the archive with identity
    7, read into a fresh reader. *)
Lemma read_volheader_accepts_only_witness :
  exists (magic : list byte) (d : cdico) (fsid readid : Z),
    @archreader_read_header Reference.externals
      (Reference.reader 0 0 "backup.fsa") false
      (Reference.volume Reference.volume_header 0)
    = Returned (ERR_SUCCESS, mkHeaderOut magic (Some d) fsid)
        (Reference.after_header (Reference.reader 0 0 "backup.fsa")
                                Reference.volume_header)
    /\ @is_magic_valid Reference.externals magic = true
    /\ strncmp magic Reference.magic_volh 8 = 0
    /\ Reference.dico_get_uint 4 d 0 1 = Some readid
    /\ 7 = readid
    /\ Reference.dico_get_uint 4 d 0 0 = Some 0.
Proof.
  apply (@read_volheader_accepts_only Reference.externals
           (Reference.reader 0 0 "backup.fsa")
           (mkReader 3 7 0 0 0 (-1) (-1) "backup.fsa" EmptyString
                     Reference.filefmt_002
                     (overwrite (Reference.bytes_of "0.6.8") (repeat x00 32)))
           (Reference.volume Reference.volume_header 0)
           (Reference.after_header (Reference.reader 0 0 "backup.fsa")
                                   Reference.volume_header)).
  vm_compute. reflexivity.
Defined.

(** ** archreader_volpath and archreader_incvolume: the names of the
    volumes *)

Section VolPathProps.
Context {E : Externals}.

Lemma substring_0_length_le (n : nat) (s : string) :
  (String.length (substring 0 n s) <= n)%nat.
Proof.
  revert n; induction s as [|c s IH]; intros n.
  - destruct n; cbn; lia.
  - destruct n as [|n]; [cbn; lia|].
    cbn [substring String.length]. specialize (IH n). lia.
Qed.

Lemma substring_0_twice (s : string) :
  forall n m : nat, (n <= m)%nat ->
    substring 0 n (substring 0 m s) = substring 0 n s.
Proof.
  induction s as [|c s IH]; intros n m H.
  - destruct m; reflexivity.
  - destruct m as [|m]; [assert (n = 0%nat) by lia; subst; reflexivity|].
    destruct n as [|n]; [reflexivity|].
    cbn [substring]. rewrite IH by lia. reflexivity.
Qed.

(** Cutting the second string first makes no difference to a cut of the
    whole that is not longer. *)
Lemma substring_0_app_cut (a b : string) :
  forall n m : nat, (n <= m)%nat ->
    substring 0 n (a ++ substring 0 m b) = substring 0 n (a ++ b).
Proof.
  induction a as [|c a IH]; intros n m H; cbn [append].
  - now apply substring_0_twice.
  - destruct n as [|n]; [reflexivity|].
    cbn [substring]. rewrite IH by lia. reflexivity.
Qed.

Lemma append_cancel_l (a b c : string) :
  (a ++ b)%string = (a ++ c)%string -> b = c.
Proof.
  induction a as [|x a IH]; cbn [append]; intros H; [exact H|].
  inversion H. now apply IH.
Qed.

(** The digits archreader_volpath prints for a volume number are those of
    the number. *)
Lemma volnum_digits_value (k : Z) :
  1 <= k < 2 ^ 32 -> dec_value (volnum_digits k) = k.
Proof.
  intros H. unfold volnum_digits.
  destruct (k <? 100) eqn:C.
  - apply Z.ltb_lt in C.
    rewrite fmt_ld_two_digits by lia.
    assert (Hq : 0 <= k / 10 <= 9).
    { split; [apply Z.div_pos; lia|].
      assert (k / 10 < 10) by (apply Z.div_lt_upper_bound; lia). lia. }
    assert (Hr : 0 <= k mod 10 <= 9)
      by (pose proof (Z.mod_pos_bound k 10 ltac:(lia)); lia).
    cbn [dec_value String.length Z.of_nat].
    rewrite !digit_char_code by assumption.
    pose proof (Z.div_mod k 10 ltac:(lia)) as D.
    change (10 ^ Z.of_nat 1) with 10. change (10 ^ 0) with 1. lia.
  - apply Z.ltb_ge in C. apply fmt_ld_plain. lia.
Qed.

(** The path of a volume after the first, whatever its length. *)
Lemma volpath_later (ai : carchreader) (w : world) :
  (4 <= String.length (basepath ai) < PATH_MAX)%nat ->
  curvol ai <> 0 ->
  archreader_volpath ai w =
    (0,
     set_volpath
       (substring 0 (PATH_MAX - 1)
          (drop_last2 (basepath ai) ++ volnum_digits (curvol ai))) ai,
     w).
Proof.
  intros Hlen Hvol.
  unfold archreader_volpath.
  destruct (String.length (basepath ai) <? 4)%nat eqn:L;
    [apply Nat.ltb_lt in L; lia|].
  apply Z.eqb_neq in Hvol. rewrite Hvol.
  fold (drop_last2 (basepath ai)).
  assert (Htemp : (if curvol ai <? 100
                   then snprintf PATH_MAX (fmt_ld 2 (curvol ai))
                   else snprintf PATH_MAX (fmt_ld 1 (curvol ai)))
                  = substring 0 (PATH_MAX - 1) (volnum_digits (curvol ai))).
  { unfold snprintf, volnum_digits. destruct (curvol ai <? 100); reflexivity. }
  rewrite Htemp. unfold strlcat.
  rewrite drop_last2_length.
  destruct (PATH_MAX <=? String.length (basepath ai) - 2)%nat eqn:P;
    [apply Nat.leb_le in P; lia|].
  rewrite substring_0_app_cut by lia.
  reflexivity.
Qed.

(** The volume path never overruns its array.  For a volume after the
    first, the path is the base path without its last two characters
    followed by the digits of the volume number, cut to PATH_MAX - 1
    characters: a name that does not fit is shortened, and the call returns
    0 all the same. *)
Theorem volpath_cut :
  forall (ai : carchreader) (w : world),
    (4 <= String.length (basepath ai) < PATH_MAX)%nat ->
    curvol ai <> 0 ->
    let full := (drop_last2 (basepath ai) ++ volnum_digits (curvol ai))%string in
    archreader_volpath ai w
    = (0, set_volpath (substring 0 (PATH_MAX - 1) full) ai, w)
    /\ (String.length (volpath (snd (fst (archreader_volpath ai w)))) < PATH_MAX)%nat
    /\ ((String.length full < PATH_MAX)%nat ->
        volpath (snd (fst (archreader_volpath ai w))) = full).
Proof.
  intros ai w Hlen Hvol full.
  rewrite (volpath_later ai w Hlen Hvol). fold full.
  cbn [fst snd volpath set_volpath].
  split; [reflexivity|]. split.
  - pose proof (substring_0_length_le (PATH_MAX - 1) full). lia.
  - intros Hfit. apply substring_0_all. lia.
Qed.

(** What archreader_volpath guarantees on every call.  The result is 0
    when the base path has at least 4 characters and -1 otherwise; nothing
    of the reader changes but the volume path, and with -1 not even that; a
    call that returns 0 logs nothing; and a second call on the reader
    handed back gives the same reader again. *)
Theorem volpath_outcome :
  forall (ai : carchreader) (w : world),
    let ret := fst (fst (archreader_volpath ai w)) in
    let ai' := snd (fst (archreader_volpath ai w)) in
    let w' := snd (archreader_volpath ai w) in
    (ret = 0 \/ ret = -1)
    /\ (ret = 0 <-> (4 <= String.length (basepath ai))%nat)
    /\ ai' = set_volpath (volpath ai') ai
    /\ (ret = -1 -> ai' = ai)
    /\ (ret = 0 -> w' = w)
    /\ fst (archreader_volpath ai' w) = (ret, ai').
Proof.
  intros ai w. cbv zeta.
  destruct ai as [fd id vol ca cr cl fc base vp ff cv].
  unfold archreader_volpath.
  cbn [basepath curvol].
  destruct (String.length base <? 4)%nat eqn:L.
  - cbn [fst snd basepath curvol volpath set_volpath]. rewrite L.
    cbn [fst snd]. apply Nat.ltb_lt in L.
    repeat split; auto; try discriminate; try lia.
  - destruct (vol =? 0) eqn:V.
    + destruct (realpath base) as [resolved|] eqn:R;
        cbn [fst snd basepath curvol volpath set_volpath
             archfd archid compalgo cryptalgo complevel fsacomp filefmt creatver];
        rewrite L, V, ?R; cbn [fst snd]; apply Nat.ltb_ge in L;
        repeat split; auto; try discriminate; try lia.
    + cbn [fst snd basepath curvol volpath set_volpath
           archfd archid compalgo cryptalgo complevel fsacomp filefmt creatver].
      rewrite L, V. cbn [fst snd]. apply Nat.ltb_ge in L.
      repeat split; auto; try discriminate; try lia.
Qed.

(** Volumes after the first whose names fit the array have different
    paths when their numbers differ. *)
Theorem volpath_injective :
  forall (ai1 ai2 : carchreader) (w1 w2 : world),
    basepath ai1 = basepath ai2 ->
    (4 <= String.length (basepath ai1) < PATH_MAX)%nat ->
    1 <= curvol ai1 < 2 ^ 32 ->
    1 <= curvol ai2 < 2 ^ 32 ->
    (String.length (drop_last2 (basepath ai1) ++ volnum_digits (curvol ai1))
     < PATH_MAX)%nat ->
    (String.length (drop_last2 (basepath ai2) ++ volnum_digits (curvol ai2))
     < PATH_MAX)%nat ->
    curvol ai1 <> curvol ai2 ->
    volpath (snd (fst (archreader_volpath ai1 w1)))
    <> volpath (snd (fst (archreader_volpath ai2 w2))).
Proof.
  intros ai1 ai2 w1 w2 Hb Hlen H1 H2 F1 F2 Hne Heq.
  rewrite (volpath_later ai1 w1) in Heq by (try assumption; lia).
  rewrite (volpath_later ai2 w2) in Heq by (try (rewrite <- Hb; assumption); lia).
  cbn [fst snd volpath set_volpath] in Heq.
  rewrite !substring_0_all in Heq by lia.
  rewrite <- Hb in Heq.
  apply append_cancel_l in Heq.
  apply Hne.
  rewrite <- (volnum_digits_value (curvol ai1)) by assumption.
  rewrite <- (volnum_digits_value (curvol ai2)) by assumption.
  now rewrite Heq.
Qed.

Lemma incvolume_succ (ai : carchreader) (waitkeypress : bool) (w : world) :
  (4 <= String.length (basepath ai) < PATH_MAX)%nat ->
  0 <= curvol ai ->
  curvol ai + 1 < 2 ^ 32 ->
  archreader_incvolume ai waitkeypress w =
    (0,
     set_volpath
       (substring 0 (PATH_MAX - 1)
          (drop_last2 (basepath ai) ++ volnum_digits (curvol ai + 1)))
       (set_curvol (curvol ai + 1) ai),
     w).
Proof.
  intros Hlen H0 Hmax.
  unfold archreader_incvolume.
  rewrite Z.mod_small by lia.
  rewrite volpath_later; cbn [basepath curvol set_curvol]; try assumption;
    [reflexivity | lia].
Qed.

Lemma incvolume_times_succ :
  forall (n : nat) (ai : carchreader) (w : world),
    (4 <= String.length (basepath ai) < PATH_MAX)%nat ->
    0 <= curvol ai ->
    curvol ai + Z.of_nat (S n) < 2 ^ 32 ->
    incvolume_times (S n) ai w =
      (0,
       set_volpath
         (substring 0 (PATH_MAX - 1)
            (drop_last2 (basepath ai)
             ++ volnum_digits (curvol ai + Z.of_nat (S n))))
         (set_curvol (curvol ai + Z.of_nat (S n)) ai),
       w).
Proof.
  induction n as [|n IH]; intros ai w Hlen H0 Hmax.
  - cbn [incvolume_times].
    rewrite incvolume_succ by (try assumption; lia).
    reflexivity.
  - remember (S n) as m eqn:Em.
    cbn [incvolume_times].
    rewrite incvolume_succ by (try assumption; lia).
    cbn [Z.eqb]. subst m.
    rewrite IH; cbn [basepath curvol set_curvol set_volpath]; try assumption;
      try lia.
    unfold set_volpath, set_curvol.
    cbn [archfd archid curvol compalgo cryptalgo complevel fsacomp basepath
         volpath filefmt creatver].
    replace (curvol ai + 1 + Z.of_nat (S n)) with (curvol ai + Z.of_nat (S (S n)))
      by lia.
    reflexivity.
Qed.

(** archreader_incvolume called [n] times in a row, for a base path the
    array holds and while the volume number stays below 2^32: every call
    returns 0, the volume number has grown by [n], and the volume path is
    the one of that number, made from the base path and not from the path
    of the volume before; nothing is logged. *)
Theorem incvolume_chain :
  forall (n : nat) (ai : carchreader) (w : world),
    (0 < n)%nat ->
    (4 <= String.length (basepath ai) < PATH_MAX)%nat ->
    0 <= curvol ai ->
    curvol ai + Z.of_nat n < 2 ^ 32 ->
    incvolume_times n ai w =
      (0,
       set_volpath
         (substring 0 (PATH_MAX - 1)
            (drop_last2 (basepath ai) ++ volnum_digits (curvol ai + Z.of_nat n)))
         (set_curvol (curvol ai + Z.of_nat n) ai),
       w).
Proof.
  intros n ai w Hn. destruct n as [|n]; [lia|].
  apply incvolume_times_succ.
Qed.

End VolPathProps.

(** [volpath_cut] in a build whose paths hold 11 characters: the name of
    volume 1000 of "backup.fsa" is cut to the name of volume 100. *)
Lemma volpath_cut_witness :
  @archreader_volpath Samples.externals_short
    (Reference.reader 7 1000 "backup.fsa") (Reference.volume [] 0)
  = (0, set_volpath "backup.f100" (Reference.reader 7 1000 "backup.fsa"),
     Reference.volume [] 0)
  /\ (String.length
        (volpath (snd (fst (@archreader_volpath Samples.externals_short
                              (Reference.reader 7 1000 "backup.fsa")
                              (Reference.volume [] 0)))))
      < 12)%nat
  /\ ((String.length "backup.f1000" < 12)%nat ->
      volpath (snd (fst (@archreader_volpath Samples.externals_short
                           (Reference.reader 7 1000 "backup.fsa")
                           (Reference.volume [] 0))))
      = "backup.f1000"%string).
Proof.
  apply (@volpath_cut Samples.externals_short
           (Reference.reader 7 1000 "backup.fsa") (Reference.volume [] 0)).
  - cbn. lia.
  - cbn. discriminate.
Defined.

(** [volpath_injective] on the volumes 10 and 100 of "backup.fsa". *)
Lemma volpath_injective_witness :
  volpath (snd (fst (@archreader_volpath Reference.externals
                       (Reference.reader 7 10 "backup.fsa")
                       (Reference.volume [] 0))))
  = "backup.f10"%string
  /\ volpath (snd (fst (@archreader_volpath Reference.externals
                          (Reference.reader 7 100 "backup.fsa")
                          (Reference.volume [] 0))))
     = "backup.f100"%string
  /\ volpath (snd (fst (@archreader_volpath Reference.externals
                          (Reference.reader 7 10 "backup.fsa")
                          (Reference.volume [] 0))))
     <> volpath (snd (fst (@archreader_volpath Reference.externals
                             (Reference.reader 7 100 "backup.fsa")
                             (Reference.volume [] 0)))).
Proof.
  split; [reflexivity|]. split; [reflexivity|].
  apply (@volpath_injective Reference.externals
           (Reference.reader 7 10 "backup.fsa")
           (Reference.reader 7 100 "backup.fsa")
           (Reference.volume [] 0) (Reference.volume [] 0)).
  - reflexivity.
  - cbn. lia.
  - cbn. lia.
  - cbn. lia.
  - cbn. lia.
  - cbn. lia.
  - cbn. discriminate.
Defined.

(** [incvolume_chain] on three calls from volume 98 of "backup.fsa": the
    reader is on volume 101 with the path "backup.f101". *)
Lemma incvolume_chain_witness :
  @incvolume_times Reference.externals 3
    (Reference.reader 7 98 "backup.fsa") (Reference.volume [] 0)
  = (0,
     set_volpath "backup.f101"
       (set_curvol 101 (Reference.reader 7 98 "backup.fsa")),
     Reference.volume [] 0).
Proof.
  apply (@incvolume_chain Reference.externals 3
           (Reference.reader 7 98 "backup.fsa") (Reference.volume [] 0)).
  - lia.
  - cbn. lia.
  - cbn. lia.
  - cbn. lia.
Defined.

(** ** From the bytes of a volume to the session *)

Section WholeVolume.
Context {E : Externals}.

(** archreader_read_data is all or nothing, for a size [n] that fits a
    u16, as the sizes archreader_read_dico and archreader_read_header
    pass; on such a size the cast (long)size is the identity.  When the
    volume holds [n] bytes from its offset on, the call returns 0 with
    these bytes and the offset behind them.  When it holds fewer, the call
    returns -1 after one read, with no second attempt, and the offset is at
    the end of the volume. *)
Theorem read_data_all_or_nothing :
  forall (ai : carchreader) (w : world) (bs : list byte) (n : nat),
    0 <= archfd ai ->
    Z.of_nat n < 2 ^ 16 ->
    remaining w bs ->
    ((n <= length bs)%nat ->
     archreader_read_data ai (Z.of_nat n) w
     = (0, firstn n bs,
        mkWorld (file w) (fpos w + Z.of_nat n) (heap w)
                (EvRead (Z.of_nat n) (Z.of_nat n) :: log w)))
    /\ ((length bs < n)%nat ->
        archreader_read_data ai (Z.of_nat n) w
        = (-1, bs,
           mkWorld (file w) (fpos w + Z.of_nat (length bs)) (heap w)
                   (EvErr "read failed: read(size=%ld)=%ld"
                    :: EvRead (Z.of_nat n) (Z.of_nat (length bs)) :: log w))).
Proof.
  intros ai w bs n Hfd _ Hr. split; intros Hn.
  - rewrite <- (firstn_skipn n bs) in Hr.
    destruct (read_data_remaining ai w _ _ Hfd Hr) as [R _].
    rewrite length_firstn, Nat.min_l in R by exact Hn.
    exact R.
  - apply read_data_short; [assumption | assumption | lia].
Qed.

(** The first volume, from its bytes.  A fresh reader (no identity, no
    file format) at a header that starts with the magic of a volume header
    and whose dictionary is laid out with well-formed records, among them
    an identity, the volume number expected, a file format and the version
    of the creator: archreader_read_volheader returns 0 with the volume at
    the end of the header, and the identity of the session is the one of
    the dictionary, whatever the archive id field of the header holds. *)
Theorem read_volheader_decodes :
  forall (ai : carchreader) (w : world)
         (magic idb fsidb len sum : list byte) (d0 : cdico)
         (items : list dicoitem) (slack : list byte)
         (readid : Z) (fmt ver : list byte),
    0 <= archfd ai ->
    dico_alloc = Some d0 ->
    pending w (magic ++ idb ++ fsidb ++ len ++ region_of items slack ++ sum) ->
    length magic = FSA_SIZEOF_MAGIC ->
    is_magic_valid magic = true ->
    strncmp magic FSA_MAGIC_VOLH FSA_SIZEOF_MAGIC = 0 ->
    length idb = 4%nat ->
    archid ai = 0 ->
    byte_val (cchar (filefmt ai)) = 0 ->
    length fsidb = 2%nat ->
    length len = 2%nat -> length sum = 4%nat ->
    Z.of_nat (length (region_of items slack)) = le_to_cpu len ->
    le_to_cpu len <= heap w ->
    fletcher32 (region_of items slack) = le_to_cpu sum ->
    Z.of_nat (length items) < 65536 ->
    Forall item_wellformed items ->
    fst (add_items d0 items) = true ->
    let d := snd (add_items d0 items) in
    dico_get_u32 d 0 VOLUMEHEADKEY_ARCHID = Some readid ->
    dico_get_u32 d 0 VOLUMEHEADKEY_VOLNUM = Some (curvol ai) ->
    dico_get_data d 0 VOLUMEHEADKEY_FILEFORMATVER FSA_MAX_FILEFMTLEN = Some fmt ->
    dico_get_data d 0 VOLUMEHEADKEY_PROGVERCREAT FSA_MAX_PROGVERLEN = Some ver ->
    let M := Z.of_nat FSA_SIZEOF_MAGIC in
    let L := le_to_cpu len in
    exists ai',
      archreader_read_volheader ai w
      = Returned (0, ai')
          (mkWorld (file w) (fpos w + M + 4 + 2 + 2 + L + 4) (heap w)
             (EvFree L :: EvRead 4 4 :: EvRead L L :: EvMalloc L :: EvRead 2 2
              :: EvRead 2 2 :: EvRead 4 4 :: EvRead M M :: EvSeekCur 0 :: log w))
      /\ archid ai' = readid.
Proof.
  intros ai w magic idb fsidb len sum d0 items slack readid fmt ver
         Hfd Hd Hp Hml Hmv Hvolh Hil Ha Hf Hfl Hlen Hsum HL Hheap Hok Hcount Hwf
         Hadd d Hid Hvol Hfmt Hver M L.
  unfold archreader_read_volheader.
  rewrite (read_header_laid_out ai false w magic idb fsidb len sum d0 items slack);
    try assumption; [|left; exact Ha].
  cbn [h_magic h_dico]. fold d.
  eapply volheader_checks_accepts; try eassumption.
  left. exact Hf.
Qed.

End WholeVolume.

(** [read_data_all_or_nothing] on a volume of four bytes read from offset
    1: three bytes are there, four are not. *)
Lemma read_data_all_or_nothing_witness :
  archreader_read_data (Reference.reader 7 0 "backup.fsa") 3
    (Reference.volume Reference.payload 1)
  = (0, [x0b; x0c; x0d],
     mkWorld Reference.payload 4 1048576 [EvRead 3 3])
  /\ archreader_read_data (Reference.reader 7 0 "backup.fsa") 4
       (Reference.volume Reference.payload 1)
     = (-1, [x0b; x0c; x0d],
        mkWorld Reference.payload 4 1048576
          [EvErr "read failed: read(size=%ld)=%ld"; EvRead 4 3]).
Proof.
  split.
  - apply (proj1 (@read_data_all_or_nothing Reference.externals
                    (Reference.reader 7 0 "backup.fsa")
                    (Reference.volume Reference.payload 1)
                    [x0b; x0c; x0d] 3
                    ltac:(cbn; lia)
                    ltac:(cbn; lia)
                    ltac:(split; [cbn; lia | reflexivity]))).
    cbn. lia.
  - apply (proj2 (@read_data_all_or_nothing Reference.externals
                    (Reference.reader 7 0 "backup.fsa")
                    (Reference.volume Reference.payload 1)
                    [x0b; x0c; x0d] 4
                    ltac:(cbn; lia)
                    ltac:(cbn; lia)
                    ltac:(split; [cbn; lia | reflexivity]))).
    cbn. lia.
Defined.

(** [read_volheader_decodes] on a header of volume 1 whose archive id
    field is 7 and whose dictionary holds the identity 8, offered to a
    reader without identity that expects volume 1: it is accepted and the
    session has the identity 8. *)
Lemma read_volheader_decodes_witness :
  exists ai',
    @archreader_read_volheader Reference.externals
      (Reference.reader 0 1 "backup.fsa")
      (Reference.volume Reference.header_other_id 0)
    = Returned (0, ai')
        (mkWorld Reference.header_other_id
           (0 + 8 + 4 + 2 + 2
            + le_to_cpu (Reference.frame_len
                           (region_of (Reference.volhead_dico 8 1 "FsArCh_002" "0.6.8")
                                      []))
            + 4)
           1048576
           [EvFree 51; EvRead 4 4; EvRead 51 51; EvMalloc 51; EvRead 2 2;
            EvRead 2 2; EvRead 4 4; EvRead 8 8; EvSeekCur 0])
    /\ archid ai' = 8.
Proof.
  apply (@read_volheader_decodes Reference.externals
           (Reference.reader 0 1 "backup.fsa")
           (Reference.volume Reference.header_other_id 0)
           Reference.magic_volh (cpu_to_le 4 7) (cpu_to_le 2 65535)
           (Reference.frame_len
              (region_of (Reference.volhead_dico 8 1 "FsArCh_002" "0.6.8") []))
           (Reference.frame_sum
              (region_of (Reference.volhead_dico 8 1 "FsArCh_002" "0.6.8") []))
           [] (Reference.volhead_dico 8 1 "FsArCh_002" "0.6.8") []
           8 Reference.filefmt_002
           (overwrite (Reference.bytes_of "0.6.8") (repeat x00 32))).
  - cbn. lia.
  - reflexivity.
  - split; [cbn; lia | exists []; vm_compute; reflexivity].
  - reflexivity.
  - reflexivity.
  - reflexivity.
  - reflexivity.
  - reflexivity.
  - reflexivity.
  - reflexivity.
  - reflexivity.
  - reflexivity.
  - vm_compute. reflexivity.
  - vm_compute. discriminate.
  - vm_compute. reflexivity.
  - cbn. lia.
  - wellformed_items.
  - reflexivity.
  - reflexivity.
  - reflexivity.
  - vm_compute. reflexivity.
  - vm_compute. reflexivity.
Defined.

(** * The archive id 0 *)

Section Sentinel.
Context {E : Externals}.

(** An event other than the two messages of the identity checks leaves
    [id_mismatch_reported] as it is. *)
Lemma quiet_cons (f : list byte) (p h : Z) (e : event) (w : world) :
  id_mismatch_event e = false ->
  id_mismatch_reported w = false ->
  id_mismatch_reported (mkWorld f p h (e :: log w)) = false.
Proof.
  intros He Hw. unfold id_mismatch_reported in *. cbn [log existsb].
  now rewrite He, Hw.
Qed.

Ltac quiet :=
  unfold errprintf, sysprintf, msgprintf, emit, sys_free;
  repeat (apply quiet_cons; [reflexivity|]);
  try assumption.

Lemma quiet_read (fd n : Z) (w w' : world) (r : Z) (got : list byte) :
  sys_read fd n w = (r, got, w') ->
  id_mismatch_reported w = false -> id_mismatch_reported w' = false.
Proof.
  unfold sys_read. intros H Hw.
  destruct (fd <? 0); inversion H; subst; quiet.
Qed.

Lemma quiet_lseek (fd off : Z) (wh : whence) (w w' : world) (r : Z) :
  sys_lseek fd off wh w = (r, w') ->
  id_mismatch_reported w = false -> id_mismatch_reported w' = false.
Proof.
  unfold sys_lseek. intros H Hw.
  destruct (fd <? 0); [inversion H; subst; quiet|].
  destruct (_ <? 0); inversion H; subst; [quiet|].
  destruct wh; quiet.
Qed.

Lemma quiet_malloc (n : Z) (w w' : world) (ok : bool) :
  sys_malloc n w = (ok, w') ->
  id_mismatch_reported w = false -> id_mismatch_reported w' = false.
Proof.
  unfold sys_malloc. intros H Hw.
  destruct (n <=? heap w); inversion H; subst; quiet.
Qed.

Lemma quiet_read_data (ai : carchreader) (n : Z) (w w' : world)
      (r : Z) (got : list byte) :
  archreader_read_data ai n w = (r, got, w') ->
  id_mismatch_reported w = false -> id_mismatch_reported w' = false.
Proof.
  unfold archreader_read_data. intros H Hw.
  destruct (sys_read (archfd ai) n w) as [[lres g] w1] eqn:R.
  apply quiet_read in R; [|assumption].
  destruct (negb (lres =? n)); inversion H; subst; quiet.
Qed.

Lemma quiet_read_dico (ai : carchreader) (d : cdico) (w : world) :
  id_mismatch_reported w = false ->
  id_mismatch_reported (outcome_world (archreader_read_dico ai d w)) = false.
Proof.
  intros Hw. unfold archreader_read_dico.
  destruct (archreader_read_data ai 2 w) as [[r1 b1] w1] eqn:R1.
  apply quiet_read_data in R1; [|assumption].
  destruct (negb (r1 =? 0)); [cbn [outcome_world]; quiet|].
  destruct (sys_malloc (le_to_cpu b1) w1) as [ok w2] eqn:M.
  apply quiet_malloc in M; [|assumption].
  destruct (negb ok); [cbn [outcome_world]; quiet|].
  destruct (archreader_read_data ai (le_to_cpu b1) w2) as [[r2 b2] w3] eqn:R2.
  apply quiet_read_data in R2; [|assumption].
  destruct (negb (r2 =? 0)); [cbn [outcome_world]; quiet|].
  destruct (archreader_read_data ai 4 w3) as [[r3 b3] w4] eqn:R3.
  apply quiet_read_data in R3; [|assumption].
  destruct (negb (r3 =? 0)); [cbn [outcome_world]; quiet|].
  destruct (negb (fletcher32 b2 =? le_to_cpu b3)); [cbn [outcome_world]; quiet|].
  destruct (buf_get b2 0 2); [|cbn [outcome_world]; quiet].
  destruct (read_items _ b2 2 d); cbn [outcome_world]; quiet.
Qed.

Lemma quiet_resync (ai : carchreader) :
  forall (fuel : nat) (curpos : Z) (magic : list byte) (w : world) (sc : scan_result),
    resync_scan fuel ai curpos magic w = Some sc ->
    id_mismatch_reported w = false ->
    id_mismatch_reported (scan_world sc) = false.
Proof.
  induction fuel as [|fuel IH]; intros curpos magic w sc H Hw; cbn [resync_scan] in H.
  - destruct (is_magic_valid magic); [|discriminate].
    inversion H; subst. exact Hw.
  - destruct (is_magic_valid magic); [inversion H; subst; exact Hw|].
    destruct (sys_lseek (archfd ai) curpos SEEK_SET w) as [r w1] eqn:L.
    apply quiet_lseek in L; [|assumption].
    destruct (r <? 0); [inversion H; subst; cbn [scan_world]; quiet|].
    destruct (archreader_read_data ai (Z.of_nat FSA_SIZEOF_MAGIC) w1)
      as [[res got] w2] eqn:R.
    apply quiet_read_data in R; [|assumption].
    destruct (negb (res =? 0)); [inversion H; subst; cbn [scan_world]; quiet|].
    eapply IH; eassumption.
Qed.

Lemma quiet_header_magic (ai : carchreader) (allowseek : bool) (w : world) :
  id_mismatch_reported w = false ->
  id_mismatch_reported (locate_world (read_header_magic ai allowseek w)) = false.
Proof.
  intros Hw. unfold read_header_magic.
  destruct dico_alloc as [d|]; [|cbn [locate_world]; quiet].
  destruct (sys_lseek (archfd ai) 0 SEEK_CUR w) as [curpos w1] eqn:L.
  apply quiet_lseek in L; [|assumption].
  destruct (curpos <? 0); [cbn [locate_world]; quiet|].
  destruct (archreader_read_data ai (Z.of_nat FSA_SIZEOF_MAGIC) w1)
    as [[res got] w2] eqn:R.
  apply quiet_read_data in R; [|assumption].
  destruct (negb (res =? 0)); [cbn [locate_world]; quiet|].
  destruct (negb (is_magic_valid _) && negb allowseek); [cbn [locate_world]; quiet|].
  destruct (resync_scan (scan_bound w2) ai curpos _ w2) as [sc|] eqn:S;
    [|cbn [locate_world]; quiet].
  apply quiet_resync in S; [|assumption].
  destruct (scan_found sc); cbn [locate_world]; exact S.
Qed.

(** With no identity established the check of the archive id field is not
    made: archreader_read_header reports no mismatch. *)
Lemma quiet_read_header (ai : carchreader) (allowseek : bool) (w : world) :
  archid ai = 0 ->
  id_mismatch_reported w = false ->
  id_mismatch_reported (outcome_world (archreader_read_header ai allowseek w)) = false.
Proof.
  intros Ha Hw. unfold archreader_read_header.
  pose proof (quiet_header_magic ai allowseek w Hw) as Q.
  destruct (read_header_magic ai allowseek w) as [magic d w1|out w1|w1];
    cbn [locate_world] in Q; cbn [outcome_world]; try exact Q.
  unfold read_header_fields.
  destruct (archreader_read_data ai 4 w1) as [[r1 b1] w2] eqn:R1.
  apply quiet_read_data in R1; [|assumption].
  destruct (negb (r1 =? 0)); [cbn [outcome_world]; quiet|].
  rewrite Ha. cbn [Z.eqb negb andb].
  destruct (archreader_read_data ai 2 w2) as [[r2 b2] w3] eqn:R2.
  apply quiet_read_data in R2; [|assumption].
  destruct (negb (r2 =? 0)); [cbn [outcome_world]; quiet|].
  pose proof (quiet_read_dico ai d w3 R2) as Q3.
  destruct (archreader_read_dico ai d w3) as [[res d'] w4|f w4];
    cbn [outcome_world] in *; [|exact Q3].
  destruct res; cbn [outcome_world]; quiet.
Qed.

(** With no identity established the identity of the dictionary is taken,
    not compared: the checks report no mismatch. *)
Lemma quiet_volheader_checks (ai : carchreader) (magic : list byte)
      (od : option cdico) (w : world) :
  archid ai = 0 ->
  id_mismatch_reported w = false ->
  id_mismatch_reported (outcome_world (volheader_checks ai magic od w)) = false.
Proof.
  intros Ha Hw. unfold volheader_checks. rewrite Ha. cbn [Z.eqb].
  repeat match goal with
         | |- context [match (if ?c then _ else _) with _ => _ end] => destruct c
         | |- context [if ?c then _ else _] => destruct c
         | |- context [match ?x with _ => _ end] => destruct x
         end;
    cbn [outcome_world]; quiet.
Qed.

(** *** C10 *)

(** C10, as amended.  The archive id 0 is the mark of "no identity yet":
    archreader_init sets [archid] to 0.  For a reader whose [archid] is
    0:
    - a volume header that reports the identity 0 leaves [archid] at 0,
      whatever archreader_read_volheader returns;
    - archreader_read_header reports no identity mismatch, whatever the
      archive id field of the header holds, and a whole header that lies
      at the offset is read with ERR_SUCCESS whatever that field holds;
    - archreader_read_volheader reports no identity mismatch either, and a
      header that agrees in volume number and file format is accepted with
      whatever identity its dictionary holds: this identity is the one of
      the reader afterwards, so the first accepted header that reports an
      identity other than 0 establishes it.
    For a reader whose [archid] is not 0, also one that got it from a
    volume after the first, a header whose archive id field differs is
    refused: archreader_read_header returns ERR_MINOR and reports the
    mismatch, and archreader_read_volheader returns -1. *)
Theorem archid_zero_is_unset :
  forall (ai : carchreader) (w : world),
    archid (snd (archreader_init ai)) = 0
    /\
    (archid ai = 0 ->
    (forall (magic : list byte) (d : cdico) (fsid : Z) (w1 : world)
            (ret : Z) (ai' : carchreader) (w' : world),
        archreader_read_header ai false w
          = Returned (ERR_SUCCESS, mkHeaderOut magic (Some d) fsid) w1 ->
        dico_get_u32 d 0 VOLUMEHEADKEY_ARCHID = Some 0 ->
        archreader_read_volheader ai w = Returned (ret, ai') w' ->
        archid ai' = 0)
    /\ (forall allowseek : bool,
          id_mismatch_reported w = false ->
          id_mismatch_reported
            (outcome_world (archreader_read_header ai allowseek w)) = false)
    /\ (id_mismatch_reported w = false ->
        id_mismatch_reported
          (outcome_world (archreader_read_volheader ai w)) = false)
    /\ (forall (allowseek : bool) (magic idb fsidb len sum : list byte)
               (d0 : cdico) (items : list dicoitem) (slack : list byte),
          0 <= archfd ai ->
          dico_alloc = Some d0 ->
          pending w (magic ++ idb ++ fsidb ++ len ++ region_of items slack ++ sum) ->
          length magic = FSA_SIZEOF_MAGIC ->
          is_magic_valid magic = true ->
          length idb = 4%nat ->
          length fsidb = 2%nat ->
          length len = 2%nat -> length sum = 4%nat ->
          Z.of_nat (length (region_of items slack)) = le_to_cpu len ->
          le_to_cpu len <= heap w ->
          fletcher32 (region_of items slack) = le_to_cpu sum ->
          Z.of_nat (length items) < 65536 ->
          Forall item_wellformed items ->
          fst (add_items d0 items) = true ->
          exists w1,
            archreader_read_header ai allowseek w
            = Returned (ERR_SUCCESS,
                        mkHeaderOut magic (Some (snd (add_items d0 items)))
                                    (le_to_cpu fsidb)) w1)
    /\ (forall (magic : list byte) (d : cdico) (fsid : Z) (w1 : world)
               (readid : Z) (fmt ver : list byte),
          archreader_read_header ai false w
            = Returned (ERR_SUCCESS, mkHeaderOut magic (Some d) fsid) w1 ->
          strncmp magic FSA_MAGIC_VOLH FSA_SIZEOF_MAGIC = 0 ->
          dico_get_u32 d 0 VOLUMEHEADKEY_ARCHID = Some readid ->
          dico_get_u32 d 0 VOLUMEHEADKEY_VOLNUM = Some (curvol ai) ->
          dico_get_data d 0 VOLUMEHEADKEY_FILEFORMATVER FSA_MAX_FILEFMTLEN
            = Some fmt ->
          byte_val (cchar (filefmt ai)) = 0
          \/ strncmp fmt (filefmt ai) FSA_MAX_FILEFMTLEN = 0 ->
          dico_get_data d 0 VOLUMEHEADKEY_PROGVERCREAT FSA_MAX_PROGVERLEN
            = Some ver ->
          exists ai',
            archreader_read_volheader ai w = Returned (0, ai') w1
            /\ archid ai' = readid))
    /\
    (archid ai <> 0 ->
     forall (allowseek : bool) (magic idb : list byte) (d0 : cdico),
       0 <= archfd ai ->
       pending w (magic ++ idb) ->
       length magic = FSA_SIZEOF_MAGIC ->
       length idb = 4%nat ->
       is_magic_valid magic = true ->
       dico_alloc = Some d0 ->
       le_to_cpu idb <> archid ai ->
       exists out w1 w',
         archreader_read_header ai allowseek w = Returned (ERR_MINOR, out) w1
         /\ id_mismatch_reported w1 = true
         /\ archreader_read_volheader ai w = Returned (-1, ai) w').
Proof.
  intros ai w. split; [reflexivity|]. split.
  - intros Ha. split; [|split; [|split; [|split]]].
    + intros magic d fsid w1 ret ai' w' Hh Hid H.
      unfold archreader_read_volheader in H. rewrite Hh in H.
      cbn [h_magic h_dico] in H.
      destruct (volheader_checks_unset _ _ _ _ _ _ _ _ Ha Hid H); assumption.
    + intros allowseek Hw. now apply quiet_read_header.
    + intros Hw. unfold archreader_read_volheader.
      pose proof (quiet_read_header ai false w Ha Hw) as Q.
      destruct (archreader_read_header ai false w) as [[res out] w1|f w1];
        cbn [outcome_world] in *; [|exact Q].
      destruct res.
      * now apply quiet_volheader_checks.
      * cbn [outcome_world]. quiet.
      * cbn [outcome_world]. quiet.
    + intros allowseek magic idb fsidb len sum d0 items slack
             Hfd Hd Hp Hml Hmv Hil Hfl Hlen Hsum HL Hheap Hok Hcount Hwf Hadd.
      eexists.
      apply (read_header_laid_out ai allowseek w magic idb fsidb len sum d0
               items slack); try assumption.
      left. exact Ha.
    + intros magic d fsid w1 readid fmt ver Hh Hm Hid Hvol Hfmt Hf Hver.
      unfold archreader_read_volheader. rewrite Hh. cbn [h_magic h_dico].
      now apply (volheader_checks_accepts ai magic d w1 readid fmt ver).
  - intros Ha allowseek magic idb d0 Hfd Hp Hml Hil Hmv Hd Hne.
    destruct (sys_read_pending (archfd ai) w magic idb Hfd Hp) as [_ Hp1].
    rewrite Hml in Hp1.
    assert (Hh : forall a : bool,
               archreader_read_header ai a w
               = Returned (ERR_MINOR, mkHeaderOut magic (Some d0) FSA_FILESYSID_NULL)
                   (mkWorld (file w) (fpos w + Z.of_nat FSA_SIZEOF_MAGIC + 4) (heap w)
                      (EvErr "archive-id in header does not match: archid=[%.8x], expected=[%.8x]"
                       :: EvRead 4 4
                       :: EvRead (Z.of_nat FSA_SIZEOF_MAGIC) (Z.of_nat FSA_SIZEOF_MAGIC)
                       :: EvSeekCur 0 :: log w))).
    { intros a. unfold archreader_read_header.
      rewrite (read_header_magic_valid ai a w magic d0)
        by (try assumption; eapply pending_app_l; eassumption).
      rewrite (read_header_fields_id_mismatch ai magic d0 _ idb);
        try assumption.
      reflexivity. }
    do 3 eexists. split; [apply Hh|]. split; [reflexivity|].
    unfold archreader_read_volheader. rewrite Hh. reflexivity.
Qed.

End Sentinel.

(** C10 as it is stated fails.  The first volume reports the identity 0
    and leaves the session without identity; the second volume reports the
    identity 8, is accepted and establishes it; the third volume reports
    the identity 9 and does not pass the identity check:
    archreader_read_header returns ERR_MINOR with the message of the
    mismatch and archreader_read_volheader returns -1. *)
Lemma archid_zero_third_volume_refused :
  let next := fun ai : carchreader =>
    snd (fst (@archreader_incvolume Reference.externals ai false
                (Reference.volume [] 0))) in
  exists (ai1 : carchreader) (w1 : world) (ai2 : carchreader) (w2 : world)
         (out : header_out) (w3 w4 : world),
    @archreader_read_volheader Reference.externals
      (Reference.reader 0 0 "backup.fsa")
      (Reference.volume Reference.header_id0 0)
    = Returned (0, ai1) w1
    /\ archid ai1 = 0
    /\ @archreader_read_volheader Reference.externals (next ai1)
         (Reference.volume Reference.header_id8_vol1 0)
       = Returned (0, ai2) w2
    /\ archid ai2 = 8
    /\ @archreader_read_header Reference.externals (next ai2) false
         (Reference.volume Samples.header_id9_vol2 0)
       = Returned (ERR_MINOR, out) w3
    /\ id_mismatch_reported w3 = true
    /\ @archreader_read_volheader Reference.externals (next ai2)
         (Reference.volume Samples.header_id9_vol2 0)
       = Returned (-1, next ai2) w4.
Proof.
  intros next. subst next.
  do 7 eexists.
  split; [vm_compute; reflexivity|].
  split; [reflexivity|].
  split; [vm_compute; reflexivity|].
  split; [reflexivity|].
  split; [vm_compute; reflexivity|].
  split; [reflexivity|].
  vm_compute. reflexivity.
Qed.

(** [archid_zero_is_unset] on an archive whose first volume reports the
    identity 0: the reader stays without identity; with the reader on
    volume 1 a header of identity 8 raises no mismatch, is read with
    ERR_SUCCESS and is accepted, and the reader has the identity 8.  In the
    session with the identity 7 the same header is refused. *)
Lemma archid_zero_is_unset_witness :
  match @archreader_read_volheader Reference.externals
          (Reference.reader 0 0 "backup.fsa")
          (Reference.volume Reference.header_id0 0) with
  | Returned (_, ai') _ => archid ai' = 0
  | Fault _ _ => False
  end
  /\ id_mismatch_reported
       (outcome_world
          (@archreader_read_header Reference.externals Reference.reader_id0_vol1 true
             (Reference.volume Reference.header_id8_vol1 0))) = false
  /\ id_mismatch_reported
       (outcome_world
          (@archreader_read_volheader Reference.externals Reference.reader_id0_vol1
             (Reference.volume Reference.header_id8_vol1 0))) = false
  /\ (exists w1,
         @archreader_read_header Reference.externals Reference.reader_id0_vol1 true
           (Reference.volume Reference.header_id8_vol1 0)
         = Returned (ERR_SUCCESS,
                     mkHeaderOut Reference.magic_volh
                       (Some (Reference.volhead_dico 8 1 "FsArCh_002" "0.6.8"))
                       65535) w1)
  /\ (exists ai',
         @archreader_read_volheader Reference.externals Reference.reader_id0_vol1
           (Reference.volume Reference.header_id8_vol1 0)
         = Returned (0, ai')
             (Reference.after_header Reference.reader_id0_vol1
                                     Reference.header_id8_vol1)
         /\ archid ai' = 8)
  /\ (exists out w1 w',
         @archreader_read_header Reference.externals Reference.reader_vol1 true
           (Reference.volume Reference.header_id8_vol1 0)
         = Returned (ERR_MINOR, out) w1
         /\ id_mismatch_reported w1 = true
         /\ @archreader_read_volheader Reference.externals Reference.reader_vol1
              (Reference.volume Reference.header_id8_vol1 0)
            = Returned (-1, Reference.reader_vol1) w').
Proof.
  split; [|split; [|split; [|split; [|split]]]].
  - destruct (@archreader_read_volheader Reference.externals
                (Reference.reader 0 0 "backup.fsa")
                (Reference.volume Reference.header_id0 0))
      as [[ret ai'] w'|f w'] eqn:H.
    + apply (proj1 (proj1 (proj2 (@archid_zero_is_unset Reference.externals
                                    (Reference.reader 0 0 "backup.fsa")
                                    (Reference.volume Reference.header_id0 0)))
                      eq_refl)
               Reference.magic_volh
               (Reference.volhead_dico 0 0 "FsArCh_002" "0.6.8") 65535
               (Reference.after_header (Reference.reader 0 0 "backup.fsa")
                                       Reference.header_id0)
               ret ai' w').
      * vm_compute. reflexivity.
      * reflexivity.
      * exact H.
    + vm_compute in H. discriminate H.
  - apply (proj1 (proj2 (proj1 (proj2 (@archid_zero_is_unset Reference.externals
                                  Reference.reader_id0_vol1
                                  (Reference.volume Reference.header_id8_vol1 0)))
                           eq_refl))).
    reflexivity.
  - apply (proj1 (proj2 (proj2 (proj1 (proj2 (@archid_zero_is_unset
                                         Reference.externals
                                         Reference.reader_id0_vol1
                                         (Reference.volume Reference.header_id8_vol1 0)))
                                  eq_refl)))).
    reflexivity.
  - apply (proj1 (proj2 (proj2 (proj2 (proj1 (proj2 (@archid_zero_is_unset
                                         Reference.externals
                                         Reference.reader_id0_vol1
                                         (Reference.volume Reference.header_id8_vol1 0)))
                                  eq_refl))))
             true Reference.magic_volh (cpu_to_le 4 8) (cpu_to_le 2 65535)
             (Reference.frame_len
                (region_of (Reference.volhead_dico 8 1 "FsArCh_002" "0.6.8") []))
             (Reference.frame_sum
                (region_of (Reference.volhead_dico 8 1 "FsArCh_002" "0.6.8") []))
             [] (Reference.volhead_dico 8 1 "FsArCh_002" "0.6.8") []).
    + cbn. lia.
    + reflexivity.
    + split; [cbn; lia | exists []; vm_compute; reflexivity].
    + reflexivity.
    + reflexivity.
    + reflexivity.
    + reflexivity.
    + reflexivity.
    + reflexivity.
    + vm_compute. reflexivity.
    + vm_compute. discriminate.
    + vm_compute. reflexivity.
    + cbn. lia.
    + wellformed_items.
    + reflexivity.
  - apply (proj2 (proj2 (proj2 (proj2 (proj1 (proj2 (@archid_zero_is_unset
                                         Reference.externals
                                         Reference.reader_id0_vol1
                                         (Reference.volume Reference.header_id8_vol1 0)))
                                  eq_refl))))
             Reference.magic_volh
             (Reference.volhead_dico 8 1 "FsArCh_002" "0.6.8") 65535
             (Reference.after_header Reference.reader_id0_vol1
                                     Reference.header_id8_vol1)
             8 Reference.filefmt_002
             (overwrite (Reference.bytes_of "0.6.8") (repeat x00 32))).
    + vm_compute. reflexivity.
    + reflexivity.
    + reflexivity.
    + reflexivity.
    + reflexivity.
    + right. vm_compute. reflexivity.
    + reflexivity.
  - apply (proj2 (proj2 (@archid_zero_is_unset Reference.externals
                           Reference.reader_vol1
                           (Reference.volume Reference.header_id8_vol1 0)))
             ltac:(vm_compute; discriminate)
             true Reference.magic_volh (cpu_to_le 4 8) []).
    + cbn. lia.
    + split; [cbn; lia | eexists; vm_compute; reflexivity].
    + reflexivity.
    + reflexivity.
    + reflexivity.
    + reflexivity.
    + vm_compute. discriminate.
Defined.
